(** * google-drive-downloader: a shallow embedding of the retrieval pipeline

    The development follows the TypeScript sources:
    - [types/index.ts]      : [IFileInfo], [IDownloadedFile], [IDownloadResult],
                              [IDownloadOptions], [mimeTypeMap];
    - [validators/index.ts] : [fileIdPatterns], [detectMimeTypeFromExtension],
                              [extractFileId], [getAvailableFormats],
                              [sanitizeFileName];
    - [services]            : the [GoogleDriveDownloader] class.

    Conventions.
    - A JavaScript string is a [string]: one [ascii] per code unit, which
      restricts the model to code units below 256 (Latin-1).
    - A Node [Buffer] is a [list byte].
    - A rejected promise / thrown value is a [Thrown]; an [async] function
      that talks to the network is a state-passing function over an abstract
      world [W] returning an [Outcome].
    - HTTP headers sent, the redirect cap and the timeouts only configure the
      transport; no branch of the code reads them, so a request is identified
      by the kind of call and its URL.
    - The one timer the code arms itself, the 60 s of [streamToBuffer], is
      part of the model: a stream carries the pauses between its events. *)

From Stdlib Require Import String Ascii List ZArith Lia Bool Arith Setoid.
From Stdlib.Strings Require Import Byte.
Import ListNotations.
Open Scope string_scope.

Set Implicit Arguments.

(** ** Thrown values and outcomes *)

(** What a [catch (error)] clause can receive.  The code only ever asks
    [error instanceof Error] and reads [error.message]. *)
Inductive Thrown : Type :=
| ErrorObj (message : string)
| NotAnError (repr : string).

Inductive Outcome (A : Type) : Type :=
| Ok (a : A)
| Throw (e : Thrown).
Arguments Ok {A} a.
Arguments Throw {A} e.

(** [error instanceof Error ? error : new Error('Unknown error')] *)
Definition asError (e : Thrown) : Thrown :=
  match e with
  | ErrorObj m => ErrorObj m
  | NotAnError _ => ErrorObj "Unknown error"
  end.

(** [error instanceof Error ? error.message : fallback] *)
Definition messageOr (fallback : string) (e : Thrown) : string :=
  match e with
  | ErrorObj m => m
  | NotAnError _ => fallback
  end.

(** ** String primitives of the host language *)

Module JsString.

Definition charCode (c : ascii) : nat := nat_of_ascii c.

Definition between (lo hi n : nat) : bool := Nat.leb lo n && Nat.leb n hi.

(** [String.prototype.toLowerCase] on code units below 256. *)
Definition toLowerCaseChar (c : ascii) : ascii :=
  let n := charCode c in
  if between 65 90 n || (between 192 222 n && negb (Nat.eqb n 215))
  then ascii_of_nat (n + 32)
  else c.

Fixpoint toLowerCase (s : string) : string :=
  match s with
  | EmptyString => EmptyString
  | String c s' => String (toLowerCaseChar c) (toLowerCase s')
  end.

(** White space and line terminators below 256: TAB, LF, VT, FF, CR, SP,
    NBSP. *)
Definition isWhiteSpace (c : ascii) : bool :=
  let n := charCode c in
  between 9 13 n || Nat.eqb n 32 || Nat.eqb n 160.

Fixpoint trimStart (s : string) : string :=
  match s with
  | EmptyString => EmptyString
  | String c s' => if isWhiteSpace c then trimStart s' else s
  end.

(** [trimEnd] keeps a character when it, or something after it, is not
    white space. *)
Fixpoint trimEnd (s : string) : string :=
  match s with
  | EmptyString => EmptyString
  | String c s' =>
      match trimEnd s' with
      | EmptyString => if isWhiteSpace c then EmptyString else String c EmptyString
      | t => String c t
      end
  end.

Definition trim (s : string) : string := trimEnd (trimStart s).

(** [s.includes(pat)] *)
Fixpoint includes (pat s : string) : bool :=
  String.prefix pat s ||
  match s with
  | EmptyString => false
  | String _ s' => includes pat s'
  end.

(** [s.split(sep)] for a one-character separator; the result is never
    empty, so it is returned as first piece and remaining pieces. *)
Fixpoint splitParts (sep : ascii) (s : string) : string * list string :=
  match s with
  | EmptyString => (EmptyString, [])
  | String c s' =>
      let (hd, tl) := splitParts sep s' in
      if Ascii.eqb c sep then (EmptyString, hd :: tl) else (String c hd, tl)
  end.

Definition split (sep : ascii) (s : string) : list string :=
  let (hd, tl) := splitParts sep s in hd :: tl.

(** [arr.pop()] as a value: the last element, if any. *)
Definition pop (l : list string) : option string :=
  match rev l with
  | [] => None
  | x :: _ => Some x
  end.

(** Truthiness of a string. *)
Definition truthy (s : string) : bool :=
  match s with EmptyString => false | _ => true end.

End JsString.

(** ** types/index.ts *)

(** The values that flow through the [mimeType] variables.  They are declared
    [string | null]; at run time a property read on the plain object
    [mimeTypeMap] can also reach a member of [Object.prototype]. *)
Inductive Mime : Type :=
| MimeStr (s : string)
| MimeProto (member : string).

Definition mimeTypeMap : list (string * string) :=
  [ ("pdf", "application/pdf");
    ("doc", "application/msword");
    ("docx", "application/vnd.openxmlformats-officedocument.wordprocessingml.document");
    ("xls", "application/vnd.ms-excel");
    ("xlsx", "application/vnd.openxmlformats-officedocument.spreadsheetml.sheet");
    ("ppt", "application/vnd.ms-powerpoint");
    ("pptx", "application/vnd.openxmlformats-officedocument.presentationml.presentation");
    ("txt", "text/plain");
    ("csv", "text/csv");
    ("rtf", "application/rtf");
    ("odt", "application/vnd.oasis.opendocument.text");
    ("ods", "application/vnd.oasis.opendocument.spreadsheet");
    ("odp", "application/vnd.oasis.opendocument.presentation");
    ("jpg", "image/jpeg");
    ("jpeg", "image/jpeg");
    ("png", "image/png");
    ("gif", "image/gif");
    ("bmp", "image/bmp");
    ("webp", "image/webp");
    ("svg", "image/svg+xml");
    ("mp4", "video/mp4");
    ("avi", "video/x-msvideo");
    ("mov", "video/quicktime");
    ("wmv", "video/x-ms-wmv");
    ("mp3", "audio/mpeg");
    ("wav", "audio/wav");
    ("zip", "application/zip");
    ("rar", "application/x-rar-compressed");
    ("7z", "application/x-7z-compressed");
    ("json", "application/json");
    ("xml", "application/xml");
    ("html", "text/html");
    ("css", "text/css");
    ("js", "application/javascript") ].

(** Own entries of the table. *)
Fixpoint ownEntry (tbl : list (string * string)) (k : string) : option string :=
  match tbl with
  | [] => None
  | (k', v) :: tbl' => if String.eqb k k' then Some v else ownEntry tbl' k
  end.

(** Members every plain object inherits from [Object.prototype]; each of
    them is a function or an object, hence truthy. *)
Definition objectPrototypeMembers : list string :=
  [ "constructor"; "__defineGetter__"; "__defineSetter__"; "hasOwnProperty";
    "__lookupGetter__"; "__lookupSetter__"; "isPrototypeOf";
    "propertyIsEnumerable"; "toString"; "valueOf"; "__proto__";
    "toLocaleString" ].

(** [mimeTypeMap[k]]: [None] is [undefined]. *)
Definition mimeTypeMapGet (k : string) : option Mime :=
  match ownEntry mimeTypeMap k with
  | Some v => Some (MimeStr v)
  | None =>
      if existsb (String.eqb k) objectPrototypeMembers
      then Some (MimeProto k)
      else None
  end.

Definition mimeTruthy (m : option Mime) : bool :=
  match m with
  | None => false
  | Some (MimeStr s) => JsString.truthy s
  | Some (MimeProto _) => true
  end.

(** [m === lit] for a string literal [lit]. *)
Definition mimeIs (lit : string) (m : option Mime) : bool :=
  match m with
  | Some (MimeStr s) => String.eqb s lit
  | _ => false
  end.

(** ** validators/index.ts: media type from the file name *)

(** [fileName.split('.').pop()?.toLowerCase()] then
    [extension ? mimeTypeMap[extension] || null : null]. *)
Definition detectMimeTypeFromExtension (fileName : string) : option Mime :=
  match JsString.pop (JsString.split "." fileName) with
  | None => None
  | Some e =>
      let extension := JsString.toLowerCase e in
      if JsString.truthy extension
      then (if mimeTruthy (mimeTypeMapGet extension)
            then mimeTypeMapGet extension
            else None)
      else None
  end.

(** ** services: candidate endpoints *)

Definition optIncludes (pat : string) (m : option string) : bool :=
  match m with
  | Some s => JsString.includes pat s
  | None => false
  end.

(** [getDownloadUrls(fileId, mimeType, exportFormat)]; pushes are appends. *)
Definition getDownloadUrls (fileId : string) (mimeType : option string)
    (exportFormat : string) : list string :=
  let exportUrls (kind native : string) : list string :=
    List.app
      (if String.eqb exportFormat "original" || String.eqb exportFormat native
       then ["https://docs.google.com/" ++ kind ++ "/d/" ++ fileId ++ "/export?format=" ++ native]
       else [])
      (if String.eqb exportFormat "pdf" || String.eqb exportFormat "original"
       then ["https://docs.google.com/" ++ kind ++ "/d/" ++ fileId ++ "/export?format=pdf"]
       else []) in
  List.app
    (if optIncludes "document" mimeType then exportUrls "document" "docx"
     else if optIncludes "spreadsheet" mimeType then exportUrls "spreadsheets" "xlsx"
     else if optIncludes "presentation" mimeType then exportUrls "presentation" "pptx"
     else [])
    [ "https://drive.usercontent.google.com/download?id=" ++ fileId ++ "&export=download&authuser=0";
      "https://drive.usercontent.google.com/download?id=" ++ fileId ++ "&export=download&confirm=t";
      "https://drive.usercontent.google.com/download?id=" ++ fileId ++ "&export=download";
      "https://drive.google.com/uc?export=download&id=" ++ fileId;
      "https://drive.google.com/uc?id=" ++ fileId ++ "&export=download" ].

(** ** Regular expressions

    Every regular expression literal of the sources is a sequence of
    literals, greedy repetitions of one character class (one of them possibly
    the capturing group 1) and [$].  [matchHere] is the backtracking matcher
    of the host language on that fragment: a repetition first takes the longest
    run and gives characters back one at a time. *)

Module Regex.

Inductive Item : Type :=
| Lit (s : string)                        (* literal characters *)
| Rep (cls : ascii -> bool) (min : nat)   (* [cls*] is min 0, [cls+] is min 1 *)
| Cap (cls : ascii -> bool) (min : nat)   (* [(cls+)], the capturing group *)
| End.                                    (* [$] without the m flag *)

Record Pattern : Type := mkPattern { items : list Item; ignoreCase : bool }.

Definition charEq (ic : bool) (a b : ascii) : bool :=
  if ic
  then Ascii.eqb (JsString.toLowerCaseChar a) (JsString.toLowerCaseChar b)
  else Ascii.eqb a b.

(** Consumes the literal [l] at the head of [s]. *)
Fixpoint litMatch (ic : bool) (l s : string) : option string :=
  match l with
  | EmptyString => Some s
  | String a l' =>
      match s with
      | EmptyString => None
      | String b s' => if charEq ic a b then litMatch ic l' s' else None
      end
  end.

(** Length of the longest prefix of [s] made of characters of [cls]. *)
Fixpoint run (cls : ascii -> bool) (s : string) : nat :=
  match s with
  | EmptyString => O
  | String c s' => if cls c then S (run cls s') else O
  end.

Fixpoint take (k : nat) (s : string) : string :=
  match k, s with
  | S k', String c s' => String c (take k' s')
  | _, _ => EmptyString
  end.

Fixpoint drop (k : nat) (s : string) : string :=
  match k, s with
  | S k', String _ s' => drop k' s'
  | _, _ => s
  end.

(** Tries the continuation [f] with [n], [n-1], ... characters taken, never
    fewer than [min]. *)
Fixpoint greedy {A : Type} (f : nat -> option A) (min n : nat) : option A :=
  if Nat.ltb n min then None
  else match f n with
       | Some x => Some x
       | None => match n with
                 | O => None
                 | S n' => greedy f min n'
                 end
       end.

(** Matches [its] at the head of [s]: the capture (if a group took part)
    and what follows the match. *)
Fixpoint matchHere (ic : bool) (its : list Item) (s : string)
  : option (option string * string) :=
  match its with
  | [] => Some (None, s)
  | Lit l :: r =>
      match litMatch ic l s with
      | Some s' => matchHere ic r s'
      | None => None
      end
  | Rep cls min :: r =>
      greedy (fun k => matchHere ic r (drop k s)) min (run cls s)
  | Cap cls min :: r =>
      greedy (fun k => match matchHere ic r (drop k s) with
                       | Some (_, rest) => Some (Some (take k s), rest)
                       | None => None
                       end) min (run cls s)
  | End :: r =>
      match s with
      | EmptyString => matchHere ic r EmptyString
      | String _ _ => None
      end
  end.

(** A successful search: text before the match, capture, text after. *)
Record Found : Type := mkFound { before : string; group1 : option string; after : string }.

(** Leftmost match, as [RegExp.prototype.exec] without the g flag. *)
Fixpoint search (p : Pattern) (s : string) : option Found :=
  match matchHere (ignoreCase p) (items p) s with
  | Some (c, rest) => Some (mkFound EmptyString c rest)
  | None =>
      match s with
      | EmptyString => None
      | String a s' =>
          match search p s' with
          | Some f => Some (mkFound (String a (before f)) (group1 f) (after f))
          | None => None
          end
      end
  end.

(** [s.match(p)] read at index 1: [None] when there is no match. *)
Definition match1 (p : Pattern) (s : string) : option string :=
  match search p s with
  | Some f => group1 f
  | None => None
  end.

(** [s.replace(p, '')] *)
Definition remove (p : Pattern) (s : string) : string :=
  match search p s with
  | Some f => before f ++ after f
  | None => s
  end.

End Regex.

(** ** validators/index.ts: the identifier extractor *)

(** [[a-zA-Z0-9-_]] *)
Definition idChar (c : ascii) : bool :=
  let n := JsString.charCode c in
  JsString.between 97 122 n || JsString.between 65 90 n ||
  JsString.between 48 57 n || Nat.eqb n 45 || Nat.eqb n 95.

(** [/<pre>([a-zA-Z0-9-_]+)<post>/] *)
Definition idPattern (pre post : string) : Regex.Pattern :=
  Regex.mkPattern [Regex.Lit pre; Regex.Cap idChar 1; Regex.Lit post] false.

Definition fileIdPatterns : list Regex.Pattern :=
  [ idPattern "/file/d/" "";
    idPattern "id=" "";
    idPattern "/d/" "/view";
    idPattern "/d/" "/edit";
    idPattern "/document/d/" "";
    idPattern "/spreadsheets/d/" "";
    idPattern "/presentation/d/" "";
    idPattern "/forms/d/" "";
    idPattern "/drawings/d/" "" ].

(** The argument of [extractFileId] as the run-time check sees it. *)
Inductive UrlArg : Type :=
| UrlString (s : string)
| UrlNotString.

Definition invalidUrl : Thrown := ErrorObj "Invalid URL provided".
Definition fileIdNotFound : Thrown :=
  ErrorObj "File ID not found in URL. Please verify it is a valid Google Drive URL".

(** The [for (const pattern of fileIdPatterns)] loop; [match && match[1]]
    also asks the group to be a non-empty string. *)
Fixpoint firstMatch (ps : list Regex.Pattern) (cleanUrl : string) : option string :=
  match ps with
  | [] => None
  | p :: ps' =>
      match Regex.match1 p cleanUrl with
      | Some g => if JsString.truthy g then Some g else firstMatch ps' cleanUrl
      | None => firstMatch ps' cleanUrl
      end
  end.

Definition extractFileId (url : UrlArg) : Outcome string :=
  match url with
  | UrlNotString => Throw invalidUrl
  | UrlString s =>
      if negb (JsString.truthy s) then Throw invalidUrl
      else match firstMatch fileIdPatterns (JsString.trim s) with
           | Some id => Ok id
           | None => Throw fileIdNotFound
           end
  end.

(** ** services: media type from the leading bytes *)

Module Buffer.

Definition t : Type := list byte.

Fixpoint eqb (a b : t) : bool :=
  match a, b with
  | [], [] => true
  | x :: a', y :: b' => Byte.eqb x y && eqb a' b'
  | _, _ => false
  end.

(** [buf.slice(from, to)]; both ends are clamped to the length. *)
Definition slice (from to : nat) (b : t) : t := firstn (to - from) (skipn from b).

Definition ofString (s : string) : t := list_byte_of_string s.

Fixpoint startsWith (pat b : t) : bool :=
  match pat, b with
  | [], _ => true
  | x :: pat', y :: b' => Byte.eqb x y && startsWith pat' b'
  | _ :: _, [] => false
  end.

Fixpoint contains (pat b : t) : bool :=
  startsWith pat b ||
  match b with
  | [] => false
  | _ :: b' => contains pat b'
  end.

(** [buf.toString() === lit] for an ASCII literal: UTF-8 decoding maps a
    byte below 128 to itself and everything else away from ASCII, so the
    comparison is the comparison of the bytes. *)
Definition toStringIs (lit : string) (b : t) : bool := eqb b (ofString lit).

(** [buf.toString().includes(lit)] for an ASCII literal, for the same
    reason. *)
Definition toStringIncludes (lit : string) (b : t) : bool := contains (ofString lit) b.

(** [Array.from(buf)[i] === v] *)
Definition at_is (i : nat) (v : byte) (b : t) : bool :=
  match nth_error b i with
  | Some x => Byte.eqb x v
  | None => false
  end.

End Buffer.

Definition octetStream : string := "application/octet-stream".

Definition detectMimeTypeFromBuffer (buffer : Buffer.t) : string :=
  if Nat.ltb (length buffer) 4 then octetStream
  else if Buffer.toStringIs "%PDF" (Buffer.slice 0 4 buffer) then "application/pdf"
  else
    let firstBytes := Buffer.slice 0 12 buffer in
    if Buffer.at_is 0 xff firstBytes && Buffer.at_is 1 xd8 firstBytes
       && Buffer.at_is 2 xff firstBytes
    then "image/jpeg"
    else if Buffer.at_is 0 x89 firstBytes && Buffer.at_is 1 x50 firstBytes
            && Buffer.at_is 2 x4e firstBytes && Buffer.at_is 3 x47 firstBytes
    then "image/png"
    else if Buffer.toStringIs "GIF" (Buffer.slice 0 3 buffer) then "image/gif"
    else if Buffer.toStringIs "RIFF" (Buffer.slice 0 4 buffer)
            && Buffer.toStringIs "WEBP" (Buffer.slice 8 12 buffer)
    then "image/webp"
    else if Buffer.at_is 0 x50 firstBytes && Buffer.at_is 1 x4b firstBytes then
      let zipBuffer := Buffer.slice 0 100 buffer in
      if Buffer.toStringIncludes "word/" zipBuffer
      then "application/vnd.openxmlformats-officedocument.wordprocessingml.document"
      else if Buffer.toStringIncludes "xl/" zipBuffer
      then "application/vnd.openxmlformats-officedocument.spreadsheetml.sheet"
      else if Buffer.toStringIncludes "ppt/" zipBuffer
      then "application/vnd.openxmlformats-officedocument.presentationml.presentation"
      else "application/zip"
    else octetStream.

(** ** types/index.ts: records *)

(** A number as [parseInt] yields it. *)
Inductive JsNumber : Type :=
| Num (z : Z)
| NaN.

Module IFileInfo.
Record t : Type := mk { name : string; mimeType : option Mime; size : option JsNumber }.
End IFileInfo.

(** A [Readable] in flowing mode, as the events it will emit and the time
    that passes between them, in milliseconds; events with no pause between
    them come at the same instant.  When the list runs out nothing more
    happens on the stream. *)
Inductive StreamEvent : Type :=
| OnData (chunk : Buffer.t)
| OnEnd
| OnError (e : Thrown)
| Idle (ms : N).

Definition Readable : Type := list StreamEvent.

Module IDownloadedFile.
Record t : Type := mk {
  buffer : option Buffer.t;
  stream : option Readable;
  mimetype : Mime;
  originalname : string;
  size : option nat }.
End IDownloadedFile.

Module IDownloadResult.
Record t : Type := mk {
  success : bool;
  file : option IDownloadedFile.t;
  fileName : option string;
  fileId : option string;
  mimeType : option Mime;
  size : option nat;
  error : option string;
  totalBytes : option Z }.
End IDownloadResult.

Module IDownloadOptions.
(** Every field is optional; [retryDelay] is declared but never read. *)
Record t : Type := mk {
  timeout : option Z;
  maxRetries : option Z;
  exportFormat : option string;
  asBuffer : option bool }.
Definition empty : t := mk None None None None.
End IDownloadOptions.

(** The response of a streaming GET, as far as the code looks at it:
    [headers['content-type']], [headers['content-length']] and [data]. *)
Record AxiosResponse : Type := mkResponse {
  contentType : option string;
  contentLength : option string;
  data : Readable }.

(** Body of the metadata API answer: [{name, mimeType, size}]. *)
Record ApiFile : Type := mkApiFile {
  apiName : string;
  apiMimeType : option string;
  apiSize : option string }.

(** ** [parseInt(s, 10)] *)

Definition digitValue (c : ascii) : option Z :=
  let n := JsString.charCode c in
  if JsString.between 48 57 n then Some (Z.of_nat (n - 48)) else None.

(** Reads the longest run of decimal digits; [None] when it is empty. *)
Fixpoint digits (acc : option Z) (s : string) : option Z :=
  match s with
  | EmptyString => acc
  | String c s' =>
      match digitValue c with
      | Some d => digits (Some (10 * match acc with Some a => a | None => 0 end + d)%Z) s'
      | None => acc
      end
  end.

(** Exact on integers.  The host computes in doubles: it rounds above 2^53
    and yields [Infinity] on very long runs of digits; such texts are outside
    the model. *)
Definition parseInt10 (s : string) : JsNumber :=
  let t := JsString.trimStart s in
  let (neg, body) :=
    match t with
    | String "-" r => (true, r)
    | String "+" r => (false, r)
    | _ => (false, t)
    end in
  match digits None body with
  | Some z => Num (if neg then - z else z)%Z
  | None => NaN
  end.

(** [n || 0] *)
Definition numOrZero (n : JsNumber) : Z :=
  match n with
  | Num z => z
  | NaN => 0%Z
  end.

(** ** config/index.ts

    The configuration module is not part of the sources at hand; the
    constants the code reads from [CONFIG] are taken as parameters. *)
Record Config : Type := mkConfig {
  DEFAULT_MAX_RETRIES : Z;
  DEFAULT_RETRY_DELAY : Z;
  MAX_BUFFER_SIZE : Z;
  (** the text of [CONFIG.MAX_BUFFER_SIZE / 1024 / 1024] inside a template *)
  maxBufferSizeMB : string }.

(** ** Effects *)

(** An [async] function: reads and changes the world, resolves or rejects. *)
Definition Async (W A : Type) : Type := W -> Outcome A * W.

(** The collaborators outside the class: the HTTP client and the timer. *)
Class Transport (W : Type) : Type := {
  (** [axios.get(url, { params: { fields: 'name,mimeType,size' } })], read at [.data] *)
  getJson : string -> Async W ApiFile;
  (** [axios.get(url, ...)], read at [.data], a text; a body that is not a
      text makes the [.match] call on it throw inside the [try] of the caller,
      which is the same to the caller as a rejected request *)
  getText : string -> Async W string;
  (** [axios({ method: 'GET', url, responseType: 'stream', ... })] *)
  getStream : string -> Async W AxiosResponse;
  (** [await new Promise(resolve => setTimeout(resolve, delay))] *)
  sleep : Z -> W -> W }.

Section Monad.
Context {W : Type}.

Definition ret {A} (a : A) : Async W A := fun w => (Ok a, w).

Definition throw {A} (e : Thrown) : Async W A := fun w => (Throw e, w).

Definition bind {A B} (m : Async W A) (k : A -> Async W B) : Async W B :=
  fun w => match m w with
           | (Ok a, w') => k a w'
           | (Throw e, w') => (Throw e, w')
           end.

(** [try { m } catch (error) { h error }] *)
Definition tryCatch {A} (m : Async W A) (h : Thrown -> Async W A) : Async W A :=
  fun w => match m w with
           | (Ok a, w') => (Ok a, w')
           | (Throw e, w') => h e w'
           end.

(** A synchronous computation used inside an [async] function. *)
Definition lift {A} (o : Outcome A) : Async W A := fun w => (o, w).
End Monad.

Notation "x <- m ;; k" := (bind m (fun x => k))
  (at level 61, m at next level, right associativity).

(** ** services: the rest of [GoogleDriveDownloader] *)

Definition googleDocMimeTypes : list string :=
  [ "application/vnd.google-apps.document";
    "application/vnd.google-apps.spreadsheet";
    "application/vnd.google-apps.presentation";
    "application/vnd.google-apps.form";
    "application/vnd.google-apps.drawing" ].

(** [this.googleDocMimeTypes.includes(mimeType || '')] *)
Definition isGoogleDocMime (mimeType : option Mime) : bool :=
  match (if mimeTruthy mimeType then mimeType else Some (MimeStr "")) with
  | Some (MimeStr s) => existsb (String.eqb s) googleDocMimeTypes
  | _ => false
  end.

(** [m || 'application/octet-stream'] *)
Definition mimeOrOctet (m : option Mime) : Mime :=
  match m with
  | Some v => if mimeTruthy m then v else MimeStr octetStream
  | None => MimeStr octetStream
  end.

(** [/\.[^.]*$/] *)
Definition lastExtension : Regex.Pattern :=
  Regex.mkPattern
    [Regex.Lit "."; Regex.Rep (fun c => negb (Ascii.eqb c ".")) 0; Regex.End] false.

(** The first statements of [processDownloadResponse]: the file name and
    the media type carried into either mode, after the adjustment for a
    requested export format. *)
Definition adjustNameAndType (fileInfo : IFileInfo.t) (exportFormat : string)
  : string * option Mime :=
  if negb (String.eqb exportFormat "original")
     && isGoogleDocMime (IFileInfo.mimeType fileInfo)
  then
    let nameWithoutExt := Regex.remove lastExtension (IFileInfo.name fileInfo) in
    let finalFileName := nameWithoutExt ++ "." ++ exportFormat in
    (finalFileName, detectMimeTypeFromExtension finalFileName)
  else (IFileInfo.name fileInfo, IFileInfo.mimeType fileInfo).

(** [value || fallback] on an optional header. *)
Definition headerOr (h : option string) (fallback : string) : string :=
  match h with
  | Some s => if JsString.truthy s then s else fallback
  | None => fallback
  end.

(** The double quote, which a string literal cannot hold. *)
Definition dq : string := String (ascii_of_nat 34) EmptyString.

(** [/<title>([^<]+)<\/title>/i] *)
Definition titleTag : Regex.Pattern :=
  Regex.mkPattern
    [Regex.Lit "<title>"; Regex.Cap (fun c => negb (Ascii.eqb c "<")) 1;
     Regex.Lit "</title>"] true.

(** [/\s*-\s*Google Drive\s*$/i] *)
Definition driveSuffix : Regex.Pattern :=
  Regex.mkPattern
    [Regex.Rep JsString.isWhiteSpace 0; Regex.Lit "-";
     Regex.Rep JsString.isWhiteSpace 0; Regex.Lit "Google Drive";
     Regex.Rep JsString.isWhiteSpace 0; Regex.End] true.

(** [/property=Qog:titleQ\s+content=Q([^Q]+)Q/i], writing Q for the double
    quote. *)
Definition ogTitle : Regex.Pattern :=
  Regex.mkPattern
    [Regex.Lit ("property=" ++ dq ++ "og:title" ++ dq);
     Regex.Rep JsString.isWhiteSpace 1;
     Regex.Lit ("content=" ++ dq);
     Regex.Cap (fun c => negb (Nat.eqb (JsString.charCode c) 34)) 1;
     Regex.Lit dq] true.

(** The class of the confirmation token: any character but the ampersand,
    the double quote and the single quote. *)
Definition tokenChar (c : ascii) : bool :=
  let n := JsString.charCode c in
  negb (Nat.eqb n 38 || Nat.eqb n 34 || Nat.eqb n 39).

(** [confirm=] followed by the capturing group of one or more token
    characters. *)
Definition confirmParam : Regex.Pattern :=
  Regex.mkPattern [Regex.Lit "confirm="; Regex.Cap tokenChar 1] false.

Section Service.
Variable CONFIG : Config.

(** The delay of the timer [streamToBuffer] arms, in milliseconds. *)
Definition DRAIN_TIMEOUT : N := 60000.

(** [streamToBuffer].  The timer is armed when the drain starts and is never
    cleared, so the promise settles at the first of: a chunk that takes the
    total above the ceiling, ['end'], ['error'], or the timer, which fires
    once [DRAIN_TIMEOUT] has passed since the start, whatever the stream has
    emitted by then; [elapsed] is the time since the start, and what comes
    at the very instant the timer is due comes after it.  A stream that
    falls silent for good is ended by the timer too. *)
Fixpoint streamToBufferFrom (events : Readable) (chunks : list Buffer.t)
    (totalSize : Z) (elapsed : N) : Outcome Buffer.t :=
  match events with
  | [] => Throw (ErrorObj "Timeout while converting stream to buffer")
  | Idle ms :: events' =>
      let elapsed := (elapsed + ms)%N in
      if (DRAIN_TIMEOUT <=? elapsed)%N
      then Throw (ErrorObj "Timeout while converting stream to buffer")
      else streamToBufferFrom events' chunks totalSize elapsed
  | OnData chunk :: events' =>
      let chunks := List.app chunks [chunk] in
      let totalSize := (totalSize + Z.of_nat (length chunk))%Z in
      if (totalSize >? MAX_BUFFER_SIZE CONFIG)%Z
      then Throw (ErrorObj ("File too large to process in memory (>"
                            ++ maxBufferSizeMB CONFIG ++ "MB)"))
      else streamToBufferFrom events' chunks totalSize elapsed
  | OnEnd :: _ => Ok (List.concat chunks)
  | OnError e :: _ => Throw e
  end.

Definition streamToBuffer (stream : Readable) : Outcome Buffer.t :=
  streamToBufferFrom stream [] 0%Z 0%N.

Definition processDownloadResponse (response : AxiosResponse)
    (fileInfo : IFileInfo.t) (fileId : string) (asBuffer : bool)
    (exportFormat : string) : Outcome IDownloadResult.t :=
  let (finalFileName, finalMimeType) := adjustNameAndType fileInfo exportFormat in
  if asBuffer then
    match streamToBuffer (data response) with
    | Throw e => Throw e
    | Ok buffer =>
        let detectedMimeType := detectMimeTypeFromBuffer buffer in
        let finalMimeType :=
          if negb (String.eqb detectedMimeType octetStream)
          then Some (MimeStr detectedMimeType)
          else finalMimeType in
        let finalMimeType :=
          if negb (mimeTruthy finalMimeType) || mimeIs octetStream finalMimeType
          then (let extensionMimeType := detectMimeTypeFromExtension finalFileName in
                if mimeTruthy extensionMimeType then extensionMimeType
                else finalMimeType)
          else finalMimeType in
        let downloadedFile :=
          IDownloadedFile.mk (Some buffer) None (mimeOrOctet finalMimeType)
            finalFileName (Some (length buffer)) in
        Ok (IDownloadResult.mk true (Some downloadedFile) (Some finalFileName)
              (Some fileId) (Some (mimeOrOctet finalMimeType))
              (Some (length buffer)) None None)
    end
  else
    let downloadedFile :=
      IDownloadedFile.mk None (Some (data response)) (mimeOrOctet finalMimeType)
        finalFileName None in
    let totalBytes := parseInt10 (headerOr (contentLength response) "0") in
    Ok (IDownloadResult.mk true (Some downloadedFile) (Some finalFileName)
          (Some fileId) (Some (mimeOrOctet finalMimeType))
          None None (Some (numOrZero totalBytes))).

Context {W : Type} {transport : Transport W}.

(** [retryWithBackoff]: [fuel] bounds the iterations of the [for] loop that
    are left; the code after the loop throws the still unassigned
    [lastError], that is [undefined]. *)
Fixpoint retryLoop {A} (fn : Async W A) (maxRetries baseDelay : Z)
    (fuel : nat) (attempt : Z) (lastError : Thrown) : Async W A :=
  match fuel with
  | O => throw lastError
  | S fuel' =>
      tryCatch fn (fun error =>
        let lastError := asError error in
        if (attempt =? maxRetries)%Z then throw lastError
        else fun w =>
          let delay := (baseDelay * 2 ^ attempt)%Z in
          retryLoop fn maxRetries baseDelay fuel' (attempt + 1)%Z lastError
            (sleep delay w))
  end.

Definition retryWithBackoff {A} (fn : Async W A) (maxRetries baseDelay : Z)
  : Async W A :=
  retryLoop fn maxRetries baseDelay (Z.to_nat (maxRetries + 1)) 0%Z
    (NotAnError "undefined").

(** [getFileInfoFromPage]: every failure is absorbed into a synthetic
    name. *)
Definition getFileInfoFromPage (fileId : string) : Async W IFileInfo.t :=
  tryCatch
    (html <- getText ("https://drive.google.com/file/d/" ++ fileId ++ "/view") ;;
     let fileName := "file_" ++ fileId in
     let fileName :=
       match Regex.match1 titleTag html with
       | Some g =>
           let title := JsString.trim g in
           let title := Regex.remove driveSuffix title in
           if JsString.truthy title && negb (String.eqb title "Google Drive")
           then title else fileName
       | None => fileName
       end in
     let fileName :=
       match Regex.match1 ogTitle html with
       | Some g =>
           if negb (String.eqb g "Google Drive") then JsString.trim g else fileName
       | None => fileName
       end in
     ret (IFileInfo.mk fileName (detectMimeTypeFromExtension fileName) None))
    (fun _ => ret (IFileInfo.mk ("file_" ++ fileId) None None)).

Definition getFileInfo (fileId : string) : Async W IFileInfo.t :=
  tryCatch
    (d <- getJson ("https://www.googleapis.com/drive/v3/files/" ++ fileId) ;;
     ret (IFileInfo.mk (apiName d)
            (option_map MimeStr (apiMimeType d))
            (match apiSize d with
             | Some sz => if JsString.truthy sz then Some (parseInt10 sz) else None
             | None => None
             end)))
    (fun _ => getFileInfoFromPage fileId).

(** [downloadLargeFile]: whatever goes wrong is rethrown under a prefix. *)
Definition downloadLargeFile (fileId : string) (fileInfo : IFileInfo.t)
    (asBuffer : bool) (exportFormat : string) : Async W IDownloadResult.t :=
  tryCatch
    (body <- getText ("https://drive.google.com/uc?export=download&id=" ++ fileId) ;;
     match Regex.match1 confirmParam body with
     | None => throw (ErrorObj "Confirmation token not found for large file")
     | Some confirmToken =>
         let downloadUrl :=
           "https://drive.google.com/uc?export=download&confirm="
           ++ confirmToken ++ "&id=" ++ fileId in
         response <- getStream downloadUrl ;;
         lift (processDownloadResponse response fileInfo fileId asBuffer exportFormat)
     end)
    (fun error =>
       throw (ErrorObj ("Large file download error: " ++ messageOr "Unknown" error))).

(** How the [for] loop over the candidates is left: by [return], or past
    its end (by [break] or because the list ran out) with the current
    value of [response]. *)
Inductive LoopExit : Type :=
| Returned (result : IDownloadResult.t)
| Left (response : option AxiosResponse).

(** The loop from index [i] on, [urls] being [downloadUrls.slice(i)]; the
    test [i === downloadUrls.length - 1] is that nothing follows the head. *)
Fixpoint fetchLoop (fileId : string) (fileInfo : IFileInfo.t) (asBuffer : bool)
    (exportFormat : string) (urls : list string)
    (response : option AxiosResponse) : Async W LoopExit :=
  match urls with
  | [] => ret (Left response)
  | url :: rest =>
      let isLast := match rest with [] => true | _ :: _ => false end in
      fun w =>
        match getStream url w with
        | (Ok r, w1) =>
            if JsString.includes "text/html" (headerOr (contentType r) "")
            then
              if isLast
              then tryCatch
                     (result <- downloadLargeFile fileId fileInfo asBuffer exportFormat ;;
                      ret (Returned result))
                     (fun error => throw (asError error)) w1
              else fetchLoop fileId fileInfo asBuffer exportFormat rest (Some r) w1
            else (Ok (Left (Some r)), w1)
        | (Throw error, w1) =>
            if isLast then (Throw (asError error), w1)
            else fetchLoop fileId fileInfo asBuffer exportFormat rest response w1
        end
  end.

(** The call [this.getDownloadUrls(fileId, fileInfo.mimeType, exportFormat)]:
    on a value that is not a string, [mimeType?.includes] is not callable and
    a [TypeError] is thrown.  Its message is the engine's; the text below is
    V8's for the source as written. *)
Definition callGetDownloadUrls (fileId : string) (mimeType : option Mime)
    (exportFormat : string) : Outcome (list string) :=
  match mimeType with
  | None => Ok (getDownloadUrls fileId None exportFormat)
  | Some (MimeStr s) => Ok (getDownloadUrls fileId (Some s) exportFormat)
  | Some (MimeProto _) => Throw (ErrorObj "mimeType?.includes is not a function")
  end.

(** The destructuring [const { maxRetries = ..., exportFormat = 'original',
    asBuffer = true } = options]. *)
Definition maxRetriesOf (options : IDownloadOptions.t) : Z :=
  match IDownloadOptions.maxRetries options with
  | Some n => n
  | None => DEFAULT_MAX_RETRIES CONFIG
  end.

Definition exportFormatOf (options : IDownloadOptions.t) : string :=
  match IDownloadOptions.exportFormat options with
  | Some f => f
  | None => "original"
  end.

Definition asBufferOf (options : IDownloadOptions.t) : bool :=
  match IDownloadOptions.asBuffer options with
  | Some b => b
  | None => true
  end.

(** The body of the outer [try] of [download]. *)
Definition downloadBody (url : UrlArg) (options : IDownloadOptions.t)
  : Async W IDownloadResult.t :=
  let maxRetries := maxRetriesOf options in
  let exportFormat := exportFormatOf options in
  let asBuffer := asBufferOf options in
  fileId <- lift (extractFileId url) ;;
  fileInfo <- retryWithBackoff (getFileInfo fileId) maxRetries
                (DEFAULT_RETRY_DELAY CONFIG) ;;
  downloadUrls <- lift (callGetDownloadUrls fileId (IFileInfo.mimeType fileInfo)
                          exportFormat) ;;
  exit <- fetchLoop fileId fileInfo asBuffer exportFormat downloadUrls None ;;
  match exit with
  | Returned result => ret result
  | Left None => throw (ErrorObj "All download attempts failed")
  | Left (Some response) =>
      lift (processDownloadResponse response fileInfo fileId asBuffer exportFormat)
  end.

Definition failure (errorMessage : string) : IDownloadResult.t :=
  IDownloadResult.mk false None None None None None (Some errorMessage) None.

(** [download]: a promise that always resolves. *)
Definition download (url : UrlArg) (options : IDownloadOptions.t)
  : W -> IDownloadResult.t * W :=
  fun w =>
    match downloadBody url options w with
    | (Ok result, w') => (result, w')
    | (Throw error, w') => (failure (messageOr "Unknown error" error), w')
    end.

Definition withAsBuffer (b : bool) (options : IDownloadOptions.t) : IDownloadOptions.t :=
  IDownloadOptions.mk (IDownloadOptions.timeout options)
    (IDownloadOptions.maxRetries options)
    (IDownloadOptions.exportFormat options) (Some b).

Definition downloadAsBuffer (url : UrlArg) (options : IDownloadOptions.t) :=
  download url (withAsBuffer true options).

Definition downloadAsStream (url : UrlArg) (options : IDownloadOptions.t) :=
  download url (withAsBuffer false options).

End Service.

(** ** A scripted transport

    A test double for the collaborators: each kind of call answers with the
    next reply of its script (a network error once the script is used up) and
    the world records the URLs requested and the delays slept, in order. *)

Module Scripted.

Inductive Event : Type :=
| Requested (url : string)
| Slept (delay : Z).

Record World : Type := mkWorld {
  jsonReplies : list (Outcome ApiFile);
  textReplies : list (Outcome string);
  streamReplies : list (Outcome AxiosResponse);
  journal : list Event }.

Definition networkError {A} : Outcome A := Throw (ErrorObj "Network Error").

Definition next {A} (script : list (Outcome A)) : Outcome A * list (Outcome A) :=
  match script with
  | [] => (networkError, [])
  | r :: script' => (r, script')
  end.

Definition note (e : Event) (w : World) : list Event := List.app (journal w) [e].

#[global] Instance transport : Transport World := {
  getJson url w :=
    let (r, s) := next (jsonReplies w) in
    (r, mkWorld s (textReplies w) (streamReplies w) (note (Requested url) w));
  getText url w :=
    let (r, s) := next (textReplies w) in
    (r, mkWorld (jsonReplies w) s (streamReplies w) (note (Requested url) w));
  getStream url w :=
    let (r, s) := next (streamReplies w) in
    (r, mkWorld (jsonReplies w) (textReplies w) s (note (Requested url) w));
  sleep delay w :=
    mkWorld (jsonReplies w) (textReplies w) (streamReplies w) (note (Slept delay) w) }.

Definition start (js : list (Outcome ApiFile)) (ts : list (Outcome string))
    (ss : list (Outcome AxiosResponse)) : World :=
  mkWorld js ts ss [].

(** CONFIG as the README documents it: 3 retries, 1 s, 100 MB. *)
Definition config : Config := mkConfig 3 1000 104857600 "100".

Definition html : AxiosResponse :=
  mkResponse (Some "text/html; charset=utf-8") None [OnEnd].

Definition pdf : AxiosResponse :=
  mkResponse (Some "application/pdf") (Some "8")
    [OnData (Buffer.ofString "%PDF"); OnData (Buffer.ofString "-1.4"); OnEnd].

End Scripted.

(** * Specification vocabulary *)

(** [pat] occurs somewhere in [s]. *)
Definition Substring (pat s : string) : Prop :=
  exists pre post, s = pre ++ pat ++ post.

(** The Workspace kinds the endpoint strategy knows, with the path segment
    and the native format of each; an earlier kind wins. *)
Inductive Workspace : option string -> string -> string -> Prop :=
| ws_document m :
    Substring "document" m -> Workspace (Some m) "document" "docx"
| ws_spreadsheet m :
    ~ Substring "document" m -> Substring "spreadsheet" m ->
    Workspace (Some m) "spreadsheets" "xlsx"
| ws_presentation m :
    ~ Substring "document" m -> ~ Substring "spreadsheet" m ->
    Substring "presentation" m -> Workspace (Some m) "presentation" "pptx".

(** The three Workspace media types the endpoint strategy has export URLs
    for, with the path segment and the native format of each. *)
Inductive WorkspaceType : option string -> string -> string -> Prop :=
| wt_document :
    WorkspaceType (Some "application/vnd.google-apps.document") "document" "docx"
| wt_spreadsheet :
    WorkspaceType (Some "application/vnd.google-apps.spreadsheet") "spreadsheets" "xlsx"
| wt_presentation :
    WorkspaceType (Some "application/vnd.google-apps.presentation") "presentation" "pptx".

(** The media type is absent or holds none of the three words the strategy
    looks for. *)
Definition NotWorkspace (mimeType : option string) : Prop :=
  match mimeType with
  | None => True
  | Some m => ~ Substring "document" m /\ ~ Substring "spreadsheet" m
              /\ ~ Substring "presentation" m
  end.

Definition exportUrl (kind fileId format : string) : string :=
  "https://docs.google.com/" ++ kind ++ "/d/" ++ fileId ++ "/export?format=" ++ format.

(** The user-content endpoint with a qualifier appended. *)
Definition userContentUrl (fileId qualifier : string) : string :=
  "https://drive.usercontent.google.com/download?id=" ++ fileId
  ++ "&export=download" ++ qualifier.

Definition legacyUrls (fileId : string) : list string :=
  [ "https://drive.google.com/uc?export=download&id=" ++ fileId;
    "https://drive.google.com/uc?id=" ++ fileId ++ "&export=download" ].

(** The five endpoints every candidate list ends with, in the order the
    priority policy words them: default, [authuser=0], [confirm=t], then the
    legacy pair. *)
Definition policyTail (fileId : string) : list string :=
  List.app
    [ userContentUrl fileId ""; userContentUrl fileId "&authuser=0";
      userContentUrl fileId "&confirm=t" ]
    (legacyUrls fileId).

(** The same five in the order the code pushes them. *)
Definition pushedTail (fileId : string) : list string :=
  List.app
    [ userContentUrl fileId "&authuser=0"; userContentUrl fileId "&confirm=t";
      userContentUrl fileId "" ]
    (legacyUrls fileId).

(** Every character of [s] is in the class. *)
Fixpoint allChars (cls : ascii -> bool) (s : string) : bool :=
  match s with
  | EmptyString => true
  | String c s' => cls c && allChars cls s'
  end.

(** [/pre(cls+)post/] matches at the head of [s]. *)
Definition MatchesHere (pre : string) (cls : ascii -> bool) (post s : string) : Prop :=
  exists g rest, s = pre ++ g ++ post ++ rest /\ g <> "" /\ allChars cls g = true.

(** [/pre(cls+)post/] matches somewhere in [t]. *)
Definition MatchesIn (pre : string) (cls : ascii -> bool) (post t : string) : Prop :=
  exists before suffix, t = before ++ suffix /\ MatchesHere pre cls post suffix.

(** [g] is the group of the match of [/pre(cls+)post/] in [t]: the match is
    the leftmost one and, there, the group is the longest that lets [post]
    follow. *)
Definition Captures (pre : string) (cls : ascii -> bool) (post t g : string) : Prop :=
  exists before rest,
    t = before ++ pre ++ g ++ post ++ rest
    /\ g <> "" /\ allChars cls g = true
    /\ (forall g' rest',
          g ++ post ++ rest = g' ++ post ++ rest' -> allChars cls g' = true ->
          String.length g' <= String.length g)
    /\ (forall b1 b2, before = b1 ++ b2 -> b2 <> "" ->
          ~ MatchesHere pre cls post (b2 ++ pre ++ g ++ post ++ rest)).

(** A pattern of the identifier extractor. *)
Definition IsIdPattern (p : Regex.Pattern) : Prop :=
  exists pre post, p = idPattern pre post.

(** [fn] fails [length errors] times in a row, starting in world [w] at
    attempt number [attempt]; after the failure of attempt [i] the caller
    sleeps [baseDelay * 2 ^ i]; [w'] is the world before the next attempt. *)
Inductive FailRun {W : Type} {transport : Transport W} {A : Type}
    (fn : Async W A) (baseDelay : Z) : Z -> W -> list Thrown -> W -> Prop :=
| failRun_none attempt w : FailRun fn baseDelay attempt w [] w
| failRun_more attempt w e w1 errors w' :
    fn w = (Throw e, w1) ->
    FailRun fn baseDelay (attempt + 1) (sleep (baseDelay * 2 ^ attempt) w1) errors w' ->
    FailRun fn baseDelay attempt w (e :: errors) w'.

(** Exactly one of [buffer] and [stream] is populated, the one [asBuffer]
    selects. *)
Definition ExactlyOne (asBuffer : bool) (f : IDownloadedFile.t) : Prop :=
  if asBuffer
  then (exists b, IDownloadedFile.buffer f = Some b) /\ IDownloadedFile.stream f = None
  else IDownloadedFile.buffer f = None /\ exists s, IDownloadedFile.stream f = Some s.

(** A success result: flag set, no error text, a file of the selected mode. *)
Definition Succeeded (asBuffer : bool) (r : IDownloadResult.t) : Prop :=
  IDownloadResult.success r = true
  /\ IDownloadResult.error r = None
  /\ exists f, IDownloadResult.file r = Some f /\ ExactlyOne asBuffer f.

(** The prior media type is absent or the generic marker: what
    [!finalMimeType || finalMimeType === 'application/octet-stream'] tests. *)
Definition Unresolved (prior : option Mime) : Prop :=
  prior = None \/ prior = Some (MimeStr "") \/ prior = Some (MimeStr octetStream).

(** The declared content type reports an HTML payload. *)
Definition ReportsHtml (r : AxiosResponse) : Prop :=
  exists ct, contentType r = Some ct /\ Substring "text/html" ct.

(** Every candidate of the list, requested in order from world [w], answers
    with an HTML page; [w'] is the world after the last answer. *)
Inductive AllHtml {W : Type} {transport : Transport W}
  : list string -> W -> W -> Prop :=
| allHtml_nil w : AllHtml [] w w
| allHtml_cons url rest w r w1 w' :
    getStream url w = (Ok r, w1) -> ReportsHtml r -> AllHtml rest w1 w' ->
    AllHtml (url :: rest) w w'.

(** Leading-byte signatures. *)
Definition StartsWith (sig b : Buffer.t) : Prop := exists rest, b = List.app sig rest.

Definition Occurs (pat b : Buffer.t) : Prop :=
  exists pre post, b = List.app pre (List.app pat post).

Definition sigPdf : Buffer.t := Buffer.ofString "%PDF".
Definition sigJpeg : Buffer.t := [xff; xd8; xff].
Definition sigPng : Buffer.t := [x89; x50; x4e; x47].
Definition sigGif : Buffer.t := Buffer.ofString "GIF".
Definition sigRiff : Buffer.t := Buffer.ofString "RIFF".
Definition sigWebp : Buffer.t := Buffer.ofString "WEBP".
Definition sigZip : Buffer.t := Buffer.ofString "PK".

(** RIFF at offset 0 and WEBP at offset 8. *)
Definition IsWebp (b : Buffer.t) : Prop :=
  StartsWith sigRiff b /\ StartsWith sigWebp (skipn 8 b).

(** * The rest of the code *)

Unset Implicit Arguments.

(** ** validators/index.ts: the remaining exports *)

(** [getAvailableFormats]: [!mimeType] holds for [null] and for the empty
    string. *)
Definition getAvailableFormats (mimeType : option string) : list string :=
  match mimeType with
  | None => []
  | Some m =>
      if negb (JsString.truthy m) then []
      else if JsString.includes "document" m
      then ["pdf"; "docx"; "odt"; "rtf"; "txt"; "html"; "epub"]
      else if JsString.includes "spreadsheet" m
      then ["pdf"; "xlsx"; "ods"; "csv"; "tsv"; "html"; "zip"]
      else if JsString.includes "presentation" m
      then ["pdf"; "pptx"; "odp"; "txt"; "jpeg"; "png"; "svg"]
      else if JsString.includes "drawing" m
      then ["pdf"; "svg"; "png"; "jpeg"]
      else ["pdf"]
  end.

Module Sanitize.

(** [[<>:Q/\|?*\x00-\x1f\x80-\x9f]], writing Q for the double quote. *)
Definition isUnsafe (c : ascii) : bool :=
  let n := JsString.charCode c in
  existsb (Nat.eqb n) [60; 62; 58; 34; 47; 92; 124; 63; 42]
  || JsString.between 0 31 n || JsString.between 128 159 n.

(** [[._-]] *)
Definition isSeparator (c : ascii) : bool :=
  let n := JsString.charCode c in
  Nat.eqb n 46 || Nat.eqb n 95 || Nat.eqb n 45.

(** What becomes of a maximal run of class characters under
    [replace(/cls{min,}/g, repl)]: replaced when long enough, kept
    otherwise. *)
Definition flush (min : nat) (repl pending : string) : string :=
  match pending with
  | EmptyString => EmptyString
  | String _ _ => if Nat.leb min (String.length pending) then repl else pending
  end.

(** [s.replace(/cls{min,}/g, repl)] for [min >= 1] and a replacement without
    [$]: a scan that collects the current run of class characters in
    [pending]. *)
Fixpoint replaceRunsFrom (cls : ascii -> bool) (min : nat) (repl pending s : string)
  : string :=
  match s with
  | EmptyString => flush min repl pending
  | String c s' =>
      if cls c
      then replaceRunsFrom cls min repl (pending ++ String c EmptyString) s'
      else flush min repl pending ++ String c (replaceRunsFrom cls min repl EmptyString s')
  end.

Definition replaceRuns (cls : ascii -> bool) (min : nat) (repl s : string) : string :=
  replaceRunsFrom cls min repl EmptyString s.

(** [s.replace(/[cls]/g, '')] *)
Fixpoint removeChars (cls : ascii -> bool) (s : string) : string :=
  match s with
  | EmptyString => EmptyString
  | String c s' => if cls c then removeChars cls s' else String c (removeChars cls s')
  end.

(** Drops the run of class characters the string ends with. *)
Fixpoint dropTrailing (cls : ascii -> bool) (s : string) : string :=
  match s with
  | EmptyString => EmptyString
  | String c s' =>
      match dropTrailing cls s' with
      | EmptyString => if cls c then EmptyString else String c EmptyString
      | t => String c t
      end
  end.

(** [s.replace(/^cls+|cls+$/g, '')]: the first alternative can only match at
    index 0 and takes the whole leading run; after it, only a run that
    reaches the end of the text can match. *)
Definition stripEnds (cls : ascii -> bool) (s : string) : string :=
  dropTrailing cls (Regex.drop (Regex.run cls s) s).

(** [s.substring(0, n)] for an integer [n]; a negative [n] counts as 0. *)
Definition substring0 (n : Z) (s : string) : string := Regex.take (Z.to_nat n) s.

End Sanitize.

(** [sanitizeFileName]; [CONFIG.MAX_FILENAME_LENGTH] is taken as a
    parameter. *)
Definition sanitizeFileName (MAX_FILENAME_LENGTH : Z) (fileName : string) : string :=
  let s := JsString.trim fileName in
  let s := Sanitize.replaceRuns JsString.isWhiteSpace 1 "_" s in
  let s := Sanitize.removeChars Sanitize.isUnsafe s in
  let s := Sanitize.replaceRuns Sanitize.isSeparator 2 "_" s in
  let s := Sanitize.stripEnds Sanitize.isSeparator s in
  let s := Sanitize.substring0 MAX_FILENAME_LENGTH s in
  if JsString.truthy s then s else "arquivo_sem_nome".

(** ** services: metadata without a download *)

Module IFileMetadata.
Record t : Type := mk {
  fileId : string;
  fileName : string;
  mimeType : option Mime;
  size : option JsNumber;
  isGoogleDoc : bool;
  availableFormats : option (list string) }.
End IFileMetadata.

(** The media type as the argument of [getAvailableFormats]; the call is
    only made when [isGoogleDoc] holds, that is on a string. *)
Definition mimeText (m : option Mime) : option string :=
  match m with
  | Some (MimeStr s) => Some s
  | _ => None
  end.

(** [getFileMetadata]: nothing is caught here, so what [extractFileId]
    throws rejects the promise. *)
Definition getFileMetadata {W : Type} {transport : Transport W} (url : UrlArg)
  : Async W IFileMetadata.t :=
  fileId <- lift (extractFileId url) ;;
  fileInfo <- getFileInfo fileId ;;
  let isGoogleDoc := isGoogleDocMime (IFileInfo.mimeType fileInfo) in
  let availableFormats :=
    if isGoogleDoc
    then Some (getAvailableFormats (mimeText (IFileInfo.mimeType fileInfo)))
    else None in
  ret (IFileMetadata.mk fileId (IFileInfo.name fileInfo)
         (IFileInfo.mimeType fileInfo) (IFileInfo.size fileInfo)
         isGoogleDoc availableFormats).

(** ** services: saving a result *)

(** The file-system calls of [saveToFile], over a file system [F]. *)
Class FileSystem (F : Type) : Type := {
  (** [path.dirname(filePath)] *)
  dirname : string -> string;
  (** [fs.existsSync(dir)] *)
  existsSync : string -> F -> bool;
  (** [fs.mkdirSync(dir, { recursive: true })] *)
  mkdirSync : string -> Async F unit;
  (** [fs.writeFileSync(filePath, buffer)] *)
  writeFileSync : string -> Buffer.t -> Async F unit;
  (** [stream.pipe(fs.createWriteStream(filePath))], settled by the
      ['finish'] or the ['error'] event of the write stream *)
  pipeToFile : string -> Readable -> Async F unit }.

(** [if (!fs.existsSync(dir)) fs.mkdirSync(dir, { recursive: true })] *)
Definition ensureDirectory {F : Type} {fs : FileSystem F} (dir : string)
  : Async F unit :=
  fun w => if existsSync dir w then (Ok tt, w) else mkdirSync dir w.

(** [downloadResult.error || 'Download failed'] *)
Definition errorOrDefault (downloadResult : IDownloadResult.t) : string :=
  match IDownloadResult.error downloadResult with
  | Some m => if JsString.truthy m then m else "Download failed"
  | None => "Download failed"
  end.

(** [saveToFile]; a [Buffer] and a stream are objects, hence truthy when
    present. *)
Definition saveToFile {F : Type} {fs : FileSystem F}
    (downloadResult : IDownloadResult.t) (filePath : string) : Async F unit :=
  match (if IDownloadResult.success downloadResult
         then IDownloadResult.file downloadResult else None) with
  | None => throw (ErrorObj (errorOrDefault downloadResult))
  | Some file =>
      bind (ensureDirectory (dirname filePath)) (fun _ =>
        match IDownloadedFile.buffer file with
        | Some buffer => writeFileSync filePath buffer
        | None =>
            match IDownloadedFile.stream file with
            | Some stream => pipeToFile filePath stream
            | None => throw (ErrorObj "File contains neither buffer nor stream")
            end
        end)
  end.

(** ** A file system in memory

    A test double for the file-system calls: the directories that exist and
    the files written, latest first.  Nothing fails on it. *)

Module MemoryFs.

Record Disk : Type := mkDisk {
  directories : list string;
  files : list (string * Buffer.t) }.

(** The text before the last slash, or [.] when there is none. *)
Fixpoint parentFrom (acc pending p : string) (seen : bool) : string :=
  match p with
  | EmptyString => if seen then acc else "."
  | String c p' =>
      if Ascii.eqb c "/"
      then parentFrom (if seen then acc ++ "/" ++ pending else pending) "" p' true
      else parentFrom acc (pending ++ String c "") p' seen
  end.

Definition parent (p : string) : string := parentFrom "" "" p false.

(** The bytes a stream delivers before it ends. *)
Fixpoint delivered (s : Readable) : Buffer.t :=
  match s with
  | OnData chunk :: s' => List.app chunk (delivered s')
  | Idle _ :: s' => delivered s'
  | _ => []
  end.

#[global] Instance fileSystem : FileSystem Disk := {
  dirname := parent;
  existsSync dir disk := existsb (String.eqb dir) (directories disk);
  mkdirSync dir disk := (Ok tt, mkDisk (dir :: directories disk) (files disk));
  writeFileSync path buffer disk :=
    (Ok tt, mkDisk (directories disk) ((path, buffer) :: files disk));
  pipeToFile path stream disk :=
    (Ok tt, mkDisk (directories disk) ((path, delivered stream) :: files disk)) }.

Definition blank : Disk := mkDisk ["."] [].

End MemoryFs.

(** * More vocabulary *)

(** No two characters of the class stand next to each other. *)
Fixpoint noAdjacent (cls : ascii -> bool) (s : string) : bool :=
  match s with
  | String a ((String b _) as t) => negb (cls a && cls b) && noAdjacent cls t
  | _ => true
  end.

(** The first character is of the class. *)
Definition headIs (cls : ascii -> bool) (s : string) : bool :=
  match s with
  | String c _ => cls c
  | EmptyString => false
  end.

(** The last character is of the class. *)
Fixpoint lastIs (cls : ascii -> bool) (s : string) : bool :=
  match s with
  | EmptyString => false
  | String c EmptyString => cls c
  | String _ t => lastIs cls t
  end.

(** Every candidate of the list, requested in order from world [w], is
    passed over: its request is rejected, or its answer reports HTML. *)
Inductive Skipped {W : Type} {transport : Transport W}
  : list string -> W -> W -> Prop :=
| skipped_none w : Skipped [] w w
| skipped_rejected url rest w e w1 w' :
    getStream url w = (Throw e, w1) -> Skipped rest w1 w' ->
    Skipped (url :: rest) w w'
| skipped_html url rest w r w1 w' :
    getStream url w = (Ok r, w1) -> ReportsHtml r -> Skipped rest w1 w' ->
    Skipped (url :: rest) w w'.

(** The events that do not settle a drain: chunks and pauses. *)
Definition flowing (ev : StreamEvent) : bool :=
  match ev with
  | OnData _ | Idle _ => true
  | OnEnd | OnError _ => false
  end.

(** The chunks among the events, in order. *)
Fixpoint chunksOf (events : Readable) : list Buffer.t :=
  match events with
  | [] => []
  | OnData chunk :: events' => chunk :: chunksOf events'
  | _ :: events' => chunksOf events'
  end.

(** The time the events take. *)
Fixpoint idleOf (events : Readable) : N :=
  match events with
  | [] => 0%N
  | Idle ms :: events' => (ms + idleOf events')%N
  | _ :: events' => idleOf events'
  end.

(** A drain that has seen [events] and nothing else has not settled: they
    are chunks and pauses only, they take less than [DRAIN_TIMEOUT], and the
    chunks, if there are any, stay within [MAX_BUFFER_SIZE]. *)
Definition Unsettled (CONFIG : Config) (events : Readable) : Prop :=
  forallb flowing events = true
  /\ (idleOf events < DRAIN_TIMEOUT)%N
  /\ (chunksOf events = []
      \/ (Z.of_nat (length (List.concat (chunksOf events))) <= MAX_BUFFER_SIZE CONFIG)%Z).

(** The call of [download] that takes the world from [w] to [w'] met an
    [Error] with an empty message, on a path that reports it: the identifier
    was extracted, the metadata resolved and the candidates listed; then,
    after candidates that were passed over, either the request of the last
    candidate was rejected with such an [Error], or a candidate answered
    without reporting HTML and, in buffer mode, its body emitted such an
    [Error] as its ['error'] event before the drain had settled. *)
Definition EmptyMessageFrom {W : Type} {transport : Transport W} (CONFIG : Config)
    (url : UrlArg) (options : IDownloadOptions.t) (w w' : W) : Prop :=
  exists fileId fileInfo w0 urls,
    extractFileId url = Ok fileId
    /\ retryWithBackoff (getFileInfo fileId) (maxRetriesOf CONFIG options)
         (DEFAULT_RETRY_DELAY CONFIG) w = (Ok fileInfo, w0)
    /\ callGetDownloadUrls fileId (IFileInfo.mimeType fileInfo) (exportFormatOf options)
       = Ok urls
    /\ ((exists skipped last w1,
           urls = List.app skipped [last]
           /\ Skipped skipped w0 w1
           /\ getStream last w1 = (Throw (ErrorObj ""), w'))
        \/ (exists skipped candidate later w1 response events rest,
              urls = List.app skipped (candidate :: later)
              /\ Skipped skipped w0 w1
              /\ getStream candidate w1 = (Ok response, w')
              /\ ~ ReportsHtml response
              /\ asBufferOf options = true
              /\ data response = List.app events (OnError (ErrorObj "") :: rest)
              /\ Unsettled CONFIG events)).

(** The fields of a materialized answer agree with each other. *)
Definition Consistent (fileId : string) (r : IDownloadResult.t) : Prop :=
  exists f,
    IDownloadResult.file r = Some f
    /\ IDownloadResult.fileId r = Some fileId
    /\ IDownloadResult.fileName r = Some (IDownloadedFile.originalname f)
    /\ IDownloadResult.mimeType r = Some (IDownloadedFile.mimetype f)
    /\ IDownloadResult.size r = IDownloadedFile.size f
    /\ IDownloadedFile.mimetype f <> MimeStr ""
    /\ match IDownloadedFile.buffer f with
       | Some b =>
           IDownloadedFile.size f = Some (length b)
           /\ IDownloadResult.totalBytes r = None
       | None =>
           IDownloadedFile.size f = None
           /\ exists n, IDownloadResult.totalBytes r = Some n
       end.

Set Implicit Arguments.

(** * Properties *)

(** ** Strings *)

Lemma append_empty_r (s : string) : s ++ "" = s.
Proof. induction s as [|c s IH]; simpl; [reflexivity | now rewrite IH]. Qed.

Lemma append_cancel_l (p a b : string) : p ++ a = p ++ b -> a = b.
Proof.
  induction p as [|x p IH]; simpl; intros H; [exact H|].
  injection H as H. now apply IH.
Qed.

Lemma prefix_iff (p s : string) :
  String.prefix p s = true <-> exists r, s = p ++ r.
Proof.
  revert s; induction p as [|x p IH]; intros s.
  - split; [intros _; exists s; reflexivity | intros _; now destruct s].
  - destruct s as [|y s]; simpl.
    + split; [discriminate | intros [r Hr]; discriminate].
    + destruct (Ascii.ascii_dec x y) as [->|Hxy].
      * rewrite IH. split; intros [r Hr]; exists r.
        -- now rewrite Hr.
        -- now injection Hr.
      * split; [discriminate | intros [r Hr]; injection Hr as E _; now elim Hxy].
Qed.

Lemma includes_cons (pat : string) (c : ascii) (s : string) :
  JsString.includes pat (String c s)
  = String.prefix pat (String c s) || JsString.includes pat s.
Proof. reflexivity. Qed.

Lemma includes_iff (pat s : string) :
  JsString.includes pat s = true <-> Substring pat s.
Proof.
  induction s as [|c s IH].
  - change (JsString.includes pat "") with (String.prefix pat "" || false).
    rewrite orb_false_r, prefix_iff. split.
    + intros [r Hr]. exists "", r. exact Hr.
    + intros (pre & post & H). destruct pre; [|discriminate].
      exists post. exact H.
  - rewrite includes_cons, orb_true_iff, IH, prefix_iff. split.
    + intros [[r Hr] | (pre & post & H)].
      * exists "", r. exact Hr.
      * exists (String c pre), post. simpl. now rewrite H.
    + intros (pre & post & H). destruct pre as [|x pre]; simpl in H.
      * left. exists post. exact H.
      * right. injection H as _ H. exists pre, post. exact H.
Qed.

Lemma includes_false_iff (pat s : string) :
  JsString.includes pat s = false <-> ~ Substring pat s.
Proof.
  rewrite <- includes_iff. destruct (JsString.includes pat s); split; intros H;
    try reflexivity; try discriminate; try (intro; discriminate).
  now elim H.
Qed.

(** ** Candidate endpoints *)

Lemma getDownloadUrls_shape (fileId : string) (mimeType : option string)
    (exportFormat : string) :
  exists exports,
    getDownloadUrls fileId mimeType exportFormat = List.app exports (pushedTail fileId)
    /\ length exports <= 2.
Proof.
  unfold getDownloadUrls, pushedTail, legacyUrls, userContentUrl.
  repeat rewrite append_empty_r.
  eexists; split; [reflexivity|].
  destruct (optIncludes "document" mimeType);
    [|destruct (optIncludes "spreadsheet" mimeType);
      [|destruct (optIncludes "presentation" mimeType)]];
    repeat match goal with |- context [if ?b then _ else _] => destruct b end;
    simpl; lia.
Qed.

Lemma workspace_flags (mimeType : option string) (kind native : string) :
  Workspace mimeType kind native ->
  (optIncludes "document" mimeType = true /\ kind = "document" /\ native = "docx")
  \/ (optIncludes "document" mimeType = false
      /\ optIncludes "spreadsheet" mimeType = true
      /\ kind = "spreadsheets" /\ native = "xlsx")
  \/ (optIncludes "document" mimeType = false
      /\ optIncludes "spreadsheet" mimeType = false
      /\ optIncludes "presentation" mimeType = true
      /\ kind = "presentation" /\ native = "pptx").
Proof.
  intros H; inversion H; subst; simpl;
    repeat match goal with
           | H : Substring _ _ |- _ => apply includes_iff in H; rewrite H
           | H : ~ Substring _ _ |- _ => apply includes_false_iff in H; rewrite H
           end; tauto.
Qed.

Lemma notWorkspace_flags (mimeType : option string) :
  NotWorkspace mimeType ->
  optIncludes "document" mimeType = false
  /\ optIncludes "spreadsheet" mimeType = false
  /\ optIncludes "presentation" mimeType = false.
Proof.
  destruct mimeType as [m|]; simpl; [|tauto].
  intros (Hd & Hs & Hp).
  apply includes_false_iff in Hd, Hs, Hp. tauto.
Qed.

Lemma workspaceType_flags (mimeType : option string) (kind native : string) :
  WorkspaceType mimeType kind native -> Workspace mimeType kind native.
Proof.
  intros H; destruct H; constructor;
    try (apply includes_iff; reflexivity);
    apply includes_false_iff; reflexivity.
Qed.

(** C2, as the code has it.  The candidate list is at most two export URLs
    followed by the five fixed endpoints.  There is no export URL for a
    media type that is absent or holds none of the words [document],
    [spreadsheet], [presentation]; for the Workspace document, spreadsheet
    or presentation type the export URLs are the native-format URL (present
    exactly when the requested format is [original] or the native one)
    followed by the pdf URL (present exactly when it is [original] or
    [pdf]).  The fixed endpoints are the user-content endpoint with
    [authuser=0], with [confirm=t] and unqualified, in that order, and then
    the two legacy [/uc] endpoints. *)
Theorem getDownloadUrls_priority (fileId : string) (mimeType : option string)
    (exportFormat : string) :
  exists exports,
    getDownloadUrls fileId mimeType exportFormat = List.app exports (pushedTail fileId)
    /\ length exports <= 2
    /\ (NotWorkspace mimeType -> exports = [])
    /\ (forall kind native, WorkspaceType mimeType kind native ->
          let n := exportUrl kind fileId native in
          let p := exportUrl kind fileId "pdf" in
          (In n exports <-> exportFormat = "original" \/ exportFormat = native)
          /\ (In p exports <-> exportFormat = "original" \/ exportFormat = "pdf")
          /\ (exports = [] \/ exports = [n] \/ exports = [p] \/ exports = [n; p])).
Proof.
  eexists. split; [|split; [|split]].
  - unfold getDownloadUrls, pushedTail, legacyUrls, userContentUrl.
    repeat rewrite append_empty_r. reflexivity.
  - destruct (optIncludes "document" mimeType);
      [|destruct (optIncludes "spreadsheet" mimeType);
        [|destruct (optIncludes "presentation" mimeType)]];
      repeat match goal with |- context [if ?b then _ else _] => destruct b end;
      simpl; lia.
  - intros H. apply notWorkspace_flags in H as (-> & -> & ->). reflexivity.
  - intros kind native H. apply workspaceType_flags in H.
    apply workspace_flags in H
      as [(-> & -> & ->) | [(-> & -> & -> & ->) | (-> & -> & -> & -> & ->)]];
      cbv zeta; unfold exportUrl;
      repeat match goal with
             | |- context [String.eqb ?a ?b] => destruct (String.eqb_spec a b)
             end;
      subst; cbn [orb List.app In];
      repeat split; intros;
      repeat match goal with
             | H : _ \/ _ |- _ => destruct H
             | H : False |- _ => elim H
             | H : ?p ++ _ = ?p ++ _ |- _ => apply append_cancel_l in H
             end;
      try discriminate; try congruence; auto 6.
Qed.

(** C2, refuted as worded, twice.  With the user-content endpoints in the
    order default, [authuser=0], [confirm=t], the five fixed endpoints are
    not what the candidate list of a plain file ends with.  And a media type
    that is no Workspace type gets export URLs all the same when it holds
    one of the words: the Office spreadsheet type, which [googleDocMimeTypes]
    does not list, holds [document] and gets the two document export URLs. *)
Lemma getDownloadUrls_policy_fails :
  (~ exists exports,
       getDownloadUrls "ABC123" None "original"
       = List.app exports (policyTail "ABC123"))
  /\ (let sheet :=
        "application/vnd.openxmlformats-officedocument.spreadsheetml.sheet" in
      isGoogleDocMime (Some (MimeStr sheet)) = false
      /\ getDownloadUrls "ABC123" (Some sheet) "original"
         = exportUrl "document" "ABC123" "docx"
           :: exportUrl "document" "ABC123" "pdf" :: pushedTail "ABC123").
Proof.
  split; [|cbv zeta; split; reflexivity].
  intros [exports H].
  assert (L : length (getDownloadUrls "ABC123" None "original")
              = length (List.app exports (policyTail "ABC123"))) by now rewrite H.
  rewrite length_app in L. simpl in L.
  destruct exports; [|simpl in L; lia].
  vm_compute in H. discriminate H.
Qed.

(** ** Leading bytes *)

Lemma byte_eqb_reflect (x y : byte) : reflect (x = y) (Byte.eqb x y).
Proof.
  destruct (Byte.eqb x y) eqn:E; constructor.
  - now apply Byte.byte_dec_bl.
  - now apply Byte.eqb_false.
Qed.

Lemma buffer_eqb_reflect (a b : Buffer.t) : reflect (a = b) (Buffer.eqb a b).
Proof.
  revert b; induction a as [|x a IH]; intros [|y b]; simpl;
    try (constructor; congruence).
  destruct (byte_eqb_reflect x y) as [->|N]; simpl.
  - destruct (IH b) as [->|N]; constructor; congruence.
  - constructor; congruence.
Qed.

Lemma startsWith_firstn (sig b : Buffer.t) :
  StartsWith sig b <-> firstn (length sig) b = sig.
Proof.
  split.
  - intros [rest ->]. rewrite firstn_app, Nat.sub_diag, firstn_all. simpl.
    apply app_nil_r.
  - intros H. exists (skipn (length sig) b).
    rewrite <- H at 1. symmetry. apply firstn_skipn.
Qed.

Lemma sliceIs_reflect (lit : string) (from : nat) (b : Buffer.t) :
  reflect (StartsWith (Buffer.ofString lit) (skipn from b))
    (Buffer.toStringIs lit
       (Buffer.slice from (from + length (Buffer.ofString lit)) b)).
Proof.
  unfold Buffer.toStringIs, Buffer.slice.
  replace (from + length (Buffer.ofString lit) - from)
    with (length (Buffer.ofString lit)) by lia.
  destruct (buffer_eqb_reflect
              (firstn (length (Buffer.ofString lit)) (skipn from b))
              (Buffer.ofString lit)) as [E|N]; constructor.
  - now apply startsWith_firstn.
  - intros H. now apply startsWith_firstn in H.
Qed.

Lemma at_is_firstn (i n : nat) (v : byte) (b : Buffer.t) :
  i < n -> Buffer.at_is i v (firstn n b) = Buffer.at_is i v b.
Proof.
  intros H. unfold Buffer.at_is.
  revert i b H; induction n as [|n IH]; intros i b H; [lia|].
  destruct b as [|x b]; [now destruct i|].
  destruct i as [|i]; simpl; [reflexivity|].
  apply IH. lia.
Qed.

Lemma contains_iff (pat b : Buffer.t) :
  Buffer.contains pat b = true <-> Occurs pat b.
Proof.
  assert (P : forall p l, Buffer.startsWith p l = true <-> StartsWith p l).
  { induction p as [|x p IH]; intros l.
    - split; [intros _; now exists l | now destruct l].
    - destruct l as [|y l]; simpl.
      + split; [discriminate | intros [r Hr]; discriminate].
      + rewrite andb_true_iff, IH. split.
        * intros [E [r ->]]. apply Byte.byte_dec_bl in E as ->. now exists r.
        * intros [r Hr]. injection Hr as -> ->. split.
          -- now apply Byte.byte_dec_lb.
          -- now exists r. }
  induction b as [|y b IH].
  - change (Buffer.contains pat []) with (Buffer.startsWith pat [] || false).
    rewrite orb_false_r, P. split.
    + intros [r Hr]. now exists [], r.
    + intros (pre & post & H). destruct pre; [|discriminate]. now exists post.
  - change (Buffer.contains pat (y :: b))
      with (Buffer.startsWith pat (y :: b) || Buffer.contains pat b).
    rewrite orb_true_iff, IH, P. split.
    + intros [[r Hr] | (pre & post & H)].
      * now exists [], r.
      * exists (y :: pre), post. simpl. now rewrite H.
    + intros (pre & post & H). destruct pre as [|x pre]; simpl in H.
      * left. now exists post.
      * right. injection H as _ H. now exists pre, post.
Qed.

Lemma contains_reflect (pat b : Buffer.t) :
  reflect (Occurs pat b) (Buffer.contains pat b).
Proof.
  destruct (Buffer.contains pat b) eqn:E; constructor.
  - now apply contains_iff.
  - intros H. apply contains_iff in H. congruence.
Qed.

Lemma jpeg_reflect (b : Buffer.t) :
  reflect (StartsWith sigJpeg b)
    (Buffer.at_is 0 xff b && Buffer.at_is 1 xd8 b && Buffer.at_is 2 xff b).
Proof.
  unfold Buffer.at_is, sigJpeg, StartsWith.
  destruct b as [|x0 [|x1 [|x2 r]]]; simpl;
    try (rewrite ?andb_false_r; constructor; intros [r' H]; discriminate).
  destruct (byte_eqb_reflect x0 xff) as [->|N0]; simpl;
    [|constructor; intros [r' H]; congruence].
  destruct (byte_eqb_reflect x1 xd8) as [->|N1]; simpl;
    [|constructor; intros [r' H]; congruence].
  destruct (byte_eqb_reflect x2 xff) as [->|N2]; simpl;
    constructor; [now exists r | intros [r' H]; congruence].
Qed.

Lemma png_reflect (b : Buffer.t) :
  reflect (StartsWith sigPng b)
    (Buffer.at_is 0 x89 b && Buffer.at_is 1 x50 b && Buffer.at_is 2 x4e b
     && Buffer.at_is 3 x47 b).
Proof.
  unfold Buffer.at_is, sigPng, StartsWith.
  destruct b as [|x0 [|x1 [|x2 [|x3 r]]]]; simpl;
    try (rewrite ?andb_false_r; constructor; intros [r' H]; discriminate).
  destruct (byte_eqb_reflect x0 x89) as [->|N0]; simpl;
    [|constructor; intros [r' H]; congruence].
  destruct (byte_eqb_reflect x1 x50) as [->|N1]; simpl;
    [|constructor; intros [r' H]; congruence].
  destruct (byte_eqb_reflect x2 x4e) as [->|N2]; simpl;
    [|constructor; intros [r' H]; congruence].
  destruct (byte_eqb_reflect x3 x47) as [->|N3]; simpl;
    constructor; [now exists r | intros [r' H]; congruence].
Qed.

Lemma zip_reflect (b : Buffer.t) :
  reflect (StartsWith sigZip b) (Buffer.at_is 0 x50 b && Buffer.at_is 1 x4b b).
Proof.
  unfold Buffer.at_is, sigZip, StartsWith.
  destruct b as [|x0 [|x1 r]]; simpl;
    try (rewrite ?andb_false_r; constructor; intros [r' H]; discriminate).
  destruct (byte_eqb_reflect x0 x50) as [->|N0]; simpl;
    [|constructor; intros [r' H]; simpl in H; congruence].
  destruct (byte_eqb_reflect x1 x4b) as [->|N1]; simpl;
    constructor; [now exists r | intros [r' H]; simpl in H; congruence].
Qed.

(** Two signatures that differ in their first byte exclude each other. *)
Lemma startsWith_head (x y : byte) (p q b : Buffer.t) :
  StartsWith (x :: p) b -> StartsWith (y :: q) b -> x = y.
Proof. intros [r ->] [r' H]. now injection H. Qed.

Lemma pdf_reflect (b : Buffer.t) :
  reflect (StartsWith sigPdf b) (Buffer.toStringIs "%PDF" (Buffer.slice 0 4 b)).
Proof. exact (sliceIs_reflect "%PDF" 0 b). Qed.

Lemma gif_reflect (b : Buffer.t) :
  reflect (StartsWith sigGif b) (Buffer.toStringIs "GIF" (Buffer.slice 0 3 b)).
Proof. exact (sliceIs_reflect "GIF" 0 b). Qed.

Lemma riff_reflect (b : Buffer.t) :
  reflect (StartsWith sigRiff b) (Buffer.toStringIs "RIFF" (Buffer.slice 0 4 b)).
Proof. exact (sliceIs_reflect "RIFF" 0 b). Qed.

Lemma webp_at_8_reflect (b : Buffer.t) :
  reflect (StartsWith sigWebp (skipn 8 b))
    (Buffer.toStringIs "WEBP" (Buffer.slice 8 12 b)).
Proof. exact (sliceIs_reflect "WEBP" 8 b). Qed.

(** C7.  A buffer shorter than four bytes is classified as the generic
    octet stream.  From four bytes on: the signatures of pdf ([%PDF]), jpeg
    (FF D8 FF), png (89 50 4E 47), gif ([GIF]) and webp ([RIFF], and [WEBP] at
    offset 8) give their media types; a [PK] buffer is an Office Open XML
    document, spreadsheet or presentation when its first 100 bytes contain
    [word/], [xl/] or [ppt/] (tried in that order) and a plain zip otherwise;
    a buffer with none of these signatures is the generic octet stream.  The
    function is total, so it yields a media type on every buffer. *)
Theorem detectMimeTypeFromBuffer_signatures (b : Buffer.t) :
  (length b < 4 -> detectMimeTypeFromBuffer b = octetStream)
  /\ (4 <= length b ->
      (StartsWith sigPdf b -> detectMimeTypeFromBuffer b = "application/pdf")
      /\ (StartsWith sigJpeg b -> detectMimeTypeFromBuffer b = "image/jpeg")
      /\ (StartsWith sigPng b -> detectMimeTypeFromBuffer b = "image/png")
      /\ (StartsWith sigGif b -> detectMimeTypeFromBuffer b = "image/gif")
      /\ (IsWebp b -> detectMimeTypeFromBuffer b = "image/webp")
      /\ (StartsWith sigZip b ->
          let head := Buffer.slice 0 100 b in
          let word := Buffer.ofString "word/" in
          let xl := Buffer.ofString "xl/" in
          let ppt := Buffer.ofString "ppt/" in
          (Occurs word head ->
           detectMimeTypeFromBuffer b
           = "application/vnd.openxmlformats-officedocument.wordprocessingml.document")
          /\ (~ Occurs word head -> Occurs xl head ->
              detectMimeTypeFromBuffer b
              = "application/vnd.openxmlformats-officedocument.spreadsheetml.sheet")
          /\ (~ Occurs word head -> ~ Occurs xl head -> Occurs ppt head ->
              detectMimeTypeFromBuffer b
              = "application/vnd.openxmlformats-officedocument.presentationml.presentation")
          /\ (~ Occurs word head -> ~ Occurs xl head -> ~ Occurs ppt head ->
              detectMimeTypeFromBuffer b = "application/zip"))
      /\ (~ StartsWith sigPdf b -> ~ StartsWith sigJpeg b ->
          ~ StartsWith sigPng b -> ~ StartsWith sigGif b -> ~ IsWebp b ->
          ~ StartsWith sigZip b ->
          detectMimeTypeFromBuffer b = octetStream)).
Proof.
  unfold detectMimeTypeFromBuffer, IsWebp, Buffer.toStringIncludes.
  split; [intros L; apply Nat.ltb_lt in L; now rewrite L|].
  intros L. apply Nat.ltb_ge in L. rewrite L. cbv zeta.
  change (Buffer.slice 0 12 b) with (firstn 12 b).
  rewrite !at_is_firstn by lia.
  destruct (pdf_reflect b) as [Pdf|Pdf];
    [|destruct (jpeg_reflect b) as [Jpeg|Jpeg];
      [|destruct (png_reflect b) as [Png|Png];
        [|destruct (gif_reflect b) as [Gif|Gif];
          [|destruct (riff_reflect b) as [Riff|Riff];
            destruct (webp_at_8_reflect b) as [Webp|Webp]; cbn [andb];
            (destruct (zip_reflect b) as [Zip|Zip];
             [destruct (contains_reflect (Buffer.ofString "word/")
                          (Buffer.slice 0 100 b)) as [Word|Word];
              [|destruct (contains_reflect (Buffer.ofString "xl/")
                           (Buffer.slice 0 100 b)) as [Xl|Xl];
                [|destruct (contains_reflect (Buffer.ofString "ppt/")
                             (Buffer.slice 0 100 b)) as [Ppt|Ppt]]]|])]]]];
    repeat split; intros;
    try reflexivity;
    try tauto;
    exfalso;
    repeat match goal with
           | B : StartsWith _ b /\ _ |- _ => destruct B as [B ?]
           end;
    match goal with
    | A : StartsWith _ b, B : StartsWith _ b |- _ =>
        discriminate (startsWith_head A B)
    end.
Qed.

(** ** The matcher *)

Unset Implicit Arguments.

Lemma greedy_eq {A : Type} (f : nat -> option A) (min n : nat) :
  Regex.greedy f min n
  = if Nat.ltb n min then None
    else match f n with
         | Some x => Some x
         | None => match n with
                   | O => None
                   | S n' => Regex.greedy f min n'
                   end
         end.
Proof. destruct n; reflexivity. Qed.

Lemma greedy_some {A : Type} (f : nat -> option A) (min n : nat) (x : A) :
  Regex.greedy f min n = Some x ->
  exists k, min <= k /\ k <= n /\ f k = Some x
            /\ forall j, k < j -> j <= n -> f j = None.
Proof.
  induction n as [|n IH]; rewrite greedy_eq.
  - destruct (Nat.ltb_spec0 0 min) as [L|L]; [discriminate|].
    destruct (f 0) eqn:E; [|discriminate].
    intros [= ->]. exists 0. repeat split; try lia. exact E.
  - destruct (Nat.ltb_spec0 (S n) min) as [L|L]; [discriminate|].
    destruct (f (S n)) eqn:E.
    + intros [= ->]. exists (S n). repeat split; try lia. exact E.
    + intros H. destruct (IH H) as (k & K1 & K2 & K3 & K4).
      exists k. repeat split; try lia; try exact K3.
      intros j J1 J2. destruct (Nat.eq_dec j (S n)) as [->|N]; [exact E|].
      apply K4; lia.
Qed.

Lemma greedy_none {A : Type} (f : nat -> option A) (min n : nat) :
  Regex.greedy f min n = None <->
  forall k, min <= k -> k <= n -> f k = None.
Proof.
  induction n as [|n IH]; rewrite greedy_eq.
  - destruct (Nat.ltb_spec0 0 min) as [L|L].
    + split; [intros _ k; lia | reflexivity].
    + destruct (f 0) eqn:E.
      * split; [discriminate | intros H; rewrite H in E by lia; discriminate].
      * split; [|reflexivity]. intros _ k K1 K2.
        replace k with 0 by lia. exact E.
  - destruct (Nat.ltb_spec0 (S n) min) as [L|L].
    + split; [intros _ k; lia | reflexivity].
    + destruct (f (S n)) eqn:E.
      * split; [discriminate | intros H; rewrite H in E by lia; discriminate].
      * rewrite IH. split; intros H k K1 K2.
        -- destruct (Nat.eq_dec k (S n)) as [->|N]; [exact E | apply H; lia].
        -- apply H; lia.
Qed.

Lemma take_drop (k : nat) (s : string) : Regex.take k s ++ Regex.drop k s = s.
Proof.
  revert s; induction k as [|k IH]; intros [|c s]; simpl; try reflexivity.
  now rewrite IH.
Qed.

Lemma drop_append (a b : string) : Regex.drop (String.length a) (a ++ b) = b.
Proof. induction a as [|c a IH]; simpl; [now destruct b | exact IH]. Qed.

Lemma take_within_run (cls : ascii -> bool) (k : nat) (s : string) :
  k <= Regex.run cls s ->
  allChars cls (Regex.take k s) = true /\ String.length (Regex.take k s) = k.
Proof.
  revert s; induction k as [|k IH]; intros s H.
  - now destruct s.
  - destruct s as [|c s]; simpl in H; [lia|].
    destruct (cls c) eqn:E; [|lia].
    destruct (IH s) as [A L]; [lia|].
    simpl. now rewrite E, A, L.
Qed.

Lemma run_of_class_prefix (cls : ascii -> bool) (g rest : string) :
  allChars cls g = true -> String.length g <= Regex.run cls (g ++ rest).
Proof.
  induction g as [|c g IH]; simpl; [lia|].
  intros H. apply andb_true_iff in H as [-> H]. apply IH in H. lia.
Qed.

Lemma litMatch_exact (l s r : string) :
  Regex.litMatch false l s = Some r <-> s = l ++ r.
Proof.
  revert s; induction l as [|a l IH]; intros s; simpl.
  - split; [now intros [= ->] | now intros ->].
  - destruct s as [|b s]; [split; discriminate|].
    unfold Regex.charEq. destruct (Ascii.eqb_spec a b) as [->|N].
    + rewrite IH. split; [now intros -> | now intros [= ->]].
    + split; [discriminate | intros [= E _]; now elim N].
Qed.

(** What a successful search returns is a match at the end of [before], and
    no suffix starting earlier matches. *)
Lemma search_some (p : Regex.Pattern) (s : string) (f : Regex.Found) :
  Regex.search p s = Some f ->
  exists suffix,
    s = Regex.before f ++ suffix
    /\ Regex.matchHere (Regex.ignoreCase p) (Regex.items p) suffix
       = Some (Regex.group1 f, Regex.after f)
    /\ forall b1 b2, Regex.before f = b1 ++ b2 -> b2 <> "" ->
         Regex.matchHere (Regex.ignoreCase p) (Regex.items p) (b2 ++ suffix) = None.
Proof.
  revert f; induction s as [|a s IH]; intros f; simpl.
  - destruct (Regex.matchHere _ _ "") as [[c rest]|] eqn:E; [|discriminate].
    intros [= <-]. exists "". simpl. repeat split; [exact E|].
    intros b1 b2 H. destruct b1; destruct b2; try discriminate. congruence.
  - destruct (Regex.matchHere _ _ (String a s)) as [[c rest]|] eqn:E.
    + intros [= <-]. exists (String a s). simpl. repeat split; [exact E|].
      intros b1 b2 H. destruct b1; destruct b2; try discriminate. congruence.
    + destruct (Regex.search p s) as [f'|] eqn:S; [|discriminate].
      intros [= <-]. destruct (IH f' eq_refl) as (suffix & -> & M & Lm).
      exists suffix. simpl. repeat split; [exact M|].
      intros b1 b2 H Hb2. destruct b1 as [|x b1]; simpl in H.
      * rewrite <- H. exact E.
      * injection H as _ H. now apply (Lm b1 b2).
Qed.

Lemma search_none (p : Regex.Pattern) (s : string) :
  Regex.search p s = None <->
  forall pre suffix, s = pre ++ suffix ->
    Regex.matchHere (Regex.ignoreCase p) (Regex.items p) suffix = None.
Proof.
  induction s as [|a s IH]; simpl.
  - destruct (Regex.matchHere _ _ "") as [[c rest]|] eqn:E.
    + split; [discriminate|]. intros H. now rewrite (H "" "") in E.
    + split; [|reflexivity]. intros _ pre suffix H.
      destruct pre; destruct suffix; try discriminate. exact E.
  - destruct (Regex.matchHere _ _ (String a s)) as [[c rest]|] eqn:E.
    + split; [discriminate|]. intros H. now rewrite (H "" (String a s)) in E.
    + destruct (Regex.search p s) as [f'|] eqn:S.
      * split; [discriminate|]. intros H.
        assert (N : Some f' = None); [|discriminate N].
        apply IH. intros pre suffix ->. apply (H (String a pre) suffix). reflexivity.
      * split; [|reflexivity]. intros _ pre suffix H.
        destruct pre as [|x pre]; simpl in H.
        -- now rewrite <- H.
        -- injection H as _ H. now apply (proj1 IH eq_refl pre suffix).
Qed.

Lemma matchHere_capture_some (pre : string) (cls : ascii -> bool) (post s : string)
    (c : option string) (rest : string) :
  Regex.matchHere false [Regex.Lit pre; Regex.Cap cls 1; Regex.Lit post] s
  = Some (c, rest) ->
  exists g,
    c = Some g /\ s = pre ++ g ++ post ++ rest
    /\ g <> "" /\ allChars cls g = true
    /\ (forall g' rest',
          g ++ post ++ rest = g' ++ post ++ rest' -> allChars cls g' = true ->
          String.length g' <= String.length g).
Proof.
  simpl. destruct (Regex.litMatch false pre s) as [s1|] eqn:P; [|discriminate].
  apply litMatch_exact in P as ->.
  intros H. apply greedy_some in H as (k & K1 & K2 & K3 & K4).
  destruct (Regex.litMatch false post (Regex.drop k s1)) as [r|] eqn:Q;
    [|discriminate].
  injection K3 as <- ->. apply litMatch_exact in Q.
  destruct (take_within_run cls k s1 K2) as [A L].
  exists (Regex.take k s1). repeat split.
  - now rewrite <- Q, take_drop.
  - intros E. rewrite E in L. simpl in L. lia.
  - exact A.
  - intros g' rest' E A'. rewrite <- Q, take_drop in E.
    rewrite L. destruct (Nat.le_gt_cases (String.length g') k) as [?|G]; [assumption|].
    exfalso.
    assert (R : String.length g' <= Regex.run cls s1)
      by (rewrite E; now apply run_of_class_prefix).
    specialize (K4 _ G R). rewrite E, drop_append in K4.
    destruct (Regex.litMatch false post (post ++ rest')) eqn:Q';
      [discriminate|].
    assert (X : Regex.litMatch false post (post ++ rest') = Some rest')
      by now apply litMatch_exact.
    congruence.
Qed.

Lemma matchHere_capture_none (pre : string) (cls : ascii -> bool) (post s : string) :
  Regex.matchHere false [Regex.Lit pre; Regex.Cap cls 1; Regex.Lit post] s = None
  <-> ~ MatchesHere pre cls post s.
Proof.
  split.
  - intros H (g & rest & -> & G & A). simpl in H.
    assert (P : Regex.litMatch false pre (pre ++ g ++ post ++ rest)
                = Some (g ++ post ++ rest)) by now apply litMatch_exact.
    rewrite P in H.
    assert (Q : Regex.litMatch false post (post ++ rest) = Some rest)
      by now apply litMatch_exact.
    assert (K := proj1 (greedy_none _ _ _) H (String.length g)).
    cbv beta in K. rewrite drop_append, Q in K.
    assert (X : Some (Some (Regex.take (String.length g) (g ++ post ++ rest)), rest)
                = None); [|discriminate X].
    apply K.
    + destruct g; [now elim G | simpl; lia].
    + now apply run_of_class_prefix.
  - intros N.
    destruct (Regex.matchHere false _ s) as [[c rest]|] eqn:E; [|reflexivity].
    apply matchHere_capture_some in E as (g & _ & -> & G & A & _).
    elim N. now exists g, rest.
Qed.

(** The group of the first match of [/pre(cls+)post/]. *)
Lemma match1_captures (pre : string) (cls : ascii -> bool) (post t g : string) :
  Regex.match1
    (Regex.mkPattern [Regex.Lit pre; Regex.Cap cls 1; Regex.Lit post] false) t
  = Some g ->
  Captures pre cls post t g.
Proof.
  unfold Regex.match1.
  destruct (Regex.search _ t) as [f|] eqn:S; [|discriminate].
  intros G. apply search_some in S as (suffix & -> & M & Lm). simpl in M, Lm.
  pose proof M as M'.
  apply matchHere_capture_some in M' as (g0 & C & -> & Ne & A & Mx).
  assert (g0 = g) as -> by congruence.
  exists (Regex.before f), (Regex.after f). repeat split; try assumption.
  intros b1 b2 E Nb. apply matchHere_capture_none. now apply (Lm b1 b2).
Qed.

Lemma match1_none (pre : string) (cls : ascii -> bool) (post t : string) :
  Regex.match1
    (Regex.mkPattern [Regex.Lit pre; Regex.Cap cls 1; Regex.Lit post] false) t
  = None
  <-> ~ MatchesIn pre cls post t.
Proof.
  unfold Regex.match1.
  destruct (Regex.search _ t) as [f|] eqn:S.
  - apply search_some in S as (suffix & -> & M & _). simpl in M.
    pose proof M as M'.
    apply matchHere_capture_some in M' as (g0 & C & E & Ne & A & _).
    rewrite C. split; [discriminate|]. intros N. elim N.
    exists (Regex.before f), suffix. split; [reflexivity|].
    now exists g0, (Regex.after f).
  - split; [|reflexivity]. intros _ (before & suffix & -> & H).
    assert (N := proj1 (search_none _ _) S before suffix eq_refl).
    simpl in N. now apply matchHere_capture_none in N.
Qed.

Lemma append_prefix_cases (a b a' b' : string) :
  a ++ b = a' ++ b' ->
  (exists d, a = a' ++ d /\ b' = d ++ b) \/ (exists d, a' = a ++ d /\ b = d ++ b').
Proof.
  revert a'; induction a as [|x a IH]; intros a' H; simpl in H.
  - right. now exists a'.
  - destruct a' as [|y a']; simpl in H.
    + left. now exists (String x a).
    + injection H as -> H. destruct (IH a' H) as [(d & -> & E)|(d & -> & E)].
      * left. now exists d.
      * right. now exists d.
Qed.

Lemma same_length_prefix (a b a' b' : string) :
  a ++ b = a' ++ b' -> String.length a = String.length a' -> a = a'.
Proof.
  revert a'; induction a as [|x a IH]; intros [|y a'] H L;
    try discriminate L; [reflexivity|].
  simpl in H, L. injection H as -> H. injection L as L.
  now rewrite (IH a' H L).
Qed.

(** [Captures] describes at most one group. *)
Lemma captures_unique (pre : string) (cls : ascii -> bool) (post t g g' : string) :
  Captures pre cls post t g -> Captures pre cls post t g' -> g = g'.
Proof.
  intros (b & r & E & Ne & A & Mx & Lm) (b' & r' & E' & Ne' & A' & Mx' & Lm').
  assert (B : b = b').
  { rewrite E in E'.
    destruct (append_prefix_cases _ _ _ _ E') as [(d & -> & X)|(d & -> & X)].
    - destruct d as [|c d]; [now rewrite append_empty_r|].
      exfalso. apply (Lm b' (String c d) eq_refl); [discriminate|].
      rewrite <- X. now exists g', r'.
    - destruct d as [|c d]; [now rewrite append_empty_r|].
      exfalso. apply (Lm' b (String c d) eq_refl); [discriminate|].
      rewrite <- X. now exists g, r. }
  subst b'. rewrite E in E'.
  apply append_cancel_l in E'. apply append_cancel_l in E'.
  apply (same_length_prefix _ _ _ _ E').
  apply Nat.le_antisymm.
  - apply (Mx' g r); [now symmetry | exact A].
  - apply (Mx g' r'); [exact E' | exact A'].
Qed.

(** The matcher computes exactly the group [Captures] describes. *)
Lemma match1_iff_captures (pre : string) (cls : ascii -> bool) (post t g : string) :
  Regex.match1
    (Regex.mkPattern [Regex.Lit pre; Regex.Cap cls 1; Regex.Lit post] false) t
  = Some g
  <-> Captures pre cls post t g.
Proof.
  split; [apply match1_captures|]. intros C.
  destruct (Regex.match1 _ t) as [g0|] eqn:M.
  - apply match1_captures in M. now rewrite (captures_unique _ _ _ _ _ _ M C).
  - apply match1_none in M. elim M.
    destruct C as (b & r & -> & Ne & A & _).
    exists b, (pre ++ g ++ post ++ r). split; [reflexivity|]. now exists g, r.
Qed.

(** ** The identifier extractor *)

Lemma truthy_iff (s : string) : JsString.truthy s = true <-> s <> "".
Proof. destruct s; simpl; split; congruence. Qed.

Lemma idPattern_group_nonempty (p : Regex.Pattern) (t g : string) :
  IsIdPattern p -> Regex.match1 p t = Some g -> JsString.truthy g = true.
Proof.
  intros (pre & post & ->) H. apply match1_captures in H.
  destruct H as (_ & _ & _ & Ne & _). now apply truthy_iff.
Qed.

Lemma firstMatch_none (ps : list Regex.Pattern) (t : string) :
  Forall IsIdPattern ps ->
  (firstMatch ps t = None <-> forall p, In p ps -> Regex.match1 p t = None).
Proof.
  induction 1 as [|p ps Hp Hps IH]; simpl.
  - split; [intros _ p [] | reflexivity].
  - destruct (Regex.match1 p t) as [g|] eqn:E.
    + rewrite (idPattern_group_nonempty p t g Hp E).
      split; [discriminate|]. intros H.
      specialize (H p (or_introl eq_refl)). congruence.
    + rewrite IH. split.
      * intros H q [<-|Hq]; [exact E | now apply H].
      * intros H q Hq. apply H. now right.
Qed.

Lemma firstMatch_some (ps : list Regex.Pattern) (t id : string) :
  Forall IsIdPattern ps ->
  (firstMatch ps t = Some id <->
   exists earlier p later,
     ps = List.app earlier (p :: later)
     /\ (forall q, In q earlier -> Regex.match1 q t = None)
     /\ Regex.match1 p t = Some id).
Proof.
  induction 1 as [|p ps Hp Hps IH]; simpl.
  - split; [discriminate|]. intros (earlier & p & later & E & _).
    now destruct earlier.
  - destruct (Regex.match1 p t) as [g|] eqn:E.
    + rewrite (idPattern_group_nonempty p t g Hp E). split.
      * intros [= ->]. exists [], p, ps. repeat split; [intros q []| exact E].
      * intros (earlier & p' & later & S & N & M).
        destruct earlier as [|q earlier]; simpl in S.
        -- injection S as <- _. congruence.
        -- injection S as <- _. specialize (N p (or_introl eq_refl)). congruence.
    + rewrite IH. split.
      * intros (earlier & p' & later & -> & N & M).
        exists (p :: earlier), p', later. repeat split; [|exact M].
        intros q [<-|Hq]; [exact E | now apply N].
      * intros (earlier & p' & later & S & N & M).
        destruct earlier as [|q earlier]; simpl in S.
        -- injection S as <- _. congruence.
        -- injection S as _ S. exists earlier, p', later.
           repeat split; [exact S| |exact M].
           intros q' Hq'. apply N. now right.
Qed.

Lemma fileIdPatterns_are_idPatterns : Forall IsIdPattern fileIdPatterns.
Proof. unfold fileIdPatterns. repeat constructor; eexists; eexists; reflexivity. Qed.

(** The loop over the patterns, without reference to the matcher. *)
Lemma firstMatch_first_capture (ps : list Regex.Pattern) (t id : string) :
  Forall IsIdPattern ps ->
  (firstMatch ps t = Some id <->
   exists earlier pre post later,
     ps = List.app earlier (idPattern pre post :: later)
     /\ (forall pre' post', In (idPattern pre' post') earlier ->
                            ~ MatchesIn pre' idChar post' t)
     /\ Captures pre idChar post t id).
Proof.
  intros F. rewrite (firstMatch_some ps t id F). split.
  - intros (earlier & p & later & E & N & M).
    assert (Hp : In p ps) by (rewrite E; apply in_or_app; right; now left).
    pose proof (proj1 (Forall_forall _ _) F p Hp) as (pre & post & ->).
    exists earlier, pre, post, later. repeat split; [exact E| |].
    + intros pre' post' I. apply match1_none. now apply N.
    + now apply match1_iff_captures.
  - intros (earlier & pre & post & later & E & N & C).
    exists earlier, (idPattern pre post), later. repeat split; [exact E| |].
    + intros q I.
      assert (Hq : In q ps) by (rewrite E; apply in_or_app; now left).
      pose proof (proj1 (Forall_forall _ _) F q Hq) as (pre' & post' & ->).
      apply match1_none. now apply N.
    + now apply match1_iff_captures.
Qed.

(** C5.  The extractor throws the invalid-input error exactly when its
    argument is not a string or is the empty string.  On a non-empty string
    it throws the not-found error exactly when none of the listed patterns
    matches anywhere in the trimmed URL, and it returns [id] exactly when
    [id] is the group captured by the leftmost match of some listed pattern
    while no pattern listed before that one matches anywhere.  The patterns
    are listed in the order [/file/d/], [id=], [/d/../view], [/d/../edit],
    [/document/d/], [/spreadsheets/d/], [/presentation/d/], [/forms/d/],
    [/drawings/d/]. *)
Theorem extractFileId_contract (url : UrlArg) :
  (extractFileId url = Throw invalidUrl <->
   url = UrlNotString \/ url = UrlString "")
  /\ (forall s, url = UrlString s ->
      let cleanUrl := JsString.trim s in
      (extractFileId url = Throw fileIdNotFound <->
       s <> "" /\ forall pre post, In (idPattern pre post) fileIdPatterns ->
                  ~ MatchesIn pre idChar post cleanUrl)
      /\ (forall id,
            extractFileId url = Ok id <->
            s <> "" /\ exists earlier pre post later,
              fileIdPatterns = List.app earlier (idPattern pre post :: later)
              /\ (forall pre' post', In (idPattern pre' post') earlier ->
                                     ~ MatchesIn pre' idChar post' cleanUrl)
              /\ Captures pre idChar post cleanUrl id))
  /\ fileIdPatterns
     = [ idPattern "/file/d/" ""; idPattern "id=" "";
         idPattern "/d/" "/view"; idPattern "/d/" "/edit";
         idPattern "/document/d/" ""; idPattern "/spreadsheets/d/" "";
         idPattern "/presentation/d/" ""; idPattern "/forms/d/" "";
         idPattern "/drawings/d/" "" ].
Proof.
  pose proof fileIdPatterns_are_idPatterns as F.
  split; [|split; [|reflexivity]].
  - destruct url as [s|]; unfold extractFileId.
    + destruct s as [|c s]; cbn [JsString.truthy negb].
      * split; [now right | reflexivity].
      * destruct (firstMatch fileIdPatterns (JsString.trim (String c s)));
          (split; [discriminate | intros [H|H]; discriminate H]).
    + split; [now left | reflexivity].
  - intros s -> cleanUrl. subst cleanUrl. unfold extractFileId.
    destruct (JsString.truthy s) eqn:T; cbn [negb].
    + apply truthy_iff in T.
      destruct (firstMatch fileIdPatterns (JsString.trim s)) as [g|] eqn:M.
      * split.
        -- split; [discriminate|]. intros [_ N].
           assert (X : firstMatch fileIdPatterns (JsString.trim s) = None);
             [|congruence].
           apply (firstMatch_none _ _ F). intros p Hp.
           pose proof (proj1 (Forall_forall _ _) F p Hp) as (pre & post & ->).
           apply match1_none. now apply N.
        -- intros id. split.
           ++ intros [= <-]. split; [exact T|].
              now apply (firstMatch_first_capture _ _ _ F).
           ++ intros [_ S']. apply (firstMatch_first_capture _ _ _ F) in S'.
              congruence.
      * pose proof (proj1 (firstMatch_none _ _ F) M) as N.
        split.
        -- split; [|reflexivity]. intros _. split; [exact T|].
           intros pre post Hp. apply match1_none. now apply N.
        -- intros id. split; [discriminate|].
           intros [_ S']. apply (firstMatch_first_capture _ _ _ F) in S'.
           congruence.
    + assert (s = "") as -> by (destruct s; [reflexivity | discriminate]).
      split.
      * split; [discriminate | now intros [N _]].
      * intros id. split; [discriminate | now intros [N _]].
Qed.

(** ** Retry with backoff *)

Section Retry.
Context {W : Type} {transport : Transport W} {A : Type}.
Variables (fn : Async W A) (maxRetries baseDelay : Z).

Lemma retryLoop_succeeds (errors : list Thrown) (attempt : Z) (w wk : W) :
  FailRun fn baseDelay attempt w errors wk ->
  forall (fuel : nat) (lastError : Thrown) (v : A) (w' : W),
    (attempt + Z.of_nat (length errors) <= maxRetries)%Z ->
    length errors < fuel ->
    fn wk = (Ok v, w') ->
    retryLoop fn maxRetries baseDelay fuel attempt lastError w = (Ok v, w').
Proof.
  induction 1 as [attempt w | attempt w e w1 errors w' F R IH];
    intros fuel lastError v w2 B L S; destruct fuel as [|fuel]; try (simpl in L; lia);
    simpl; unfold tryCatch.
  - now rewrite S.
  - rewrite F. simpl in B, L.
    destruct (Z.eqb_spec attempt maxRetries) as [E|_]; [lia|].
    apply IH; [lia | lia | exact S].
Qed.

Lemma retryLoop_gives_up (errors : list Thrown) (attempt : Z) (w wk : W) :
  FailRun fn baseDelay attempt w errors wk ->
  forall (fuel : nat) (lastError e : Thrown) (w' : W),
    (attempt + Z.of_nat (length errors) = maxRetries)%Z ->
    length errors < fuel ->
    fn wk = (Throw e, w') ->
    retryLoop fn maxRetries baseDelay fuel attempt lastError w
    = (Throw (asError e), w').
Proof.
  induction 1 as [attempt w | attempt w e0 w1 errors w' F R IH];
    intros fuel lastError e w2 B L S; destruct fuel as [|fuel]; try (simpl in L; lia);
    simpl; unfold tryCatch.
  - rewrite S. simpl in B.
    destruct (Z.eqb_spec attempt maxRetries) as [_|N]; [reflexivity | lia].
  - rewrite F. simpl in B, L.
    destruct (Z.eqb_spec attempt maxRetries) as [E|_]; [lia|].
    apply IH; [lia | lia | exact S].
Qed.

End Retry.

(** C4, as the code has it.  Let the wrapped function fail [k] times in a
    row, the caller sleeping [baseDelay * 2 ^ i] after failed attempt [i]
    (counted from 0).  When [k <= maxRetries] and attempt [k] succeeds, the
    call returns that value, having made exactly those [k + 1] attempts and
    [k] sleeps.  When [k = maxRetries] and attempt [k] fails too, the call
    rejects, without sleeping again, with the error of that last attempt if
    it is an [Error] and with [Error('Unknown error')] if it is any other
    value. *)
Theorem retryWithBackoff_backoff {W : Type} {transport : Transport W} {A : Type}
    (fn : Async W A) (maxRetries baseDelay : Z) (w wk : W) (errors : list Thrown) :
  FailRun fn baseDelay 0 w errors wk ->
  (forall v w',
      (Z.of_nat (length errors) <= maxRetries)%Z ->
      fn wk = (Ok v, w') ->
      retryWithBackoff fn maxRetries baseDelay w = (Ok v, w'))
  /\ (forall e w',
      Z.of_nat (length errors) = maxRetries ->
      fn wk = (Throw e, w') ->
      retryWithBackoff fn maxRetries baseDelay w = (Throw (asError e), w')).
Proof.
  intros R. split.
  - intros v w' B S. unfold retryWithBackoff.
    apply (retryLoop_succeeds fn maxRetries baseDelay errors 0 w wk R); [lia | lia | exact S].
  - intros e w' B S. unfold retryWithBackoff.
    apply (retryLoop_gives_up fn maxRetries baseDelay errors 0 w wk R); [lia | lia | exact S].
Qed.

(** C4, refuted as worded: a function that rejects once with a value that is
    not an [Error] and would succeed on the next call, retried with
    [maxRetries = 0], does not make the call reject with the value observed
    on the final attempt. *)
Lemma retryWithBackoff_rethrow_fails :
  let fn := getText "https://drive.google.com/x" in
  let w := Scripted.start [] [Throw (NotAnError "boom"); Ok "late"] [] in
  exists w1 w2,
    fn w = (Throw (NotAnError "boom"), w1)
    /\ fn w1 = (Ok "late", w2)
    /\ fst (retryWithBackoff fn 0 1000 w) <> Throw (NotAnError "boom").
Proof.
  cbv zeta. eexists; eexists. split; [reflexivity|]. split; [reflexivity|].
  vm_compute. discriminate.
Qed.

(** An instance: two network errors, then an answer, with three retries
    allowed and a base delay of one second. *)
Lemma retryWithBackoff_backoff_witness :
  let fn := getText "https://drive.google.com/x" in
  let w := Scripted.start [] [Scripted.networkError; Scripted.networkError; Ok "page"] [] in
  exists w2 w3,
    FailRun fn 1000 0 w [ErrorObj "Network Error"; ErrorObj "Network Error"] w2
    /\ retryWithBackoff fn 3 1000 w = (Ok "page", w3)
    /\ Scripted.journal w3
       = [ Scripted.Requested "https://drive.google.com/x"; Scripted.Slept 1000;
           Scripted.Requested "https://drive.google.com/x"; Scripted.Slept 2000;
           Scripted.Requested "https://drive.google.com/x" ].
Proof.
  cbv zeta. eexists; eexists.
  assert (R : FailRun (getText "https://drive.google.com/x") 1000 0
                (Scripted.start [] [Scripted.networkError; Scripted.networkError; Ok "page"] [])
                [ErrorObj "Network Error"; ErrorObj "Network Error"]
                (sleep 2000 (snd (getText "https://drive.google.com/x"
                   (sleep 1000 (snd (getText "https://drive.google.com/x"
                      (Scripted.start [] [Scripted.networkError; Scripted.networkError; Ok "page"] [])))))))).
  { eapply failRun_more; [reflexivity|].
    eapply failRun_more; [reflexivity|].
    apply failRun_none. }
  split; [exact R|]. split.
  - apply (proj1 (retryWithBackoff_backoff _ 3 1000 _ _ _ R)); [simpl; lia | reflexivity].
  - reflexivity.
Defined.

(** ** Materialization *)

Lemma detectMimeTypeFromBuffer_nonempty (b : Buffer.t) :
  JsString.truthy (detectMimeTypeFromBuffer b) = true.
Proof.
  unfold detectMimeTypeFromBuffer.
  repeat match goal with
         | |- context [if ?c then _ else _] => destruct c
         end; reflexivity.
Qed.

Lemma detectMimeTypeFromExtension_truthy (fileName : string) (v : Mime) :
  detectMimeTypeFromExtension fileName = Some v -> mimeTruthy (Some v) = true.
Proof.
  unfold detectMimeTypeFromExtension.
  destruct (JsString.pop _) as [e|]; [|discriminate].
  destruct (JsString.truthy _); [|discriminate].
  destruct (mimeTruthy (mimeTypeMapGet _)) eqn:T; [|discriminate].
  intros E. now rewrite E in T.
Qed.

Lemma unresolved_iff (prior : option Mime) :
  negb (mimeTruthy prior) || mimeIs octetStream prior = true <-> Unresolved prior.
Proof.
  unfold Unresolved.
  destruct prior as [[s|m]|]; cbn [mimeTruthy mimeIs].
  - destruct s as [|c s]; cbn [JsString.truthy negb orb].
    + split; auto.
    + destruct (String.eqb_spec (String c s) octetStream) as [E|N].
      * rewrite E. split; auto.
      * split; [discriminate|].
        intros [H|[H|H]]; try discriminate. elim N. congruence.
  - cbn [negb orb]. split; [discriminate | intros [H|[H|H]]; discriminate].
  - cbn [negb orb]. split; auto.
Qed.

(** C9.  In buffer mode, once the body has been drained into [buffer], the
    result is a success whose media type (the same in the result and in its
    file) is: the content-based classification of [buffer] when that is not
    the generic marker; otherwise the prior value (the one left by the
    export-format adjustment) when it is present and not the generic marker;
    otherwise the extension-based classification of the final file name
    when it yields a value; otherwise [application/octet-stream]. *)
Theorem buffer_mode_media_type (CONFIG : Config) (response : AxiosResponse)
    (fileInfo : IFileInfo.t) (fileId exportFormat : string) (buffer : Buffer.t) :
  streamToBuffer CONFIG (data response) = Ok buffer ->
  let finalFileName := fst (adjustNameAndType fileInfo exportFormat) in
  let prior := snd (adjustNameAndType fileInfo exportFormat) in
  let detected := detectMimeTypeFromBuffer buffer in
  let byExtension := detectMimeTypeFromExtension finalFileName in
  exists result file,
    processDownloadResponse CONFIG response fileInfo fileId true exportFormat
    = Ok result
    /\ IDownloadResult.file result = Some file
    /\ IDownloadResult.mimeType result = Some (IDownloadedFile.mimetype file)
    /\ (detected <> octetStream ->
        IDownloadedFile.mimetype file = MimeStr detected)
    /\ (detected = octetStream ->
        (forall v, prior = Some v -> ~ Unresolved prior ->
                   IDownloadedFile.mimetype file = v)
        /\ (Unresolved prior ->
            (forall v, byExtension = Some v -> IDownloadedFile.mimetype file = v)
            /\ (byExtension = None ->
                IDownloadedFile.mimetype file = MimeStr octetStream))).
Proof.
  intros D. cbv zeta. unfold processDownloadResponse.
  destruct (adjustNameAndType fileInfo exportFormat) as [finalFileName prior].
  rewrite D. cbn [fst snd]. eexists; eexists.
  split; [reflexivity|]. cbn [IDownloadResult.file IDownloadResult.mimeType
                              IDownloadedFile.mimetype].
  split; [reflexivity|]. split; [reflexivity|].
  pose proof (detectMimeTypeFromBuffer_nonempty buffer) as Ne.
  destruct (String.eqb_spec (detectMimeTypeFromBuffer buffer) octetStream)
    as [E|N]; cbn [negb].
  - split; [intros X; now elim X|]. intros _.
    destruct (negb (mimeTruthy prior) || mimeIs octetStream prior) eqn:U.
    + apply unresolved_iff in U. split; [intros v _ X; now elim X|]. intros _.
      destruct (detectMimeTypeFromExtension finalFileName) as [v|] eqn:X.
      * pose proof (detectMimeTypeFromExtension_truthy _ _ X) as T.
        rewrite T. split; [|discriminate]. intros v' [= <-].
        unfold mimeOrOctet. now rewrite T.
      * cbn [mimeTruthy]. split; [discriminate|]. intros _.
        destruct U as [->|[->| ->]]; reflexivity.
    + assert (NU : ~ Unresolved prior)
        by (intros X; apply unresolved_iff in X; congruence).
      split; [|intros X; now elim NU]. intros v -> _.
      apply orb_false_iff in U as [U _]. apply negb_false_iff in U.
      unfold mimeOrOctet. now rewrite U.
  - split; [|intros X; now elim N]. intros _.
    cbn [mimeTruthy mimeIs].
    rewrite Ne. cbn [negb orb].
    destruct (String.eqb_spec (detectMimeTypeFromBuffer buffer) octetStream)
      as [E|_]; [now elim N|].
    unfold mimeOrOctet. cbn [mimeTruthy]. now rewrite Ne.
Qed.

(** An instance: a text body whose name carries the media type. *)
Lemma buffer_mode_media_type_witness :
  let response := mkResponse None None [OnData (Buffer.ofString "hello world"); OnEnd] in
  let fileInfo := IFileInfo.mk "notes.txt" None None in
  streamToBuffer Scripted.config (data response) = Ok (Buffer.ofString "hello world")
  /\ exists result file,
       processDownloadResponse Scripted.config response fileInfo "ABC123" true "original"
       = Ok result
       /\ IDownloadResult.file result = Some file
       /\ IDownloadedFile.mimetype file = MimeStr "text/plain".
Proof.
  cbv zeta. split; [reflexivity|].
  destruct (buffer_mode_media_type Scripted.config
              (mkResponse None None [OnData (Buffer.ofString "hello world"); OnEnd])
              (IFileInfo.mk "notes.txt" None None) "ABC123" "original"
              (Buffer.ofString "hello world") eq_refl)
    as (result & file & P & F & _ & _ & H).
  exists result, file. split; [exact P|]. split; [exact F|].
  apply H; [reflexivity | left; reflexivity | reflexivity].
Defined.

(** ** Draining a body *)

Section Drain.
Variable CONFIG : Config.

(** Events that leave the drain unsettled are passed: the chunks are
    collected, the sizes and the pauses added up. *)
Lemma streamToBufferFrom_unsettled (events tail : Readable) :
  forall (acc : list Buffer.t) (total : Z) (elapsed : N),
    forallb flowing events = true ->
    (elapsed + idleOf events < DRAIN_TIMEOUT)%N ->
    chunksOf events = []
    \/ (total + Z.of_nat (length (List.concat (chunksOf events)))
        <= MAX_BUFFER_SIZE CONFIG)%Z ->
    streamToBufferFrom CONFIG (List.app events tail) acc total elapsed
    = streamToBufferFrom CONFIG tail (List.app acc (chunksOf events))
        (total + Z.of_nat (length (List.concat (chunksOf events))))
        (elapsed + idleOf events).
Proof.
  induction events as [|ev events IH]; intros acc total elapsed F T C.
  - cbn. now rewrite app_nil_r, Z.add_0_r, N.add_0_r.
  - destruct ev as [chunk| |e|ms]; cbn in F; try discriminate F;
      cbn [List.app streamToBufferFrom chunksOf idleOf] in *.
    + destruct C as [C|C]; [discriminate|].
      cbn [List.concat] in C. rewrite length_app in C.
      destruct (Z.gtb_spec (total + Z.of_nat (length chunk)) (MAX_BUFFER_SIZE CONFIG))
        as [G|G]; [lia|].
      rewrite IH; [|exact F|exact T|right; lia].
      cbn [List.concat]. rewrite <- app_assoc, length_app. cbn [List.app].
      f_equal. lia.
    + destruct (N.leb_spec DRAIN_TIMEOUT (elapsed + ms)) as [L|L]; [lia|].
      rewrite IH; [|exact F|lia|exact C]. f_equal. lia.
Qed.

(** Every drain: the events up to the one that settles it leave it
    unsettled, and the outcome is decided by the event that follows them. *)
Lemma streamToBufferFrom_settles (events : Readable) :
  forall (acc : list Buffer.t) (total : Z) (elapsed : N),
    (elapsed < DRAIN_TIMEOUT)%N ->
    exists passed tail,
      events = List.app passed tail
      /\ forallb flowing passed = true
      /\ (elapsed + idleOf passed < DRAIN_TIMEOUT)%N
      /\ (chunksOf passed = []
          \/ (total + Z.of_nat (length (List.concat (chunksOf passed)))
              <= MAX_BUFFER_SIZE CONFIG)%Z)
      /\ match tail with
         | [] =>
             streamToBufferFrom CONFIG events acc total elapsed
             = Throw (ErrorObj "Timeout while converting stream to buffer")
         | OnEnd :: _ =>
             streamToBufferFrom CONFIG events acc total elapsed
             = Ok (List.concat (List.app acc (chunksOf passed)))
         | OnError e :: _ =>
             streamToBufferFrom CONFIG events acc total elapsed = Throw e
         | OnData chunk :: _ =>
             (total + Z.of_nat (length (List.concat (chunksOf passed)))
              + Z.of_nat (length chunk) > MAX_BUFFER_SIZE CONFIG)%Z
             /\ streamToBufferFrom CONFIG events acc total elapsed
                = Throw (ErrorObj ("File too large to process in memory (>"
                                   ++ maxBufferSizeMB CONFIG ++ "MB)"))
         | Idle ms :: _ =>
             (DRAIN_TIMEOUT <= elapsed + idleOf passed + ms)%N
             /\ streamToBufferFrom CONFIG events acc total elapsed
                = Throw (ErrorObj "Timeout while converting stream to buffer")
         end.
Proof.
  induction events as [|ev events IH]; intros acc total elapsed T.
  - exists [], []. cbn. rewrite N.add_0_r. now repeat split; try left.
  - destruct ev as [chunk| |e|ms].
    + destruct (Z.gtb_spec (total + Z.of_nat (length chunk)) (MAX_BUFFER_SIZE CONFIG))
        as [G|G].
      * exists [], (OnData chunk :: events). cbn. rewrite N.add_0_r, Z.add_0_r.
        repeat split; try (now left); try exact T; try lia.
        destruct (Z.gtb_spec (total + Z.of_nat (length chunk)) (MAX_BUFFER_SIZE CONFIG));
          [reflexivity | lia].
      * destruct (IH (List.app acc [chunk]) (total + Z.of_nat (length chunk))%Z
                    elapsed T) as (passed & tail & E & F & I & C & O).
        exists (OnData chunk :: passed), tail.
        cbn [List.app forallb flowing andb chunksOf idleOf List.concat streamToBufferFrom].
        rewrite length_app.
        destruct (Z.gtb_spec (total + Z.of_nat (length chunk)) (MAX_BUFFER_SIZE CONFIG));
          [lia|].
        split; [now rewrite E|]. split; [exact F|]. split; [exact I|].
        split; [right; destruct C as [-> | C]; cbn; lia|].
        rewrite <- app_assoc in O. cbn [List.app] in O.
        destruct tail as [|[c| |e'|ms] tail]; try exact O.
        destruct O as [O1 O2]. split; [lia | exact O2].
    + exists [], (OnEnd :: events). cbn. rewrite N.add_0_r, app_nil_r.
      now repeat split; try left.
    + exists [], (OnError e :: events). cbn. rewrite N.add_0_r.
      now repeat split; try left.
    + destruct (N.leb_spec DRAIN_TIMEOUT (elapsed + ms)) as [L|L].
      * exists [], (Idle ms :: events). cbn [List.app forallb chunksOf idleOf streamToBufferFrom].
        rewrite N.add_0_r.
        destruct (N.leb_spec DRAIN_TIMEOUT (elapsed + ms)); [|lia].
        repeat split; try (now left); try exact T; lia.
      * destruct (IH acc total (elapsed + ms)%N L) as (passed & tail & E & F & I & C & O).
        exists (Idle ms :: passed), tail.
        cbn [List.app forallb flowing andb chunksOf idleOf streamToBufferFrom].
        destruct (N.leb_spec DRAIN_TIMEOUT (elapsed + ms)); [lia|].
        split; [now rewrite E|]. split; [exact F|]. split; [lia|].
        split; [exact C|].
        destruct tail as [|[c| |e'|ms'] tail]; try exact O.
        destruct O as [O1 O2]. split; [lia | exact O2].
Qed.

(** A drain that rejects with an [Error] whose message is empty was settled
    by an ['error'] event carrying it. *)
Lemma streamToBuffer_empty_error (stream : Readable) (e : Thrown) :
  streamToBuffer CONFIG stream = Throw e ->
  messageOr "Unknown error" e = "" ->
  exists events rest,
    stream = List.app events (OnError (ErrorObj "") :: rest)
    /\ Unsettled CONFIG events.
Proof.
  unfold streamToBuffer. intros D M.
  destruct (streamToBufferFrom_settles stream [] 0%Z 0%N eq_refl)
    as (passed & tail & E & F & I & C & O).
  rewrite D in O.
  destruct tail as [|[c| |e'|ms] tail].
  - injection O as ->. discriminate M.
  - destruct O as [_ O]. injection O as ->. discriminate M.
  - discriminate O.
  - injection O as <-. destruct e as [m|v]; [|discriminate M].
    cbn in M. subst m. exists passed, tail. split; [exact E|].
    split; [exact F|]. split; [exact I|].
    destruct C as [C|C]; [now left | right; lia].
  - destruct O as [_ O]. injection O as ->. discriminate M.
Qed.

Lemma streamToBuffer_error_event (events rest : Readable) (e : Thrown) :
  Unsettled CONFIG events ->
  streamToBuffer CONFIG (List.app events (OnError e :: rest)) = Throw e.
Proof.
  intros (F & I & C). unfold streamToBuffer.
  rewrite streamToBufferFrom_unsettled;
    [reflexivity | exact F | exact I | destruct C as [C|C]; [now left | right; lia]].
Qed.

End Drain.

(** ** Passing over candidates *)

Lemma reportsHtml_includes (r : AxiosResponse) :
  ReportsHtml r ->
  JsString.includes "text/html" (headerOr (contentType r) "") = true.
Proof.
  intros (ct & -> & S). unfold headerOr.
  destruct ct as [|c ct]; simpl JsString.truthy; cbv iota; now apply includes_iff.
Qed.

Lemma not_reportsHtml_includes (r : AxiosResponse) :
  ~ ReportsHtml r ->
  JsString.includes "text/html" (headerOr (contentType r) "") = false.
Proof.
  intros N. destruct (JsString.includes _ _) eqn:I; [|reflexivity].
  elim N. unfold headerOr in I.
  destruct (contentType r) as [ct|] eqn:E; [|discriminate I].
  exists ct. split; [exact E|].
  destruct ct as [|c ct]; [discriminate I|].
  now apply includes_iff.
Qed.

Section Candidates.
Context {W : Type} {transport : Transport W}.
Variables (CONFIG : Config) (fileId : string) (fileInfo : IFileInfo.t)
  (asBuffer : bool) (exportFormat : string).

(** Candidates that are passed over and are not the last leave the loop
    where it would be had it started after them. *)
Lemma fetchLoop_skips (skipped : list string) (url : string) (rest : list string)
    (w w1 : W) :
  Skipped skipped w w1 ->
  forall response, exists response',
    fetchLoop CONFIG fileId fileInfo asBuffer exportFormat
      (List.app skipped (url :: rest)) response w
    = fetchLoop CONFIG fileId fileInfo asBuffer exportFormat
        (url :: rest) response' w1.
Proof.
  induction 1 as [w | u us w e wa w' G S IH | u us w r wa w' G H S IH];
    intros response.
  - now exists response.
  - destruct (IH response) as [response' E]. exists response'.
    rewrite <- E. change (List.app (u :: us) (url :: rest)) with (u :: List.app us (url :: rest)).
    cbn [fetchLoop]. rewrite G. now destruct us.
  - destruct (IH (Some r)) as [response' E]. exists response'.
    rewrite <- E. change (List.app (u :: us) (url :: rest)) with (u :: List.app us (url :: rest)).
    cbn [fetchLoop]. rewrite G, (reportsHtml_includes r H). now destruct us.
Qed.

End Candidates.

(** ** The pipeline *)

Section Pipeline.
Context {W : Type} {transport : Transport W}.
Variable CONFIG : Config.

Lemma processDownloadResponse_ok (response : AxiosResponse) (fileInfo : IFileInfo.t)
    (fileId : string) (asBuffer : bool) (exportFormat : string)
    (r : IDownloadResult.t) :
  processDownloadResponse CONFIG response fileInfo fileId asBuffer exportFormat = Ok r ->
  Succeeded asBuffer r.
Proof.
  unfold processDownloadResponse, Succeeded, ExactlyOne.
  destruct (adjustNameAndType fileInfo exportFormat) as [n m].
  destruct asBuffer.
  - destruct (streamToBuffer CONFIG (data response)) as [b|e]; [|discriminate].
    intros [= <-]. simpl. repeat split. eexists. split; [reflexivity|].
    simpl. split; [now exists b | reflexivity].
  - intros [= <-]. simpl. repeat split. eexists. split; [reflexivity|].
    simpl. split; [reflexivity | now eexists].
Qed.

Lemma processDownloadResponse_throw (response : AxiosResponse)
    (fileInfo : IFileInfo.t) (fileId : string) (asBuffer : bool)
    (exportFormat : string) (e : Thrown) :
  processDownloadResponse CONFIG response fileInfo fileId asBuffer exportFormat
  = Throw e ->
  asBuffer = true /\ streamToBuffer CONFIG (data response) = Throw e.
Proof.
  unfold processDownloadResponse.
  destruct (adjustNameAndType fileInfo exportFormat) as [n m].
  destruct asBuffer; [|discriminate].
  destruct (streamToBuffer CONFIG (data response)) as [b|e0] eqn:D; [discriminate|].
  now intros [= ->].
Qed.

Lemma processDownloadResponse_rethrows (response : AxiosResponse)
    (fileInfo : IFileInfo.t) (fileId : string) (exportFormat : string) (e : Thrown) :
  streamToBuffer CONFIG (data response) = Throw e ->
  processDownloadResponse CONFIG response fileInfo fileId true exportFormat = Throw e.
Proof.
  intros D. unfold processDownloadResponse.
  destruct (adjustNameAndType fileInfo exportFormat) as [n m]. now rewrite D.
Qed.

Lemma getFileInfo_resolves (fileId : string) (w : W) :
  exists fileInfo w', getFileInfo fileId w = (Ok fileInfo, w').
Proof.
  unfold getFileInfo, getFileInfoFromPage, tryCatch, bind, ret.
  destruct (getJson _ w) as [[d|e] w1]; [now eexists; eexists|].
  destruct (getText _ w1) as [[html|e'] w2]; now eexists; eexists.
Qed.

Lemma retryLoop_total {A : Type} (fn : Async W A) (maxRetries baseDelay : Z)
    (fuel : nat) (attempt : Z) (lastError e : Thrown) (w w' : W) :
  (forall w0, exists v w1, fn w0 = (Ok v, w1)) ->
  retryLoop fn maxRetries baseDelay fuel attempt lastError w = (Throw e, w') ->
  e = lastError.
Proof.
  intros T. destruct fuel as [|fuel]; simpl.
  - unfold throw. now intros [= <- _].
  - unfold tryCatch. destruct (T w) as (v & w1 & ->). discriminate.
Qed.

Lemma downloadLargeFile_ok (fileId : string) (fileInfo : IFileInfo.t)
    (asBuffer : bool) (exportFormat : string) (w w' : W) (r : IDownloadResult.t) :
  downloadLargeFile CONFIG fileId fileInfo asBuffer exportFormat w = (Ok r, w') ->
  Succeeded asBuffer r.
Proof.
  unfold downloadLargeFile, tryCatch, bind, lift, throw.
  destruct (getText _ w) as [[body|e] w1]; [|discriminate].
  destruct (Regex.match1 confirmParam body) as [token|]; [|discriminate].
  destruct (getStream _ w1) as [[response|e] w2]; [|discriminate].
  destruct (processDownloadResponse _ _ _ _ _ _) as [r0|e] eqn:P; [|discriminate].
  intros [= <- _]. now apply processDownloadResponse_ok in P.
Qed.

Lemma downloadLargeFile_throw (fileId : string) (fileInfo : IFileInfo.t)
    (asBuffer : bool) (exportFormat : string) (w w' : W) (e : Thrown) :
  downloadLargeFile CONFIG fileId fileInfo asBuffer exportFormat w = (Throw e, w') ->
  exists m, e = ErrorObj ("Large file download error: " ++ m).
Proof.
  unfold downloadLargeFile, tryCatch, bind, lift, throw.
  destruct (getText _ w) as [[body|e0] w1];
    [|intros [= <- _]; now eexists].
  destruct (Regex.match1 confirmParam body) as [token|];
    [|intros [= <- _]; now eexists].
  destruct (getStream _ w1) as [[response|e0] w2];
    [|intros [= <- _]; now eexists].
  destruct (processDownloadResponse _ _ _ _ _ _) as [r0|e0];
    [discriminate | intros [= <- _]; now eexists].
Qed.

(** What the loop over the candidates can end in. *)
Lemma fetchLoop_outcome (fileId : string) (fileInfo : IFileInfo.t)
    (asBuffer : bool) (exportFormat : string) (urls : list string) :
  forall (response : option AxiosResponse) (w w' : W) (out : Outcome LoopExit),
    fetchLoop CONFIG fileId fileInfo asBuffer exportFormat urls response w = (out, w') ->
    match out with
    | Ok (Returned r) => Succeeded asBuffer r
    | Ok (Left got) =>
        (urls = [] /\ got = response)
        \/ (exists r url w1 w2, got = Some r /\ getStream url w1 = (Ok r, w2))
    | Throw e =>
        (exists m, e = ErrorObj ("Large file download error: " ++ m))
        \/ (exists url w1 w2 e0, getStream url w1 = (Throw e0, w2) /\ e = asError e0)
    end.
Proof.
  induction urls as [|url rest IH]; intros response w w' out; simpl.
  - unfold ret. intros [= <- _]. now left.
  - destruct (getStream url w) as [[r|e0] w1] eqn:G.
    + destruct (JsString.includes "text/html" _).
      * destruct rest as [|url' rest'].
        -- unfold tryCatch, bind, ret, throw.
           destruct (downloadLargeFile _ _ _ _ _ w1) as [[res|e] w2] eqn:D.
           ++ intros [= <- _]. now apply downloadLargeFile_ok in D.
           ++ intros [= <- _]. left.
              apply downloadLargeFile_throw in D as [m ->]. now exists m.
        -- intros H. apply IH in H. destruct out as [[res|got]|e]; try exact H.
           destruct H as [[H _]|H]; [discriminate | now right].
      * intros [= <- _]. right. now exists r, url, w, w1.
    + destruct rest as [|url' rest'].
      * intros [= <- _]. right. now exists url, w, w1, e0.
      * intros H. apply IH in H. destruct out as [[res|got]|e]; try exact H.
        destruct H as [[H _]|H]; [discriminate | now right].
Qed.

Lemma asError_message (e : Thrown) :
  messageOr "Unknown error" (asError e) = "" -> e = ErrorObj "".
Proof. destruct e as [m|v]; simpl; [now intros -> | discriminate]. Qed.

(** How the loop over the candidates is left past its end or by a throw:
    after candidates that were passed over, by the answer of a candidate
    that does not report HTML, by the rejection of the last candidate, or by
    what the confirmation flow throws. *)
Lemma fetchLoop_trace (fileId : string) (fileInfo : IFileInfo.t)
    (asBuffer : bool) (exportFormat : string) (urls : list string) :
  forall (response : option AxiosResponse) (w w' : W) (out : Outcome LoopExit),
    fetchLoop CONFIG fileId fileInfo asBuffer exportFormat urls response w = (out, w') ->
    match out with
    | Ok (Returned r) => True
    | Ok (Left got) =>
        (urls = [] /\ got = response)
        \/ (exists skipped candidate later w1 r,
              urls = List.app skipped (candidate :: later)
              /\ Skipped skipped w w1
              /\ getStream candidate w1 = (Ok r, w')
              /\ ~ ReportsHtml r
              /\ got = Some r)
    | Throw e =>
        (exists m, e = ErrorObj ("Large file download error: " ++ m))
        \/ (exists skipped last w1 e0,
              urls = List.app skipped [last]
              /\ Skipped skipped w w1
              /\ getStream last w1 = (Throw e0, w')
              /\ e = asError e0)
    end.
Proof.
  induction urls as [|url rest IH]; intros response w w' out; cbn [fetchLoop].
  - unfold ret. intros [= <- _]. now left.
  - destruct (getStream url w) as [[r|e0] w1] eqn:G.
    + destruct (JsString.includes "text/html" _) eqn:I.
      * assert (H : ReportsHtml r).
        { unfold headerOr in I. destruct (contentType r) as [ct|] eqn:E;
            [|discriminate I].
          exists ct. split; [exact E|].
          destruct ct as [|c ct]; [discriminate I | now apply includes_iff]. }
        destruct rest as [|url' rest'].
        -- unfold tryCatch, bind, ret, throw.
           destruct (downloadLargeFile _ _ _ _ _ w1) as [[res|e] w2] eqn:D.
           ++ now intros [= <- _].
           ++ intros [= <- _]. left.
              apply downloadLargeFile_throw in D as [m ->]. now exists m.
        -- intros L. apply IH in L. destruct out as [[res|got]|e]; [constructor|..].
           ++ destruct L as [[L _]|(skipped & c & later & w2 & r0 & E & S & G0 & N & ->)];
                [discriminate|].
              right. exists (url :: skipped), c, later, w2, r0.
              split; [cbn; now rewrite E|].
              split; [now apply (skipped_html url skipped w r w1 w2)|]. now repeat split.
           ++ destruct L as [L|(skipped & l & w2 & e1 & E & S & G0 & ->)]; [now left|].
              right. exists (url :: skipped), l, w2, e1.
              split; [cbn; now rewrite E|].
              split; [now apply (skipped_html url skipped w r w1 w2)|]. now split.
      * intros [= <- <-]. right. exists [], url, rest, w, r.
        split; [reflexivity|]. split; [apply skipped_none|]. split; [exact G|].
        split; [|reflexivity].
        intros H. apply reportsHtml_includes in H. rewrite H in I. discriminate I.
    + destruct rest as [|url' rest'].
      * intros [= <- <-]. right. exists [], url, w, e0.
        split; [reflexivity|]. split; [apply skipped_none|]. now split.
      * intros L. apply IH in L. destruct out as [[res|got]|e]; [constructor|..].
        -- destruct L as [[L _]|(skipped & c & later & w2 & r0 & E & S & G0 & N & ->)];
             [discriminate|].
           right. exists (url :: skipped), c, later, w2, r0.
           split; [cbn; now rewrite E|].
           split; [now apply (skipped_rejected url skipped w e0 w1 w2)|]. now repeat split.
        -- destruct L as [L|(skipped & l & w2 & e1 & E & S & G0 & ->)]; [now left|].
           right. exists (url :: skipped), l, w2, e1.
           split; [cbn; now rewrite E|].
           split; [now apply (skipped_rejected url skipped w e0 w1 w2)|]. now split.
Qed.

(** What the body of [download] can end in. *)
Lemma downloadBody_outcome (url : UrlArg) (options : IDownloadOptions.t)
    (w w' : W) (out : Outcome IDownloadResult.t) :
  downloadBody CONFIG url options w = (out, w') ->
  match out with
  | Ok r => Succeeded (asBufferOf options) r
  | Throw e =>
      messageOr "Unknown error" e = "" -> EmptyMessageFrom CONFIG url options w w'
  end.
Proof.
  unfold downloadBody, EmptyMessageFrom, bind, lift, ret, throw.
  destruct (extractFileId url) as [fileId|e] eqn:X.
  2:{ intros [= <- _]. unfold extractFileId in X.
      destruct url as [s|]; [destruct (negb _); [|destruct (firstMatch _ _)]|];
        try discriminate; injection X as <-; discriminate. }
  destruct (retryWithBackoff _ _ _ w) as [[fileInfo|e] w0] eqn:R.
  2:{ intros [= <- _]. unfold retryWithBackoff in R.
      apply retryLoop_total in R; [subst e; discriminate|].
      apply getFileInfo_resolves. }
  destruct (callGetDownloadUrls _ _ _) as [urls|e] eqn:C.
  2:{ intros [= <- _]. unfold callGetDownloadUrls in C.
      destruct (IFileInfo.mimeType fileInfo) as [[m|m]|]; try discriminate.
      injection C as <-. discriminate. }
  destruct (fetchLoop _ _ _ _ _ _ _ w0) as [[[res|[response|]]|e] w1] eqn:L.
  - apply fetchLoop_outcome in L. now intros [= <- _].
  - destruct (processDownloadResponse _ _ _ _ _ _) as [r|e] eqn:P;
      intros [= <- <-].
    + now apply processDownloadResponse_ok in P.
    + intros M. apply processDownloadResponse_throw in P as [A D].
      apply fetchLoop_trace in L
        as [[_ L]|(skipped & c & later & w2 & r0 & E & S & G & N & [= <-])];
        [discriminate|].
      destruct (streamToBuffer_empty_error CONFIG _ _ D M) as (events & rest & Ed & U).
      assert (e = ErrorObj "") as -> by (destruct e; [now cbn in M; subst | discriminate M]).
      exists fileId, fileInfo, w0, urls.
      split; [first [exact X | reflexivity]|].
      split; [first [exact R | reflexivity]|].
      split; [first [exact C | reflexivity]|].
      right. exists skipped, c, later, w2, response, events, rest.
      repeat (split; [assumption|]). assumption.
  - intros [= <- _]. discriminate.
  - intros [= <- <-] M. apply fetchLoop_trace in L.
    destruct L as [[m ->]|(skipped & l & w2 & e0 & E & S & G & ->)]; [discriminate|].
    apply asError_message in M as ->.
    exists fileId, fileInfo, w0, urls.
      split; [first [exact X | reflexivity]|].
      split; [first [exact R | reflexivity]|].
      split; [first [exact C | reflexivity]|].
    left. now exists skipped, l, w2.
Qed.

(** The converse: on such a path the body of [download] throws an [Error]
    whose message is empty. *)
Lemma downloadBody_empty_message (url : UrlArg) (options : IDownloadOptions.t)
    (w w' : W) :
  EmptyMessageFrom CONFIG url options w w' ->
  downloadBody CONFIG url options w = (Throw (ErrorObj ""), w').
Proof.
  intros (fileId & fileInfo & w0 & urls & X & R & C & T).
  unfold downloadBody, bind, lift, ret, throw. rewrite X, R, C.
  destruct T as [(skipped & l & w1 & -> & S & G)
                |(skipped & c & later & w1 & response & events & rest
                  & -> & S & G & N & A & D & U)].
  - destruct (fetchLoop_skips CONFIG fileId fileInfo (asBufferOf options)
                (exportFormatOf options) skipped l [] w0 w1 S None) as [response' ->].
    cbn [fetchLoop]. now rewrite G.
  - destruct (fetchLoop_skips CONFIG fileId fileInfo (asBufferOf options)
                (exportFormatOf options) skipped c later w0 w1 S None) as [response' ->].
    cbn [fetchLoop]. rewrite G, (not_reportsHtml_includes response N), A.
    rewrite (processDownloadResponse_rethrows response fileInfo fileId
               (exportFormatOf options) (ErrorObj "")); [reflexivity|].
    rewrite D. now apply streamToBuffer_error_event.
Qed.

End Pipeline.

(** C1, as the code has it.  [download] is a total function into results:
    either the body of its [try] completes and the result is a success
    (flag set, no error text, a file), or the body throws some [e] and the
    result is the failure whose error text is the message of [e] when [e] is
    an [Error] and ['Unknown error'] otherwise.  That text is empty exactly
    when this very call met an [Error] with an empty message coming from the
    streaming transport: as the rejection of the request of the last
    candidate, or as the ['error'] event that settled the drain of the body
    being materialized in buffer mode. *)
Theorem download_always_resolves {W : Type} {transport : Transport W}
    (CONFIG : Config) (url : UrlArg) (options : IDownloadOptions.t) (w : W) :
  let r := fst (download CONFIG url options w) in
  (exists w',
      downloadBody CONFIG url options w = (Ok r, w')
      /\ Succeeded (asBufferOf options) r)
  \/ (exists e w',
        downloadBody CONFIG url options w = (Throw e, w')
        /\ IDownloadResult.success r = false
        /\ IDownloadResult.file r = None
        /\ IDownloadResult.error r = Some (messageOr "Unknown error" e)
        /\ (messageOr "Unknown error" e = ""
            <-> EmptyMessageFrom CONFIG url options w w')).
Proof.
  cbv zeta. unfold download.
  destruct (downloadBody CONFIG url options w) as [[r|e] w'] eqn:B;
    pose proof (downloadBody_outcome CONFIG url options w w' _ B) as O;
    cbn [fst].
  - left. now exists w'.
  - right. exists e, w'. repeat split; [exact O|].
    intros M. apply (downloadBody_empty_message CONFIG) in M.
    rewrite M in B. now injection B as <-.
Qed.

(** C1, refuted as worded: when every candidate request is rejected with an
    [Error] whose message is empty, the result is a failure whose error
    string is empty. *)
Lemma download_error_may_be_empty :
  let silent := @Throw AxiosResponse (ErrorObj "") in
  let w := Scripted.start [Ok (mkApiFile "a.bin" None None)] []
             [silent; silent; silent; silent; silent] in
  let r := fst (download Scripted.config
                  (UrlString "https://drive.google.com/file/d/ABC123/view")
                  IDownloadOptions.empty w) in
  IDownloadResult.success r = false /\ IDownloadResult.error r = Some "".
Proof. cbv zeta. split; reflexivity. Qed.

(** C8.  A result of [download] whose success flag is set contains a file
    with exactly one of [buffer] and [stream] populated: the buffer when the
    caller's [asBuffer] (true when omitted) is true, the stream when it is
    false.  Results are values: nothing changes them afterwards. *)
Theorem download_buffer_xor_stream {W : Type} {transport : Transport W}
    (CONFIG : Config) (url : UrlArg) (options : IDownloadOptions.t) (w : W) :
  let r := fst (download CONFIG url options w) in
  IDownloadResult.success r = true ->
  exists f,
    IDownloadResult.file r = Some f
    /\ (asBufferOf options = true ->
        (exists b, IDownloadedFile.buffer f = Some b)
        /\ IDownloadedFile.stream f = None)
    /\ (asBufferOf options = false ->
        IDownloadedFile.buffer f = None
        /\ exists s, IDownloadedFile.stream f = Some s).
Proof.
  cbv zeta. unfold download.
  destruct (downloadBody CONFIG url options w) as [[r|e] w'] eqn:B;
    cbn [fst]; [|discriminate].
  intros _. apply downloadBody_outcome in B as (_ & _ & f & F & X).
  exists f. split; [exact F|]. unfold ExactlyOne in X.
  destruct (asBufferOf options); split; intros E; try discriminate E; exact X.
Qed.

(** An instance: the metadata lookup fails twice over, the first candidate
    answers with a PDF, and the caller asked for a stream. *)
Lemma download_buffer_xor_stream_witness :
  let w := Scripted.start [] [] [Ok Scripted.pdf] in
  let options := IDownloadOptions.mk None None None (Some false) in
  let r := fst (download Scripted.config
                  (UrlString "https://drive.google.com/file/d/ABC123/view")
                  options w) in
  IDownloadResult.success r = true
  /\ exists f,
       IDownloadResult.file r = Some f
       /\ IDownloadedFile.buffer f = None
       /\ exists s, IDownloadedFile.stream f = Some s.
Proof.
  cbv zeta.
  assert (S : IDownloadResult.success
                (fst (download Scripted.config
                        (UrlString "https://drive.google.com/file/d/ABC123/view")
                        (IDownloadOptions.mk None None None (Some false))
                        (Scripted.start [] [] [Ok Scripted.pdf]))) = true)
    by reflexivity.
  split; [exact S|].
  destruct (download_buffer_xor_stream Scripted.config
              (UrlString "https://drive.google.com/file/d/ABC123/view")
              (IDownloadOptions.mk None None None (Some false))
              (Scripted.start [] [] [Ok Scripted.pdf]) S)
    as (f & F & _ & X).
  exists f. split; [exact F|]. now apply X.
Defined.

(** C10.  Whatever the identifier, the media type (absent included) and the
    export format, the candidate list has between five and seven elements
    and its last five are the three [drive.usercontent.google.com] endpoints
    followed by the two [drive.google.com/uc] endpoints; so the list has a
    last element, and the loop of [download] over it never ends without a
    response in hand. *)
Theorem getDownloadUrls_fixed_tail (fileId : string) (mimeType : option string)
    (exportFormat : string) :
  let urls := getDownloadUrls fileId mimeType exportFormat in
  5 <= length urls <= 7
  /\ skipn (length urls - 5) urls
     = [ "https://drive.usercontent.google.com/download?id=" ++ fileId ++ "&export=download&authuser=0";
         "https://drive.usercontent.google.com/download?id=" ++ fileId ++ "&export=download&confirm=t";
         "https://drive.usercontent.google.com/download?id=" ++ fileId ++ "&export=download";
         "https://drive.google.com/uc?export=download&id=" ++ fileId;
         "https://drive.google.com/uc?id=" ++ fileId ++ "&export=download" ]
  /\ last urls "" = "https://drive.google.com/uc?id=" ++ fileId ++ "&export=download"
  /\ forall (W : Type) (transport : Transport W) (CONFIG : Config)
            (fileInfo : IFileInfo.t) (asBuffer : bool) (w : W),
       fst (fetchLoop CONFIG fileId fileInfo asBuffer exportFormat urls None w)
       <> Ok (Left None).
Proof.
  cbv zeta.
  destruct (getDownloadUrls_shape fileId mimeType exportFormat)
    as (exports & E & L).
  rewrite E. unfold pushedTail, legacyUrls, userContentUrl.
  rewrite append_empty_r. cbn [List.app].
  rewrite length_app. cbn [length].
  split; [lia|]. split; [|split].
  - replace (length exports + 5 - 5) with (length exports + 0) by lia.
    rewrite skipn_app, Nat.add_0_r, skipn_all.
    replace (length exports - length exports) with 0 by lia. reflexivity.
  - match goal with
    | |- last (List.app _ [?a; ?b; ?c; ?d; ?e]) _ = _ =>
        change [a; b; c; d; e] with (List.app [a; b; c; d] [e])
    end.
    rewrite app_assoc. apply last_last.
  - intros W transport CONFIG fileInfo asBuffer w.
    destruct (fetchLoop _ _ _ _ _ _ _ w) as [out w'] eqn:F.
    apply fetchLoop_outcome in F. cbn [fst]. intros ->.
    destruct F as [[F _]|(r & _ & _ & _ & F & _)]; [|discriminate F].
    now destruct exports.
Qed.

(** ** HTML answers and the confirmation flow *)

Lemma search_ext (p q : Regex.Pattern) (s : string) :
  (forall t, Regex.matchHere (Regex.ignoreCase p) (Regex.items p) t
             = Regex.matchHere (Regex.ignoreCase q) (Regex.items q) t) ->
  Regex.search p s = Regex.search q s.
Proof.
  intros E. induction s as [|a s IH]; simpl; rewrite E; [reflexivity|].
  now rewrite IH.
Qed.

(** The confirmation pattern has no literal after its group; it matches as
    the same pattern followed by the empty literal. *)
Lemma confirmParam_match1 (body : string) :
  Regex.match1 confirmParam body
  = Regex.match1
      (Regex.mkPattern
         [Regex.Lit "confirm="; Regex.Cap tokenChar 1; Regex.Lit ""] false) body.
Proof.
  unfold Regex.match1. rewrite (search_ext confirmParam
    (Regex.mkPattern [Regex.Lit "confirm="; Regex.Cap tokenChar 1; Regex.Lit ""] false));
    [reflexivity|].
  intros t. reflexivity.
Qed.

Section Confirmation.
Context {W : Type} {transport : Transport W}.
Variables (CONFIG : Config) (fileId : string) (fileInfo : IFileInfo.t)
  (asBuffer : bool) (exportFormat : string).

Lemma fetchLoop_html_not_last (url : string) (rest : list string)
    (response : option AxiosResponse) (w w1 : W) (r : AxiosResponse) :
  rest <> [] ->
  getStream url w = (Ok r, w1) ->
  ReportsHtml r ->
  fetchLoop CONFIG fileId fileInfo asBuffer exportFormat (url :: rest) response w
  = fetchLoop CONFIG fileId fileInfo asBuffer exportFormat rest (Some r) w1.
Proof.
  intros N G H. cbn [fetchLoop]. rewrite G, (reportsHtml_includes r H).
  destruct rest; [now elim N | reflexivity].
Qed.

Lemma fetchLoop_all_html (urls : list string) (w w1 : W) :
  AllHtml urls w w1 ->
  urls <> [] ->
  forall response,
    fetchLoop CONFIG fileId fileInfo asBuffer exportFormat urls response w
    = tryCatch
        (result <- downloadLargeFile CONFIG fileId fileInfo asBuffer exportFormat ;;
         ret (Returned result))
        (fun error => throw (asError error)) w1.
Proof.
  induction 1 as [w | url rest w r w1 w' G H A IH]; intros N response.
  - now elim N.
  - destruct rest as [|url' rest'].
    + inversion A; subst. cbn [fetchLoop].
      now rewrite G, (reportsHtml_includes r H).
    + rewrite (fetchLoop_html_not_last url (url' :: rest') response w w1 r);
        [|discriminate|exact G|exact H].
      apply IH. discriminate.
Qed.

End Confirmation.

(** C3.  (a) In the loop over the candidates, an answer that reports HTML
    and is not the last candidate's is dropped and the loop goes on with the
    next candidate.  Now let the identifier be extracted, the metadata
    resolved and let every candidate, the last included, answer with an HTML
    page; let the canonical [uc?export=download&id=] endpoint then answer
    with [body].  (b) When [body] holds no [confirm=] followed by a token
    character, the call resolves to the failure
    [Large file download error: Confirmation token not found for large file].
    (c) Otherwise there is a token, the one captured after the leftmost
    [confirm=], and the call requests the same endpoint with
    [confirm=<token>] added: if that request answers, the result is that of
    materializing the answer, an error there being wrapped under the
    large-file prefix; if that request is rejected, the rejection is wrapped
    in the same way. *)
Theorem html_answers_lead_to_confirmation {W : Type} {transport : Transport W}
    (CONFIG : Config) (url : UrlArg) (options : IDownloadOptions.t)
    (w w0 w1 w2 : W) (fileId : string) (fileInfo : IFileInfo.t)
    (urls : list string) (body : string) :
  let exportFormat := exportFormatOf options in
  let asBuffer := asBufferOf options in
  let wrapped (e : Thrown) :=
    failure ("Large file download error: " ++ messageOr "Unknown" e) in
  extractFileId url = Ok fileId ->
  retryWithBackoff (getFileInfo fileId) (maxRetriesOf CONFIG options)
    (DEFAULT_RETRY_DELAY CONFIG) w = (Ok fileInfo, w0) ->
  callGetDownloadUrls fileId (IFileInfo.mimeType fileInfo) exportFormat = Ok urls ->
  AllHtml urls w0 w1 ->
  getText ("https://drive.google.com/uc?export=download&id=" ++ fileId) w1
  = (Ok body, w2) ->
  (forall u rest response wa r wb,
      rest <> [] -> getStream u wa = (Ok r, wb) -> ReportsHtml r ->
      fetchLoop CONFIG fileId fileInfo asBuffer exportFormat (u :: rest) response wa
      = fetchLoop CONFIG fileId fileInfo asBuffer exportFormat rest (Some r) wb)
  /\ (~ MatchesIn "confirm=" tokenChar "" body ->
      download CONFIG url options w
      = (wrapped (ErrorObj "Confirmation token not found for large file"), w2))
  /\ (MatchesIn "confirm=" tokenChar "" body ->
      exists token,
        Captures "confirm=" tokenChar "" body token
        /\ let downloadUrl :=
             "https://drive.google.com/uc?export=download&confirm=" ++ token
             ++ "&id=" ++ fileId in
           (forall response w3,
               getStream downloadUrl w2 = (Ok response, w3) ->
               download CONFIG url options w
               = (match processDownloadResponse CONFIG response fileInfo fileId
                          asBuffer exportFormat with
                  | Ok r => r
                  | Throw e => wrapped e
                  end, w3))
           /\ (forall e w3,
                 getStream downloadUrl w2 = (Throw e, w3) ->
                 download CONFIG url options w = (wrapped e, w3))).
Proof.
  cbv zeta. intros X R C A G.
  split; [intros; now apply fetchLoop_html_not_last|].
  assert (N : urls <> []).
  { unfold callGetDownloadUrls in C.
    destruct (IFileInfo.mimeType fileInfo) as [[m|m]|]; try discriminate;
      injection C as <-;
      match goal with
      | |- getDownloadUrls ?f ?m ?x <> [] =>
          destruct (getDownloadUrls_shape f m x) as (exports & E & _);
          rewrite E; now destruct exports
      end. }
  assert (D : forall out w3,
             downloadLargeFile CONFIG fileId fileInfo (asBufferOf options)
               (exportFormatOf options) w1 = (out, w3) ->
             download CONFIG url options w
             = (match out with
                | Ok r => r
                | Throw e => failure (messageOr "Unknown error" (asError e))
                end, w3)).
  { intros out w3 L. unfold download, downloadBody, bind, lift, ret.
    rewrite X, R, C.
    rewrite (fetchLoop_all_html CONFIG fileId fileInfo _ _ urls w0 w1 A N).
    unfold tryCatch, bind, ret, throw. rewrite L.
    destruct out as [r|e]; reflexivity. }
  split.
  - intros M. apply match1_none in M. rewrite <- confirmParam_match1 in M.
    rewrite (D (Throw (ErrorObj
                        ("Large file download error: "
                         ++ "Confirmation token not found for large file"))) w2);
      [reflexivity|].
    unfold downloadLargeFile, tryCatch, bind, throw.
    now rewrite G, M.
  - intros M.
    destruct (Regex.match1 confirmParam body) as [token|] eqn:T.
    2:{ rewrite confirmParam_match1 in T. apply match1_none in T. now elim T. }
    exists token. split.
    { rewrite confirmParam_match1 in T. now apply match1_captures. }
    split.
    + intros response w3 S. rewrite (D
        (match processDownloadResponse CONFIG response fileInfo fileId
                 (asBufferOf options) (exportFormatOf options) with
         | Ok r => Ok r
         | Throw e => Throw (ErrorObj ("Large file download error: "
                                        ++ messageOr "Unknown" e))
         end) w3).
      * now destruct (processDownloadResponse _ _ _ _ _ _).
      * unfold downloadLargeFile, tryCatch, bind, throw, lift.
        rewrite G, T, S. now destruct (processDownloadResponse _ _ _ _ _ _).
    + intros e w3 S. rewrite (D
        (Throw (ErrorObj ("Large file download error: " ++ messageOr "Unknown" e)))
        w3); [reflexivity|].
      unfold downloadLargeFile, tryCatch, bind, throw, lift.
      now rewrite G, T, S.
Qed.

(** An instance: five HTML answers, a confirmation page carrying a token,
    and the confirmed request answering with a PDF. *)
Lemma html_answers_lead_to_confirmation_witness :
  let url := UrlString "https://drive.google.com/file/d/ABC123/view" in
  let body := "<a href=/uc?export=download&confirm=t0Ken&id=ABC123>Download anyway</a>" in
  let page := Ok Scripted.html in
  let w := Scripted.start [Ok (mkApiFile "big.bin" None None)] [Ok body]
             [page; page; page; page; page; Ok Scripted.pdf] in
  extractFileId url = Ok "ABC123"
  /\ MatchesIn "confirm=" tokenChar "" body
  /\ exists r w',
       download Scripted.config url IDownloadOptions.empty w = (r, w')
       /\ IDownloadResult.success r = true
       /\ IDownloadResult.mimeType r = Some (MimeStr "application/pdf").
Proof.
  cbv zeta.
  assert (M : MatchesIn "confirm=" tokenChar ""
                "<a href=/uc?export=download&confirm=t0Ken&id=ABC123>Download anyway</a>").
  { exists "<a href=/uc?export=download&",
      "confirm=t0Ken&id=ABC123>Download anyway</a>".
    split; [reflexivity|].
    exists "t0Ken", "&id=ABC123>Download anyway</a>".
    split; [reflexivity|]. split; [discriminate | reflexivity]. }
  split; [reflexivity|]. split; [exact M|].
  pose (body := "<a href=/uc?export=download&confirm=t0Ken&id=ABC123>Download anyway</a>").
  pose (w := Scripted.start [Ok (mkApiFile "big.bin" None None)] [Ok body]
               [Ok Scripted.html; Ok Scripted.html; Ok Scripted.html;
                Ok Scripted.html; Ok Scripted.html; Ok Scripted.pdf]).
  pose (api := Scripted.Requested "https://www.googleapis.com/drive/v3/files/ABC123").
  pose (urls := getDownloadUrls "ABC123" None "original").
  pose (w0 := Scripted.mkWorld [] [Ok body]
                [Ok Scripted.html; Ok Scripted.html; Ok Scripted.html;
                 Ok Scripted.html; Ok Scripted.html; Ok Scripted.pdf] [api]).
  pose (w1 := Scripted.mkWorld [] [Ok body] [Ok Scripted.pdf]
                (api :: map Scripted.Requested urls)).
  pose (w2 := Scripted.mkWorld [] [] [Ok Scripted.pdf]
                (List.app (api :: map Scripted.Requested urls)
                   [Scripted.Requested
                      "https://drive.google.com/uc?export=download&id=ABC123"])).
  destruct (html_answers_lead_to_confirmation Scripted.config
              (UrlString "https://drive.google.com/file/d/ABC123/view")
              IDownloadOptions.empty w w0 w1 w2 "ABC123"
              (IFileInfo.mk "big.bin" None None) urls body)
    as (_ & _ & T).
  - reflexivity.
  - reflexivity.
  - reflexivity.
  - repeat (eapply allHtml_cons;
            [ reflexivity
            | exists "text/html; charset=utf-8"; split;
              [reflexivity | exists "", "; charset=utf-8"; reflexivity]
            | ]).
    apply allHtml_nil.
  - reflexivity.
  - destruct (T M) as (token & _ & S & _).
    eexists; eexists. split; [apply S; reflexivity|].
    split; reflexivity.
Defined.

(** ** Media type from the file name *)

Lemma pop_cons (x : string) (l : list string) :
  l <> [] -> JsString.pop (x :: l) = JsString.pop l.
Proof.
  unfold JsString.pop. simpl. intros N.
  destruct (rev l) as [|y r] eqn:E; [|reflexivity].
  apply (f_equal (@rev string)) in E. rewrite rev_involutive in E. now elim N.
Qed.

Lemma splitParts_no_separator (sep : ascii) (s : string) :
  ~ Substring (String sep "") s -> JsString.splitParts sep s = (s, []).
Proof.
  induction s as [|c s IH]; simpl; intros N; [reflexivity|].
  rewrite IH.
  - destruct (Ascii.eqb_spec c sep) as [->|_]; [|reflexivity].
    elim N. now exists "", s.
  - intros (pre & post & ->). elim N. now exists (String c pre), post.
Qed.

Lemma splitParts_has_rest (sep : ascii) (a b : string) :
  snd (JsString.splitParts sep (a ++ String sep b)) <> [].
Proof.
  induction a as [|c a IH]; simpl.
  - rewrite Ascii.eqb_refl. destruct (JsString.splitParts sep b). discriminate.
  - destruct (JsString.splitParts sep (a ++ String sep b)) as [hd tl].
    destruct (Ascii.eqb c sep); [discriminate | exact IH].
Qed.

(** [split] then [pop] yields what follows the last separator. *)
Lemma pop_split_after_last (sep : ascii) (a b : string) :
  ~ Substring (String sep "") b ->
  JsString.pop (JsString.split sep (a ++ String sep b)) = Some b.
Proof.
  intros N. unfold JsString.split. induction a as [|c a IH]; simpl.
  - rewrite Ascii.eqb_refl, (splitParts_no_separator sep b N). reflexivity.
  - pose proof (splitParts_has_rest sep a b) as R.
    destruct (JsString.splitParts sep (a ++ String sep b)) as [hd tl].
    simpl in R. destruct (Ascii.eqb c sep).
    + rewrite pop_cons by discriminate. exact IH.
    + rewrite pop_cons by exact R. rewrite <- IH. symmetry. now apply pop_cons.
Qed.

Lemma mimeTypeMap_values_nonempty (k v : string) :
  ownEntry mimeTypeMap k = Some v -> JsString.truthy v = true.
Proof.
  unfold mimeTypeMap. cbn [ownEntry].
  repeat match goal with
         | |- context [String.eqb k ?key] =>
             destruct (String.eqb k key); [now intros [= <-]|]
         end.
  discriminate.
Qed.

(** The part of C6 that holds: a name that ends in a dot followed by an
    extension of the table (in any letter case) gets the media type recorded
    for it. *)
Lemma detectMimeTypeFromExtension_known (base ext v : string) :
  ~ Substring "." ext ->
  ownEntry mimeTypeMap (JsString.toLowerCase ext) = Some v ->
  detectMimeTypeFromExtension (base ++ "." ++ ext) = Some (MimeStr v).
Proof.
  intros N E. unfold detectMimeTypeFromExtension.
  change (base ++ "." ++ ext) with (base ++ String "." ext).
  rewrite (pop_split_after_last "." base ext N).
  assert (T : JsString.truthy (JsString.toLowerCase ext) = true).
  { destruct ext; [discriminate E | reflexivity]. }
  rewrite T. unfold mimeTypeMapGet. rewrite E.
  cbn [mimeTruthy]. now rewrite (mimeTypeMap_values_nonempty _ _ E).
Qed.

(** C6, where the code departs from it.  A name without any dot is taken
    whole as its own extension, so the name [pdf] is given the media type of
    the [pdf] entry instead of nothing; and an extension that is no entry of
    the table but a member of [Object.prototype] yields that member instead
    of nothing. *)
Theorem detectMimeTypeFromExtension_without_extension :
  detectMimeTypeFromExtension "pdf" = Some (MimeStr "application/pdf")
  /\ ~ Substring "." "pdf"
  /\ detectMimeTypeFromExtension "notes.constructor" = Some (MimeProto "constructor")
  /\ ownEntry mimeTypeMap "constructor" = None.
Proof.
  split; [reflexivity|]. split; [|split; reflexivity].
  intros H. apply includes_iff in H. discriminate H.
Qed.

(** ** File-name sanitizing *)

Lemma allChars_append (q : ascii -> bool) (a b : string) :
  allChars q (a ++ b) = allChars q a && allChars q b.
Proof.
  induction a as [|c a IH]; simpl; [reflexivity|].
  now rewrite IH, andb_assoc.
Qed.

Lemma allChars_take (q : ascii -> bool) (k : nat) (s : string) :
  allChars q s = true -> allChars q (Regex.take k s) = true.
Proof.
  revert s; induction k as [|k IH]; intros [|c s]; simpl; try reflexivity.
  intros H. apply andb_true_iff in H as [-> H]. now apply IH.
Qed.

Lemma allChars_drop (q : ascii -> bool) (k : nat) (s : string) :
  allChars q s = true -> allChars q (Regex.drop k s) = true.
Proof.
  revert s; induction k as [|k IH]; intros [|c s]; simpl; try tauto.
  intros H. apply andb_true_iff in H as [_ H]. now apply IH.
Qed.

Lemma allChars_dropTrailing (q cls : ascii -> bool) (s : string) :
  allChars q s = true -> allChars q (Sanitize.dropTrailing cls s) = true.
Proof.
  induction s as [|c s IH]; simpl; [reflexivity|].
  intros H. apply andb_true_iff in H as [C H]. specialize (IH H).
  destruct (Sanitize.dropTrailing cls s) as [|d t].
  - destruct (cls c); simpl; [reflexivity | now rewrite C].
  - change (allChars q (String c (String d t)) = true). simpl in *. now rewrite C.
Qed.

Lemma allChars_removeChars (q cls : ascii -> bool) (s : string) :
  allChars q s = true -> allChars q (Sanitize.removeChars cls s) = true.
Proof.
  induction s as [|c s IH]; simpl; [reflexivity|].
  intros H. apply andb_true_iff in H as [C H].
  destruct (cls c); simpl; [now apply IH | now rewrite C, IH].
Qed.

Lemma removeChars_removes (cls : ascii -> bool) (s : string) :
  allChars (fun c => negb (cls c)) (Sanitize.removeChars cls s) = true.
Proof.
  induction s as [|c s IH]; simpl; [reflexivity|].
  destruct (cls c) eqn:E; simpl; [exact IH | now rewrite E, IH].
Qed.

Lemma allChars_flush (q : ascii -> bool) (min : nat) (repl pending : string) :
  allChars q repl = true -> allChars q pending = true ->
  allChars q (Sanitize.flush min repl pending) = true.
Proof.
  intros R P. unfold Sanitize.flush. destruct pending; [reflexivity|].
  now destruct (Nat.leb _ _).
Qed.

(** Replacing runs keeps any property of characters that the input and the
    replacement both have. *)
Lemma allChars_replaceRunsFrom (q cls : ascii -> bool) (min : nat)
    (repl : string) (s : string) :
  allChars q repl = true ->
  forall pending,
    allChars q pending = true -> allChars q s = true ->
    allChars q (Sanitize.replaceRunsFrom cls min repl pending s) = true.
Proof.
  intros R. induction s as [|c s IH]; intros pending P S; simpl.
  - now apply allChars_flush.
  - simpl in S. apply andb_true_iff in S as [C S]. destruct (cls c).
    + apply IH; [|exact S]. rewrite allChars_append, P. simpl. now rewrite C.
    + rewrite allChars_append, (allChars_flush q min repl pending R P).
      simpl. rewrite C. now apply IH.
Qed.

(** With [min = 1] no character of the class survives, unless the
    replacement brings one. *)
Lemma replaceRunsFrom_clears (cls : ascii -> bool) (repl : string) (s : string) :
  allChars (fun c => negb (cls c)) repl = true ->
  forall pending,
    allChars (fun c => negb (cls c))
      (Sanitize.replaceRunsFrom cls 1 repl pending s) = true.
Proof.
  intros R. 
  assert (F : forall pending,
             allChars (fun c => negb (cls c)) (Sanitize.flush 1 repl pending) = true).
  { intros [|d p]; [reflexivity|]. unfold Sanitize.flush. simpl. exact R. }
  induction s as [|c s IH]; intros pending; simpl.
  - apply F.
  - destruct (cls c) eqn:E; [apply IH|].
    rewrite allChars_append, F. simpl. now rewrite E, IH.
Qed.

Lemma allChars_and (p q : ascii -> bool) (s : string) :
  allChars (fun c => p c && q c) s = allChars p s && allChars q s.
Proof.
  induction s as [|c s IH]; simpl; [reflexivity|].
  rewrite IH. destruct (p c), (q c), (allChars p s), (allChars q s); reflexivity.
Qed.

(** X1.  The sanitized name holds no unsafe character and no white space. *)
Theorem sanitizeFileName_clean (MAX_FILENAME_LENGTH : Z) (fileName : string) :
  allChars (fun c => negb (Sanitize.isUnsafe c) && negb (JsString.isWhiteSpace c))
    (sanitizeFileName MAX_FILENAME_LENGTH fileName) = true.
Proof.
  unfold sanitizeFileName. cbv zeta.
  destruct (JsString.truthy _); [|reflexivity].
  unfold Sanitize.substring0, Sanitize.stripEnds, Sanitize.replaceRuns.
  apply allChars_take, allChars_dropTrailing, allChars_drop.
  apply allChars_replaceRunsFrom; [reflexivity | reflexivity |].
  rewrite allChars_and. apply andb_true_iff. split.
  - apply removeChars_removes.
  - apply allChars_removeChars. now apply replaceRunsFrom_clears.
Qed.

Lemma length_take (k : nat) (s : string) : String.length (Regex.take k s) <= k.
Proof.
  revert s; induction k as [|k IH]; intros [|c s]; simpl; try lia.
  specialize (IH s). lia.
Qed.

Lemma take_all (k : nat) (s : string) :
  String.length s <= k -> Regex.take k s = s.
Proof.
  revert s; induction k as [|k IH]; intros [|c s]; simpl; try reflexivity; try lia.
  intros H. rewrite IH; [reflexivity | lia].
Qed.

Lemma noAdjacent_tail (cls : ascii -> bool) (c : ascii) (s : string) :
  noAdjacent cls (String c s) = true -> noAdjacent cls s = true.
Proof.
  destruct s as [|d s]; [reflexivity|].
  change (negb (cls c && cls d) && noAdjacent cls (String d s) = true -> noAdjacent cls (String d s) = true).
  intros H. now apply andb_true_iff in H as [_ H].
Qed.

Lemma noAdjacent_cons (cls : ascii -> bool) (c : ascii) (s : string) :
  cls c = false \/ headIs cls s = false ->
  noAdjacent cls s = true -> noAdjacent cls (String c s) = true.
Proof.
  destruct s as [|d s]; [reflexivity|].
  intros H N.
  change (negb (cls c && cls d) && noAdjacent cls (String d s) = true).
  rewrite N, andb_true_r. simpl in H. destruct H as [-> | ->];
    [reflexivity | now rewrite andb_false_r].
Qed.

Lemma noAdjacent_drop (cls : ascii -> bool) (k : nat) (s : string) :
  noAdjacent cls s = true -> noAdjacent cls (Regex.drop k s) = true.
Proof.
  revert s; induction k as [|k IH]; intros [|c s] H; simpl; try exact H.
  apply IH. now apply noAdjacent_tail in H.
Qed.

Lemma headIs_take (cls : ascii -> bool) (k : nat) (s : string) :
  headIs cls s = false -> headIs cls (Regex.take k s) = false.
Proof. destruct k, s; simpl; auto. Qed.

Lemma noAdjacent_take (cls : ascii -> bool) (k : nat) (s : string) :
  noAdjacent cls s = true -> noAdjacent cls (Regex.take k s) = true.
Proof.
  revert s; induction k as [|k IH]; intros [|c s] H; try reflexivity.
  change (noAdjacent cls (String c (Regex.take k s)) = true).
  pose proof (noAdjacent_tail cls c s H) as T.
  apply noAdjacent_cons; [|now apply IH].
  destruct s as [|d s]; [right; now destruct k|].
  change (negb (cls c && cls d) && noAdjacent cls (String d s) = true) in H.
  apply andb_true_iff in H as [H _]. apply negb_true_iff, andb_false_iff in H.
  destruct H as [H|H]; [now left | right].
  destruct k; [reflexivity | exact H].
Qed.

Lemma dropTrailing_head (cls : ascii -> bool) (s : string) :
  headIs cls s = false -> headIs cls (Sanitize.dropTrailing cls s) = false.
Proof.
  destruct s as [|c s]; [reflexivity|]. simpl. intros H.
  destruct (Sanitize.dropTrailing cls s); [now rewrite H | exact H].
Qed.

Lemma dropTrailing_head_same (cls : ascii -> bool) (s : string) :
  forall q, headIs q (Sanitize.dropTrailing cls s) = true -> headIs q s = true.
Proof.
  intros q. destruct s as [|c s]; [discriminate|]. simpl.
  destruct (Sanitize.dropTrailing cls s); [destruct (cls c); [discriminate|]|]; auto.
Qed.

Lemma noAdjacent_dropTrailing (cls : ascii -> bool) (s : string) :
  noAdjacent cls s = true -> noAdjacent cls (Sanitize.dropTrailing cls s) = true.
Proof.
  induction s as [|c s IH]; [reflexivity|]. intros H.
  pose proof (noAdjacent_tail cls c s H) as T. specialize (IH T).
  simpl. destruct (Sanitize.dropTrailing cls s) as [|d t] eqn:E.
  - now destruct (cls c).
  - apply noAdjacent_cons; [|exact IH].
    destruct (cls c) eqn:C; [right | now left].
    destruct (cls d) eqn:D; [|exact D]. exfalso.
    assert (X : headIs cls s = true).
    { apply (dropTrailing_head_same cls s cls). rewrite E. exact D. }
    destruct s as [|d' s]; [discriminate|]. simpl in X.
    change (negb (cls c && cls d') && noAdjacent cls (String d' s) = true) in H.
    rewrite C, X in H. discriminate.
Qed.

Lemma drop_run_head (cls : ascii -> bool) (s : string) :
  headIs cls (Regex.drop (Regex.run cls s) s) = false.
Proof.
  induction s as [|c s IH]; [reflexivity|]. simpl.
  destruct (cls c) eqn:E; simpl; [exact IH | exact E].
Qed.

Lemma flush_short (cls : ascii -> bool) (pending : string) :
  allChars cls pending = true ->
  String.length (Sanitize.flush 2 "_" pending) <= 1.
Proof.
  unfold Sanitize.flush. destruct pending as [|a [|b p]]; simpl; lia.
Qed.

Lemma noAdjacent_after_short (cls : ascii -> bool) (x : string) (c : ascii) (t : string) :
  String.length x <= 1 -> cls c = false -> noAdjacent cls t = true ->
  noAdjacent cls (x ++ String c t) = true.
Proof.
  intros L C N.
  assert (M : noAdjacent cls (String c t) = true)
    by (apply noAdjacent_cons; [now left | exact N]).
  destruct x as [|a [|b x]]; simpl in L; try lia; [exact M|].
  change (noAdjacent cls (String a (String c t)) = true).
  apply noAdjacent_cons; [right; exact C | exact M].
Qed.

Lemma replaceRunsFrom_collapses (s : string) :
  forall pending,
    allChars Sanitize.isSeparator pending = true ->
    noAdjacent Sanitize.isSeparator
      (Sanitize.replaceRunsFrom Sanitize.isSeparator 2 "_" pending s) = true.
Proof.
  induction s as [|c s IH]; intros pending P; simpl.
  - pose proof (flush_short _ pending P) as L.
    destruct (Sanitize.flush 2 "_" pending) as [|a [|b x]]; simpl in L; try lia;
      reflexivity.
  - destruct (Sanitize.isSeparator c) eqn:C.
    + apply IH. rewrite allChars_append, P. simpl. now rewrite C.
    + apply noAdjacent_after_short;
        [now apply (flush_short Sanitize.isSeparator) | exact C | now apply IH].
Qed.

(** X2.  The sanitized name is never empty, is at most as long as the larger of
    the configured length and the 16 characters of the placeholder, does not
    begin with a separator and holds no two separators in a row. *)
Theorem sanitizeFileName_shape (MAX_FILENAME_LENGTH : Z) (fileName : string) :
  let name := sanitizeFileName MAX_FILENAME_LENGTH fileName in
  name <> ""
  /\ String.length name <= Nat.max (Z.to_nat MAX_FILENAME_LENGTH) 16
  /\ headIs Sanitize.isSeparator name = false
  /\ noAdjacent Sanitize.isSeparator name = true.
Proof.
  cbv zeta. unfold sanitizeFileName. cbv zeta.
  destruct (JsString.truthy _) eqn:T.
  2:{ repeat split; [discriminate | simpl; lia]. }
  split; [intros E; rewrite E in T; discriminate|].
  unfold Sanitize.substring0, Sanitize.stripEnds, Sanitize.replaceRuns in *.
  split; [|split].
  - apply Nat.le_trans with (Z.to_nat MAX_FILENAME_LENGTH);
      [apply length_take | lia].
  - apply headIs_take, dropTrailing_head, drop_run_head.
  - apply noAdjacent_take, noAdjacent_dropTrailing, noAdjacent_drop.
    now apply replaceRunsFrom_collapses.
Qed.

Lemma trimEnd_keeps (s : string) :
  allChars (fun c => negb (JsString.isWhiteSpace c)) s = true ->
  JsString.trimEnd s = s.
Proof.
  induction s as [|c s IH]; [reflexivity|]. simpl.
  intros H. apply andb_true_iff in H as [C H]. rewrite (IH H).
  destruct s; [|reflexivity]. apply negb_true_iff in C. now rewrite C.
Qed.

Lemma trim_keeps (s : string) :
  allChars (fun c => negb (JsString.isWhiteSpace c)) s = true ->
  JsString.trim s = s.
Proof.
  intros H. unfold JsString.trim.
  assert (S : JsString.trimStart s = s).
  { destruct s as [|c s]; [reflexivity|]. simpl in *.
    apply andb_true_iff in H as [C _]. apply negb_true_iff in C. now rewrite C. }
  rewrite S. now apply trimEnd_keeps.
Qed.

Lemma replaceRuns_keeps (cls : ascii -> bool) (min : nat) (repl s : string) :
  allChars (fun c => negb (cls c)) s = true ->
  Sanitize.replaceRuns cls min repl s = s.
Proof.
  unfold Sanitize.replaceRuns. induction s as [|c s IH]; [reflexivity|]. simpl.
  intros H. apply andb_true_iff in H as [C H]. apply negb_true_iff in C.
  now rewrite C, (IH H).
Qed.

Lemma removeChars_keeps (cls : ascii -> bool) (s : string) :
  allChars (fun c => negb (cls c)) s = true -> Sanitize.removeChars cls s = s.
Proof.
  induction s as [|c s IH]; [reflexivity|]. simpl.
  intros H. apply andb_true_iff in H as [C H]. apply negb_true_iff in C.
  now rewrite C, (IH H).
Qed.

Lemma collapse_keeps (cls : ascii -> bool) (repl s : string) :
  forall pending,
    String.length pending <= 1 -> allChars cls pending = true ->
    noAdjacent cls (pending ++ s) = true ->
    Sanitize.replaceRunsFrom cls 2 repl pending s = pending ++ s.
Proof.
  induction s as [|c s IH]; intros pending L P N; simpl.
  - rewrite append_empty_r. unfold Sanitize.flush.
    destruct pending as [|a [|b p]]; simpl in L; try lia; reflexivity.
  - destruct (cls c) eqn:C.
    + destruct pending as [|a [|b p]]; simpl in L; try lia.
      * rewrite IH; [reflexivity | simpl; lia | simpl; now rewrite C | exact N].
      * exfalso. simpl in P. rewrite andb_true_r in P.
        change (negb (cls a && cls c) && noAdjacent cls (String c s) = true) in N.
        rewrite P, C in N. discriminate.
    + assert (F : Sanitize.flush 2 repl pending = pending).
      { unfold Sanitize.flush.
        destruct pending as [|a [|b p]]; simpl in L; try lia; reflexivity. }
      rewrite F. f_equal. f_equal.
      apply (IH ""); [simpl; lia | reflexivity|].
      simpl. destruct pending as [|a [|b p]]; simpl in L; try lia.
      * now apply noAdjacent_tail in N.
      * apply noAdjacent_tail in N. now apply noAdjacent_tail in N.
Qed.

Lemma dropTrailing_keeps (cls : ascii -> bool) (s : string) :
  s <> "" -> lastIs cls s = false -> Sanitize.dropTrailing cls s = s.
Proof.
  induction s as [|c s IH]; [congruence|]. intros _ H. simpl.
  destruct s as [|d s].
  - simpl in *. now rewrite H.
  - rewrite IH; [reflexivity | discriminate | exact H].
Qed.

(** X3.  A name that needs no cleaning is returned as it is: non-empty, within
    the configured length, without unsafe characters or white space, not
    beginning or ending with a separator and without two separators in a
    row. *)
Theorem sanitizeFileName_fixed_point (MAX_FILENAME_LENGTH : Z) (fileName : string) :
  fileName <> "" ->
  (Z.of_nat (String.length fileName) <= MAX_FILENAME_LENGTH)%Z ->
  allChars (fun c => negb (Sanitize.isUnsafe c) && negb (JsString.isWhiteSpace c))
    fileName = true ->
  headIs Sanitize.isSeparator fileName = false ->
  lastIs Sanitize.isSeparator fileName = false ->
  noAdjacent Sanitize.isSeparator fileName = true ->
  sanitizeFileName MAX_FILENAME_LENGTH fileName = fileName.
Proof.
  intros Ne L C H T N. rewrite allChars_and in C.
  apply andb_true_iff in C as [U Ws].
  unfold sanitizeFileName. cbv zeta.
  rewrite (trim_keeps _ Ws), (replaceRuns_keeps _ _ _ _ Ws),
    (removeChars_keeps _ _ U).
  unfold Sanitize.replaceRuns.
  rewrite (collapse_keeps Sanitize.isSeparator "_" fileName "");
    [|simpl; lia | reflexivity | exact N].
  change ("" ++ fileName) with fileName.
  unfold Sanitize.stripEnds.
  assert (R : Regex.run Sanitize.isSeparator fileName = 0).
  { destruct fileName as [|c s]; [reflexivity|]. simpl in *. now rewrite H. }
  rewrite R. change (Regex.drop 0 fileName) with fileName.
  rewrite (dropTrailing_keeps _ _ Ne T).
  unfold Sanitize.substring0. rewrite take_all by lia.
  destruct fileName; [now elim Ne | reflexivity].
Qed.

Lemma sanitizeFileName_fixed_point_witness :
  sanitizeFileName 255 "report_2024.final-v2.pdf" = "report_2024.final-v2.pdf".
Proof.
  apply sanitizeFileName_fixed_point;
    [discriminate | simpl; lia | reflexivity | reflexivity | reflexivity | reflexivity].
Defined.

(** ** More on the identifier extractor *)

Lemma trimStart_padding (ws s : string) :
  allChars JsString.isWhiteSpace ws = true ->
  JsString.trimStart (ws ++ s) = JsString.trimStart s.
Proof.
  induction ws as [|c ws IH]; [reflexivity|]. simpl.
  intros H. apply andb_true_iff in H as [-> H]. now apply IH.
Qed.

Lemma trimStart_blank (ws : string) :
  allChars JsString.isWhiteSpace ws = true -> JsString.trimStart ws = "".
Proof.
  induction ws as [|c ws IH]; [reflexivity|]. simpl.
  intros H. apply andb_true_iff in H as [-> H]. now apply IH.
Qed.

Lemma trimEnd_blank (ws : string) :
  allChars JsString.isWhiteSpace ws = true -> JsString.trimEnd ws = "".
Proof.
  induction ws as [|c ws IH]; [reflexivity|]. simpl.
  intros H. apply andb_true_iff in H as [C H]. now rewrite (IH H), C.
Qed.

Lemma trimEnd_padding (s ws : string) :
  allChars JsString.isWhiteSpace ws = true ->
  JsString.trimEnd (s ++ ws) = JsString.trimEnd s.
Proof.
  intros H. induction s as [|c s IH]; simpl; [now apply trimEnd_blank|].
  now rewrite IH.
Qed.

Lemma trimStart_suffix (s : string) :
  exists ws, allChars JsString.isWhiteSpace ws = true
             /\ s = ws ++ JsString.trimStart s.
Proof.
  induction s as [|c s (ws & A & E)]; [now exists ""|]. simpl.
  destruct (JsString.isWhiteSpace c) eqn:C.
  - exists (String c ws). simpl. rewrite C, A. split; [reflexivity | now rewrite <- E].
  - now exists "".
Qed.

Lemma trimEnd_prefix (s : string) :
  exists ws, allChars JsString.isWhiteSpace ws = true
             /\ s = JsString.trimEnd s ++ ws.
Proof.
  induction s as [|c s (ws & A & E)]; [now exists ""|].
  cbn [JsString.trimEnd].
  destruct (JsString.trimEnd s) as [|d t] eqn:T.
  - destruct (JsString.isWhiteSpace c) eqn:C.
    + exists (String c ws). split; [simpl; now rewrite C, A|].
      change ("" ++ String c ws) with (String c ("" ++ ws)). now rewrite <- E.
    + exists ws. split; [exact A|].
      change (String c "" ++ ws) with (String c ("" ++ ws)). now rewrite <- E.
  - exists ws. split; [exact A|].
    change (String c (String d t) ++ ws) with (String c (String d t ++ ws)).
    now rewrite <- E.
Qed.

(** [trim] only removes white space from the two ends. *)
Lemma trim_decomposition (s : string) :
  exists a b,
    allChars JsString.isWhiteSpace a = true
    /\ allChars JsString.isWhiteSpace b = true
    /\ s = a ++ JsString.trim s ++ b.
Proof.
  destruct (trimStart_suffix s) as (a & A & E).
  destruct (trimEnd_prefix (JsString.trimStart s)) as (b & B & F).
  exists a, b. repeat split; try assumption.
  unfold JsString.trim. now rewrite <- F.
Qed.

Lemma trim_padding (a s b : string) :
  allChars JsString.isWhiteSpace a = true ->
  allChars JsString.isWhiteSpace b = true ->
  JsString.trim (a ++ s ++ b) = JsString.trim s.
Proof.
  intros A B. unfold JsString.trim. rewrite (trimStart_padding a _ A).
  destruct (trimStart_suffix s) as (ws & Ws & E).
  destruct (JsString.trimStart s) as [|c t] eqn:T.
  - rewrite append_empty_r in E. subst s.
    rewrite (trimStart_padding ws b Ws), (trimStart_blank b B). reflexivity.
  - assert (X : JsString.trimStart (s ++ b) = String c t ++ b).
    { rewrite E at 1.
      replace ((ws ++ String c t) ++ b) with (ws ++ (String c t ++ b)).
      - rewrite (trimStart_padding ws _ Ws). simpl.
        assert (C : JsString.isWhiteSpace c = false).
        { destruct s as [|x s]; [discriminate|].
          clear E. revert T. generalize (String x s). intros u.
          induction u as [|y u IH]; simpl; [discriminate|].
          destruct (JsString.isWhiteSpace y) eqn:Y; [exact IH|].
          now intros [= <- _]. }
        now rewrite C.
      - clear. induction ws; simpl; [reflexivity | now f_equal]. }
    rewrite X. now apply trimEnd_padding.
Qed.

(** X4.  White space around a non-empty URL does not change what the extractor
    does. *)
Theorem extractFileId_ignores_padding (before url after : string) :
  url <> "" ->
  allChars JsString.isWhiteSpace before = true ->
  allChars JsString.isWhiteSpace after = true ->
  extractFileId (UrlString (before ++ url ++ after)) = extractFileId (UrlString url).
Proof.
  intros Ne A B. unfold extractFileId.
  assert (T : JsString.truthy (before ++ url ++ after) = true).
  { destruct before; simpl; [|reflexivity]. destruct url; [now elim Ne | reflexivity]. }
  assert (T' : JsString.truthy url = true) by (destruct url; [now elim Ne | reflexivity]).
  rewrite T, T'. cbn [negb]. now rewrite (trim_padding before url after A B).
Qed.

Lemma extractFileId_ignores_padding_witness :
  extractFileId (UrlString ("  " ++ "https://drive.google.com/open?id=ABC123" ++ " "))
  = extractFileId (UrlString "https://drive.google.com/open?id=ABC123").
Proof.
  apply extractFileId_ignores_padding; [discriminate | reflexivity | reflexivity].
Defined.

Lemma substring_trans (a b c : string) :
  Substring a b -> Substring b c -> Substring a c.
Proof.
  intros (p & q & ->) (p' & q' & ->). exists (p' ++ p), (q ++ q').
  clear. induction p' as [|x p' IH]; simpl.
  - induction p as [|y p IH]; simpl.
    + induction a as [|z a IH]; simpl; [reflexivity | now f_equal].
    + now f_equal.
  - now f_equal.
Qed.

(** X5.  An identifier the extractor returns is a non-empty run of letters,
    digits, hyphens and underscores that occurs in the URL. *)
Theorem extractFileId_identifier (url : UrlArg) (id : string) :
  extractFileId url = Ok id ->
  id <> ""
  /\ allChars idChar id = true
  /\ exists s, url = UrlString s /\ Substring id s.
Proof.
  unfold extractFileId. destruct url as [s|]; [|discriminate].
  destruct (negb (JsString.truthy s)); [discriminate|].
  destruct (firstMatch fileIdPatterns (JsString.trim s)) as [g|] eqn:M; [|discriminate].
  intros [= <-].
  apply (firstMatch_first_capture _ _ _ fileIdPatterns_are_idPatterns) in M.
  destruct M as (_ & pre & post & _ & _ & _ & (b & r & E & Ne & A & _)).
  repeat split; [exact Ne | exact A|].
  exists s. split; [reflexivity|].
  apply (substring_trans g (JsString.trim s) s).
  - exists (b ++ pre), (post ++ r). rewrite E. clear.
    induction b as [|x b IH]; simpl; [|now f_equal].
    induction pre as [|y pre IH]; simpl; [reflexivity | now f_equal].
  - destruct (trim_decomposition s) as (x & y & _ & _ & D). now exists x, y.
Qed.

Lemma extractFileId_identifier_witness :
  extractFileId (UrlString "https://docs.google.com/spreadsheets/d/1aB-c_9/edit")
  = Ok "1aB-c_9"
  /\ allChars idChar "1aB-c_9" = true.
Proof.
  split; [reflexivity|].
  apply (extractFileId_identifier
           (UrlString "https://docs.google.com/spreadsheets/d/1aB-c_9/edit") "1aB-c_9").
  reflexivity.
Defined.

(** ** More on media types and formats *)

Lemma mimeTypeMapGet_truthy (k : string) :
  (if mimeTruthy (mimeTypeMapGet k) then mimeTypeMapGet k else None)
  = mimeTypeMapGet k.
Proof.
  unfold mimeTypeMapGet. destruct (ownEntry mimeTypeMap k) as [v|] eqn:E.
  - cbn [mimeTruthy]. now rewrite (mimeTypeMap_values_nonempty _ _ E).
  - now destruct (existsb _ _).
Qed.

Lemma toLowerCase_empty (s : string) :
  JsString.truthy (JsString.toLowerCase s) = JsString.truthy s.
Proof. now destruct s. Qed.

Lemma detect_of_segment (e : string) :
  (if JsString.truthy (JsString.toLowerCase e)
   then (if mimeTruthy (mimeTypeMapGet (JsString.toLowerCase e))
         then mimeTypeMapGet (JsString.toLowerCase e)
         else None)
   else None)
  = mimeTypeMapGet (JsString.toLowerCase e).
Proof.
  rewrite mimeTypeMapGet_truthy, toLowerCase_empty.
  destruct e; reflexivity.
Qed.

Lemma detect_after_dot (base segment : string) :
  ~ Substring "." segment ->
  detectMimeTypeFromExtension (base ++ "." ++ segment)
  = mimeTypeMapGet (JsString.toLowerCase segment).
Proof.
  intros N. unfold detectMimeTypeFromExtension.
  change (base ++ "." ++ segment) with (base ++ String "." segment).
  rewrite (pop_split_after_last "." base segment N). apply detect_of_segment.
Qed.

(** X6.  The media type depends only on the text after the last dot of the name,
    or on the whole name when it has no dot, and not on its letter case: it
    is what the table [mimeTypeMap] holds under that text in lower case. *)
Theorem detectMimeTypeFromExtension_last_segment (segment : string) :
  ~ Substring "." segment ->
  (forall base,
      detectMimeTypeFromExtension (base ++ "." ++ segment)
      = mimeTypeMapGet (JsString.toLowerCase segment))
  /\ detectMimeTypeFromExtension segment
     = mimeTypeMapGet (JsString.toLowerCase segment).
Proof.
  intros N. split.
  - intros base. now apply detect_after_dot.
  - unfold detectMimeTypeFromExtension, JsString.split.
    rewrite (splitParts_no_separator "." segment N). apply detect_of_segment.
Qed.

Lemma detectMimeTypeFromExtension_last_segment_witness :
  detectMimeTypeFromExtension ("archive.tar" ++ "." ++ "ZIP")
  = Some (MimeStr "application/zip").
Proof.
  assert (N : ~ Substring "." "ZIP")
    by (intros H; apply includes_iff in H; discriminate H).
  rewrite (proj1 (detectMimeTypeFromExtension_last_segment "ZIP" N) "archive.tar").
  reflexivity.
Defined.

(** X7.  [getAvailableFormats] lists nothing exactly for an absent or empty media
    type; any other media type gets a list without repetition that starts
    with [pdf]; and for a document, spreadsheet or presentation the list
    holds the native format the endpoint strategy exports. *)
Theorem getAvailableFormats_lists (mimeType : option string) :
  (getAvailableFormats mimeType = [] <-> mimeType = None \/ mimeType = Some "")
  /\ (getAvailableFormats mimeType <> [] ->
      hd "" (getAvailableFormats mimeType) = "pdf")
  /\ NoDup (getAvailableFormats mimeType)
  /\ (forall kind native,
        Workspace mimeType kind native ->
        In native (getAvailableFormats mimeType)
        /\ In "pdf" (getAvailableFormats mimeType)).
Proof.
  destruct mimeType as [m|]; simpl.
  2:{ split; [split; [now left | reflexivity]|].
      split; [intros H; now elim H|]. split; [constructor|].
      intros kind native W. inversion W. }
  destruct (JsString.truthy m) eqn:T; cbn [negb].
  2:{ assert (m = "") as -> by (destruct m; [reflexivity | discriminate]).
      split; [split; [now right | reflexivity]|].
      split; [intros H; now elim H|]. split; [constructor|].
      intros kind native W. inversion W; subst;
        match goal with
        | H : Substring _ "" |- _ => apply includes_iff in H; discriminate H
        end. }
  assert (Ne : Some m <> Some "") by (intros [= ->]; discriminate T).
  assert (D : forall l : list string, NoDup l -> l <> [] -> hd "" l = "pdf" ->
              (forall kind native, Workspace (Some m) kind native ->
                 In native l /\ In "pdf" l) ->
              (l = [] <-> Some m = None \/ Some m = Some "")
              /\ (l <> [] -> hd "" l = "pdf") /\ NoDup l
              /\ (forall kind native, Workspace (Some m) kind native ->
                    In native l /\ In "pdf" l)).
  { intros l ND NE H W. split; [|split; [intros _; exact H | split; [exact ND | exact W]]].
    split.
    - intros E. now elim NE.
    - intros [E|E]; [discriminate | now elim Ne]. }
  assert (ND : forall l : list string,
             forallb (fun x => Nat.eqb (count_occ string_dec l x) 1) l = true ->
             NoDup l).
  { intros l H. apply (NoDup_count_occ' string_dec). intros x I.
    rewrite forallb_forall in H. now apply Nat.eqb_eq, H. }
  destruct (JsString.includes "document" m) eqn:I1;
    [|destruct (JsString.includes "spreadsheet" m) eqn:I2;
      [|destruct (JsString.includes "presentation" m) eqn:I3;
        [|destruct (JsString.includes "drawing" m) eqn:I4]]];
    (apply D; [apply ND; reflexivity | discriminate | reflexivity |]);
    intros kind native W; inversion W; subst;
    repeat match goal with
           | H : Substring _ _ |- _ => apply includes_iff in H
           | H : ~ Substring _ _ |- _ => apply includes_false_iff in H
           end;
    try congruence; simpl; tauto.
Qed.

(** ** The table of extensions *)

(** X8.  Every entry of [mimeTypeMap] is reachable: a name that ends in a dot
    followed by a key of the table gets the media type of that very entry.
    So no key is shadowed by an earlier duplicate, and no key holds a dot or
    an upper-case letter that would keep the look-up from finding it. *)
Theorem mimeTypeMap_entries_reachable (k v base : string) :
  In (k, v) mimeTypeMap ->
  detectMimeTypeFromExtension (base ++ "." ++ k) = Some (MimeStr v).
Proof.
  unfold mimeTypeMap. intros I.
  repeat (destruct I as [[= <- <-]|I];
          [apply detectMimeTypeFromExtension_known;
           [apply includes_false_iff; reflexivity | reflexivity]|]).
  destruct I.
Qed.

Lemma mimeTypeMap_entries_reachable_witness :
  detectMimeTypeFromExtension ("notes" ++ "." ++ "txt") = Some (MimeStr "text/plain").
Proof.
  apply mimeTypeMap_entries_reachable. unfold mimeTypeMap.
  repeat (first [left; reflexivity | right]).
Defined.

(** ** More on draining a body *)

(** X9.  [streamToBuffer] resolves exactly when ['end'] comes after chunks and
    pauses only, the pauses together being shorter than the 60 s of the
    timer and the chunks together (if there are any) no larger than
    [MAX_BUFFER_SIZE]; the buffer is then the chunks in order, whole, and
    what the stream emits after ['end'] is of no account. *)
Theorem streamToBuffer_resolves (CONFIG : Config) (stream : Readable) (b : Buffer.t) :
  streamToBuffer CONFIG stream = Ok b <->
  exists events rest,
    stream = List.app events (OnEnd :: rest)
    /\ Unsettled CONFIG events
    /\ b = List.concat (chunksOf events).
Proof.
  unfold streamToBuffer. split.
  - intros D.
    destruct (streamToBufferFrom_settles CONFIG stream [] 0%Z 0%N eq_refl)
      as (passed & tail & E & F & I & C & O).
    rewrite D in O.
    destruct tail as [|[c| |e|ms] tail];
      [ discriminate O
      | destruct O as [_ O]; discriminate O
      |
      | discriminate O
      | destruct O as [_ O]; discriminate O ].
    injection O as ->. exists passed, tail. split; [exact E|].
    split; [|reflexivity]. split; [exact F|]. split; [exact I|].
    destruct C as [C|C]; [now left | right; lia].
  - intros (events & rest & -> & (F & I & C) & ->).
    rewrite streamToBufferFrom_unsettled;
      [reflexivity | exact F | exact I | destruct C as [C|C]; [now left | right; lia]].
Qed.

(** X10.  The ways [streamToBuffer] rejects.  After chunks and pauses that
    leave the drain unsettled: a chunk that takes the total above
    [MAX_BUFFER_SIZE] rejects with the too-large error at once; an ['error']
    event rejects with its error; a pause that reaches the 60 s of the timer
    rejects with the timeout error, whatever the stream would emit after it,
    ['end'] included; and so does a stream that emits nothing more. *)
Theorem streamToBuffer_rejects (CONFIG : Config) (events : Readable) :
  Unsettled CONFIG events ->
  (forall chunk rest,
      (Z.of_nat (length (List.concat (chunksOf events))) + Z.of_nat (length chunk)
       > MAX_BUFFER_SIZE CONFIG)%Z ->
      streamToBuffer CONFIG (List.app events (OnData chunk :: rest))
      = Throw (ErrorObj ("File too large to process in memory (>"
                         ++ maxBufferSizeMB CONFIG ++ "MB)")))
  /\ (forall e rest,
        streamToBuffer CONFIG (List.app events (OnError e :: rest)) = Throw e)
  /\ (forall ms rest,
        (DRAIN_TIMEOUT <= idleOf events + ms)%N ->
        streamToBuffer CONFIG (List.app events (Idle ms :: rest))
        = Throw (ErrorObj "Timeout while converting stream to buffer"))
  /\ streamToBuffer CONFIG events
     = Throw (ErrorObj "Timeout while converting stream to buffer").
Proof.
  intros U. pose proof U as (F & I & C).
  assert (C' : chunksOf events = []
               \/ (0 + Z.of_nat (length (List.concat (chunksOf events)))
                   <= MAX_BUFFER_SIZE CONFIG)%Z)
    by (destruct C as [C|C]; [now left | right; lia]).
  split; [|split; [|split]].
  - intros chunk rest G. unfold streamToBuffer.
    rewrite streamToBufferFrom_unsettled by assumption.
    cbn [streamToBufferFrom].
    destruct (Z.gtb_spec (0 + Z.of_nat (length (List.concat (chunksOf events)))
                          + Z.of_nat (length chunk)) (MAX_BUFFER_SIZE CONFIG));
      [reflexivity | lia].
  - intros e rest. now apply streamToBuffer_error_event.
  - intros ms rest T. unfold streamToBuffer.
    rewrite streamToBufferFrom_unsettled by assumption.
    cbn [streamToBufferFrom].
    destruct (N.leb_spec DRAIN_TIMEOUT (0 + idleOf events + ms)); [reflexivity | lia].
  - unfold streamToBuffer. rewrite <- (app_nil_r events).
    now rewrite streamToBufferFrom_unsettled by assumption.
Qed.

(** An instance: the body is complete after 60 s, and that is too late. *)
Lemma streamToBuffer_rejects_witness :
  streamToBuffer Scripted.config
    (List.app [OnData (Buffer.ofString "%PDF"); Idle 59999; OnData (Buffer.ofString "-1.4")]
       (Idle 1 :: [OnEnd]))
  = Throw (ErrorObj "Timeout while converting stream to buffer").
Proof.
  assert (U : Unsettled Scripted.config
                [OnData (Buffer.ofString "%PDF"); Idle 59999;
                 OnData (Buffer.ofString "-1.4")]).
  { split; [reflexivity|]. split; [reflexivity|]. right. apply Z.leb_le. reflexivity. }
  apply (proj1 (proj2 (proj2 (streamToBuffer_rejects Scripted.config _ U)))).
  apply N.leb_le. reflexivity.
Defined.

(** ** More on the candidate endpoints *)




(** ** Metadata resolution *)

(** X12.  [getFileInfo] never rejects.  When the metadata API answers, its name
    and media type are returned and the view page is not requested; when the
    API call is rejected the view page is requested, and the media type is
    then the one the extension of the scraped name gives; when that request
    is rejected too, the name is [file_<id>] and the media type is absent. *)
Theorem getFileInfo_fallbacks {W : Type} {transport : Transport W}
    (fileId : string) (w : W) :
  let api := "https://www.googleapis.com/drive/v3/files/" ++ fileId in
  let page := "https://drive.google.com/file/d/" ++ fileId ++ "/view" in
  (exists fileInfo w', getFileInfo fileId w = (Ok fileInfo, w'))
  /\ (forall d w1,
        getJson api w = (Ok d, w1) ->
        exists size,
          getFileInfo fileId w
          = (Ok (IFileInfo.mk (apiName d) (option_map MimeStr (apiMimeType d)) size), w1))
  /\ (forall e w1 html w2,
        getJson api w = (Throw e, w1) -> getText page w1 = (Ok html, w2) ->
        exists name,
          getFileInfo fileId w
          = (Ok (IFileInfo.mk name (detectMimeTypeFromExtension name) None), w2))
  /\ (forall e w1 e' w2,
        getJson api w = (Throw e, w1) -> getText page w1 = (Throw e', w2) ->
        getFileInfo fileId w = (Ok (IFileInfo.mk ("file_" ++ fileId) None None), w2)).
Proof.
  cbv zeta. split; [apply getFileInfo_resolves|].
  unfold getFileInfo, getFileInfoFromPage, tryCatch, bind, ret.
  split; [|split].
  - intros d w1 ->. now eexists.
  - intros e w1 html w2 -> ->. now eexists.
  - now intros e w1 e' w2 -> ->.
Qed.

(** ** More on retrying *)

Lemma retryLoop_first_try {W : Type} {transport : Transport W} {A : Type}
    (fn : Async W A) (maxRetries baseDelay : Z) (fuel : nat) (attempt : Z)
    (lastError : Thrown) (w : W) (v : A) (w' : W) :
  fn w = (Ok v, w') ->
  retryLoop fn maxRetries baseDelay (S fuel) attempt lastError w = (Ok v, w').
Proof. intros H. simpl. unfold tryCatch. now rewrite H. Qed.

(** X13.  Around a function that resolves, [retryWithBackoff] with a count that is
    not negative is that one call: no second attempt, no delay.  This is the
    case of the only call site, since [getFileInfo] never rejects. *)
Theorem retryWithBackoff_single_call {W : Type} {transport : Transport W}
    (fileId : string) (maxRetries baseDelay : Z) (w : W) :
  (0 <= maxRetries)%Z ->
  retryWithBackoff (getFileInfo fileId) maxRetries baseDelay w
  = getFileInfo fileId w.
Proof.
  intros H. unfold retryWithBackoff.
  destruct (getFileInfo_resolves fileId w) as (fileInfo & w' & E).
  rewrite E.
  destruct (Z.to_nat (maxRetries + 1)) as [|fuel] eqn:F; [lia|].
  now apply retryLoop_first_try.
Qed.

Lemma retryWithBackoff_single_call_witness :
  retryWithBackoff (getFileInfo "ABC123") 3 1000 (Scripted.start [] [] [])
  = getFileInfo "ABC123" (Scripted.start [] [] []).
Proof. apply retryWithBackoff_single_call. lia. Defined.

(** ** Calls that end before the first candidate *)

(** X14.  A URL the extractor refuses makes [download] resolve to a failure
    carrying the extractor's message, one of two texts, and no request is
    made: the world is left as it was. *)
Theorem download_refused_url {W : Type} {transport : Transport W}
    (CONFIG : Config) (url : UrlArg) (options : IDownloadOptions.t) (w : W)
    (e : Thrown) :
  extractFileId url = Throw e ->
  (e = invalidUrl \/ e = fileIdNotFound)
  /\ download CONFIG url options w = (failure (messageOr "Unknown error" e), w).
Proof.
  intros X. split.
  - unfold extractFileId in X. destruct url as [s|]; [|left; congruence].
    destruct (negb (JsString.truthy s)); [left; congruence|].
    destruct (firstMatch _ _); [discriminate | right; congruence].
  - unfold download, downloadBody, bind, lift. now rewrite X.
Qed.

Lemma download_refused_url_witness :
  download Scripted.config (UrlString "https://example.com/nothing-here")
    IDownloadOptions.empty (Scripted.start [] [] [])
  = (failure "File ID not found in URL. Please verify it is a valid Google Drive URL",
     Scripted.start [] [] []).
Proof.
  apply (download_refused_url Scripted.config
           (UrlString "https://example.com/nothing-here") IDownloadOptions.empty
           (Scripted.start [] [] []) fileIdNotFound).
  reflexivity.
Defined.

(** X15.  With a negative [maxRetries] the loop of [retryWithBackoff] is not
    entered: for a URL that holds an identifier, [download] resolves to the
    failure ['Unknown error'] without a single request. *)
Theorem download_negative_maxRetries {W : Type} {transport : Transport W}
    (CONFIG : Config) (url : UrlArg) (options : IDownloadOptions.t) (w : W)
    (fileId : string) :
  extractFileId url = Ok fileId ->
  (maxRetriesOf CONFIG options < 0)%Z ->
  download CONFIG url options w = (failure "Unknown error", w).
Proof.
  intros X N. unfold download, downloadBody, bind, lift. rewrite X.
  unfold retryWithBackoff.
  replace (Z.to_nat (maxRetriesOf CONFIG options + 1)) with 0 by lia.
  reflexivity.
Qed.

Lemma download_negative_maxRetries_witness :
  download Scripted.config (UrlString "https://drive.google.com/open?id=ABC123")
    (IDownloadOptions.mk None (Some (-1)%Z) None None)
    (Scripted.start [] [] [Ok Scripted.pdf])
  = (failure "Unknown error", Scripted.start [] [] [Ok Scripted.pdf]).
Proof.
  apply (download_negative_maxRetries Scripted.config
           (UrlString "https://drive.google.com/open?id=ABC123")
           (IDownloadOptions.mk None (Some (-1)%Z) None None)
           (Scripted.start [] [] [Ok Scripted.pdf]) "ABC123");
    [reflexivity | reflexivity].
Defined.

(** ** The loop over the candidates *)

(** X16.  The first candidate whose request answers without reporting HTML ends
    the loop, whatever mix of rejections and HTML pages came before it: the
    result of [download] is that of materializing this answer, and the world
    is the one right after this request, so no later candidate is
    requested. *)
Theorem download_first_acceptable_answer {W : Type} {transport : Transport W}
    (CONFIG : Config) (url : UrlArg) (options : IDownloadOptions.t)
    (w w0 w1 w2 : W) (fileId : string) (fileInfo : IFileInfo.t)
    (skipped : list string) (candidate : string) (later : list string)
    (response : AxiosResponse) :
  extractFileId url = Ok fileId ->
  retryWithBackoff (getFileInfo fileId) (maxRetriesOf CONFIG options)
    (DEFAULT_RETRY_DELAY CONFIG) w = (Ok fileInfo, w0) ->
  callGetDownloadUrls fileId (IFileInfo.mimeType fileInfo) (exportFormatOf options)
  = Ok (List.app skipped (candidate :: later)) ->
  Skipped skipped w0 w1 ->
  getStream candidate w1 = (Ok response, w2) ->
  ~ ReportsHtml response ->
  download CONFIG url options w
  = (match processDownloadResponse CONFIG response fileInfo fileId
             (asBufferOf options) (exportFormatOf options) with
     | Ok result => result
     | Throw e => failure (messageOr "Unknown error" e)
     end, w2).
Proof.
  intros X R C S G N. unfold download, downloadBody, bind, lift, ret.
  rewrite X, R, C.
  destruct (fetchLoop_skips CONFIG fileId fileInfo (asBufferOf options)
              (exportFormatOf options) skipped candidate later w0 w1 S None)
    as [response' ->].
  cbn [fetchLoop]. rewrite G, (not_reportsHtml_includes response N).
  now destruct (processDownloadResponse _ _ _ _ _ _).
Qed.

Lemma download_first_acceptable_answer_witness :
  let url := UrlString "https://drive.google.com/file/d/ABC123/view" in
  let w := Scripted.start [Ok (mkApiFile "a.pdf" (Some "application/pdf") None)] []
             [Scripted.networkError; Ok Scripted.html; Ok Scripted.pdf;
              Ok Scripted.html] in
  exists r w',
    download Scripted.config url IDownloadOptions.empty w = (r, w')
    /\ IDownloadResult.success r = true
    /\ Scripted.streamReplies w' = [Ok Scripted.html]
    /\ length (Scripted.journal w') = 4.
Proof.
  cbv zeta.
  pose (api := Scripted.Requested "https://www.googleapis.com/drive/v3/files/ABC123").
  pose (skipped := [userContentUrl "ABC123" "&authuser=0";
                    userContentUrl "ABC123" "&confirm=t"]).
  pose (candidate := userContentUrl "ABC123" "").
  pose (w0 := Scripted.mkWorld [] []
                [Scripted.networkError; Ok Scripted.html; Ok Scripted.pdf;
                 Ok Scripted.html] [api]).
  pose (w1 := Scripted.mkWorld [] [] [Ok Scripted.pdf; Ok Scripted.html]
                (api :: map Scripted.Requested skipped)).
  pose (w2 := Scripted.mkWorld [] [] [Ok Scripted.html]
                (api :: map Scripted.Requested (List.app skipped [candidate]))).
  eexists; exists w2. split.
  - apply (download_first_acceptable_answer Scripted.config
             (UrlString "https://drive.google.com/file/d/ABC123/view")
             IDownloadOptions.empty
             (Scripted.start [Ok (mkApiFile "a.pdf" (Some "application/pdf") None)] []
                [Scripted.networkError; Ok Scripted.html; Ok Scripted.pdf;
                 Ok Scripted.html])
             w0 w1 w2 "ABC123"
             (IFileInfo.mk "a.pdf" (Some (MimeStr "application/pdf")) None)
             skipped candidate (legacyUrls "ABC123") Scripted.pdf).
    + reflexivity.
    + reflexivity.
    + reflexivity.
    + apply (skipped_rejected _ _ w0 (ErrorObj "Network Error")
               (Scripted.mkWorld [] [] [Ok Scripted.html; Ok Scripted.pdf; Ok Scripted.html]
                  [api; Scripted.Requested (userContentUrl "ABC123" "&authuser=0")])
               w1); [reflexivity|].
      apply (skipped_html _ _ _ Scripted.html w1 w1);
        [ reflexivity
        | exists "text/html; charset=utf-8"; split;
          [reflexivity | exists "", "; charset=utf-8"; reflexivity]
        | apply skipped_none ].
    + reflexivity.
    + intros (ct & E & S). injection E as <-.
      apply includes_iff in S. discriminate S.
  - split; [reflexivity|]. split; reflexivity.
Defined.

(** X17.  When the request of the last candidate is rejected, after any mix of
    rejections and HTML pages from the candidates before it, [download]
    resolves to the failure carrying the message of that last rejection
    (['Unknown error'] when what was thrown is not an [Error]); the earlier
    rejections are not reported. *)
Theorem download_last_rejection {W : Type} {transport : Transport W}
    (CONFIG : Config) (url : UrlArg) (options : IDownloadOptions.t)
    (w w0 w1 w2 : W) (fileId : string) (fileInfo : IFileInfo.t)
    (skipped : list string) (last : string) (e : Thrown) :
  extractFileId url = Ok fileId ->
  retryWithBackoff (getFileInfo fileId) (maxRetriesOf CONFIG options)
    (DEFAULT_RETRY_DELAY CONFIG) w = (Ok fileInfo, w0) ->
  callGetDownloadUrls fileId (IFileInfo.mimeType fileInfo) (exportFormatOf options)
  = Ok (List.app skipped [last]) ->
  Skipped skipped w0 w1 ->
  getStream last w1 = (Throw e, w2) ->
  download CONFIG url options w = (failure (messageOr "Unknown error" e), w2).
Proof.
  intros X R C S G. unfold download, downloadBody, bind, lift, ret.
  rewrite X, R, C.
  destruct (fetchLoop_skips CONFIG fileId fileInfo (asBufferOf options)
              (exportFormatOf options) skipped last [] w0 w1 S None)
    as [response' ->].
  cbn [fetchLoop]. rewrite G. now destruct e.
Qed.

Lemma download_last_rejection_witness :
  let url := UrlString "https://drive.google.com/file/d/ABC123/view" in
  let w := Scripted.start [Ok (mkApiFile "a.pdf" (Some "application/pdf") None)] []
             [Throw (ErrorObj "first"); Ok Scripted.html; Throw (ErrorObj "third");
              Ok Scripted.html; Throw (ErrorObj "fifth")] in
  exists w', download Scripted.config url IDownloadOptions.empty w
             = (failure "fifth", w').
Proof.
  cbv zeta.
  pose (api := Scripted.Requested "https://www.googleapis.com/drive/v3/files/ABC123").
  pose (u1 := userContentUrl "ABC123" "&authuser=0").
  pose (u2 := userContentUrl "ABC123" "&confirm=t").
  pose (u3 := userContentUrl "ABC123" "").
  pose (u4 := "https://drive.google.com/uc?export=download&id=ABC123").
  pose (u5 := "https://drive.google.com/uc?id=ABC123&export=download").
  pose (visited (urls : list string) (replies : list (Outcome AxiosResponse)) :=
          Scripted.mkWorld [] [] replies (api :: map Scripted.Requested urls)).
  exists (visited [u1; u2; u3; u4; u5] []).
  apply (download_last_rejection Scripted.config
           (UrlString "https://drive.google.com/file/d/ABC123/view")
           IDownloadOptions.empty
           (Scripted.start [Ok (mkApiFile "a.pdf" (Some "application/pdf") None)] []
              [Throw (ErrorObj "first"); Ok Scripted.html; Throw (ErrorObj "third");
               Ok Scripted.html; Throw (ErrorObj "fifth")])
           (visited [] [Throw (ErrorObj "first"); Ok Scripted.html;
                        Throw (ErrorObj "third"); Ok Scripted.html;
                        Throw (ErrorObj "fifth")])
           (visited [u1; u2; u3; u4] [Throw (ErrorObj "fifth")])
           (visited [u1; u2; u3; u4; u5] [])
           "ABC123" (IFileInfo.mk "a.pdf" (Some (MimeStr "application/pdf")) None)
           [u1; u2; u3; u4] u5 (ErrorObj "fifth")).
  - reflexivity.
  - reflexivity.
  - reflexivity.
  - apply (skipped_rejected _ _ _ (ErrorObj "first")
             (visited [u1] [Ok Scripted.html; Throw (ErrorObj "third");
                            Ok Scripted.html; Throw (ErrorObj "fifth")]));
      [reflexivity|].
    apply (skipped_html _ _ _ Scripted.html
             (visited [u1; u2] [Throw (ErrorObj "third"); Ok Scripted.html;
                                Throw (ErrorObj "fifth")]));
      [ reflexivity
      | exists "text/html; charset=utf-8"; split;
        [reflexivity | exists "", "; charset=utf-8"; reflexivity]
      | ].
    apply (skipped_rejected _ _ _ (ErrorObj "third")
             (visited [u1; u2; u3] [Ok Scripted.html; Throw (ErrorObj "fifth")]));
      [reflexivity|].
    apply (skipped_html _ _ _ Scripted.html
             (visited [u1; u2; u3; u4] [Throw (ErrorObj "fifth")]));
      [ reflexivity
      | exists "text/html; charset=utf-8"; split;
        [reflexivity | exists "", "; charset=utf-8"; reflexivity]
      | apply skipped_none ].
  - reflexivity.
Defined.

(** ** The name and media type of an exported document *)












(** ** Where a success comes from *)

Lemma mimeOrOctet_nonempty (m : option Mime) : mimeOrOctet m <> MimeStr "".
Proof.
  unfold mimeOrOctet. destruct m as [[s|k]|]; cbn [mimeTruthy]; try discriminate.
  destruct s; cbn [JsString.truthy]; discriminate.
Qed.

Section Origin.
Context {W : Type} {transport : Transport W}.
Variable CONFIG : Config.

Lemma processDownloadResponse_consistent (response : AxiosResponse)
    (fileInfo : IFileInfo.t) (fileId : string) (asBuffer : bool)
    (exportFormat : string) (r : IDownloadResult.t) :
  processDownloadResponse CONFIG response fileInfo fileId asBuffer exportFormat = Ok r ->
  Consistent fileId r.
Proof.
  unfold processDownloadResponse, Consistent.
  destruct (adjustNameAndType fileInfo exportFormat) as [n m].
  destruct asBuffer.
  - destruct (streamToBuffer CONFIG (data response)) as [b|e]; [|discriminate].
    intros [= <-]. eexists. cbn.
    repeat (split; [reflexivity|]). split; [apply mimeOrOctet_nonempty|].
    split; reflexivity.
  - intros [= <-]. eexists. cbn.
    repeat (split; [reflexivity|]). split; [apply mimeOrOctet_nonempty|].
    split; [reflexivity | now eexists].
Qed.

Lemma downloadLargeFile_origin (fileId : string) (fileInfo : IFileInfo.t)
    (asBuffer : bool) (exportFormat : string) (w w' : W) (r : IDownloadResult.t) :
  downloadLargeFile CONFIG fileId fileInfo asBuffer exportFormat w = (Ok r, w') ->
  exists response,
    processDownloadResponse CONFIG response fileInfo fileId asBuffer exportFormat
    = Ok r.
Proof.
  unfold downloadLargeFile, tryCatch, bind, lift, throw.
  destruct (getText _ w) as [[body|e] w1]; [|discriminate].
  destruct (Regex.match1 confirmParam body) as [token|]; [|discriminate].
  destruct (getStream _ w1) as [[response|e] w2]; [|discriminate].
  destruct (processDownloadResponse _ _ _ _ _ _) as [r0|e] eqn:P; [|discriminate].
  intros [= <- _]. now exists response.
Qed.

Lemma fetchLoop_origin (fileId : string) (fileInfo : IFileInfo.t)
    (asBuffer : bool) (exportFormat : string) (urls : list string) :
  forall (response : option AxiosResponse) (w w' : W) (r : IDownloadResult.t),
    fetchLoop CONFIG fileId fileInfo asBuffer exportFormat urls response w
    = (Ok (Returned r), w') ->
    exists response0,
      processDownloadResponse CONFIG response0 fileInfo fileId asBuffer exportFormat
      = Ok r.
Proof.
  induction urls as [|url rest IH]; intros response w w' r; cbn [fetchLoop].
  - discriminate.
  - destruct (getStream url w) as [[r0|e0] w1].
    + destruct (JsString.includes "text/html" _); [|discriminate].
      destruct rest as [|url' rest']; [|apply IH].
      unfold tryCatch, bind, ret, throw.
      destruct (downloadLargeFile _ _ _ _ _ w1) as [[res|e] w2] eqn:D;
        [|discriminate].
      intros [= <- _]. now apply downloadLargeFile_origin in D.
    + destruct rest as [|url' rest']; [discriminate | apply IH].
Qed.

Lemma downloadBody_origin (url : UrlArg) (options : IDownloadOptions.t)
    (w w' : W) (r : IDownloadResult.t) :
  downloadBody CONFIG url options w = (Ok r, w') ->
  exists fileId fileInfo response,
    extractFileId url = Ok fileId
    /\ processDownloadResponse CONFIG response fileInfo fileId
         (asBufferOf options) (exportFormatOf options) = Ok r.
Proof.
  unfold downloadBody, bind, lift, ret, throw.
  destruct (extractFileId url) as [fileId|e]; [|discriminate].
  destruct (retryWithBackoff _ _ _ w) as [[fileInfo|e] w0]; [|discriminate].
  destruct (callGetDownloadUrls _ _ _) as [urls|e]; [|discriminate].
  destruct (fetchLoop _ _ _ _ _ _ _ w0) as [[[res|[response|]]|e] w1] eqn:L;
    try discriminate.
  - intros [= <- _]. apply fetchLoop_origin in L as [response P].
    now exists fileId, fileInfo, response.
  - destruct (processDownloadResponse _ _ _ _ _ _) as [r0|e] eqn:P;
      [|discriminate].
    intros [= <- _]. now exists fileId, fileInfo, response.
Qed.

End Origin.

(** X19.  Whatever path produced it (a candidate that answered, or the
    confirmation flow), a success of [download] is consistent: its [fileId]
    is the identifier extracted from the URL; [fileName], [mimeType] and
    [size] repeat the fields of [file]; the media type is not the empty
    text; in buffer mode the size is the length of the buffer and
    [totalBytes] is absent, in stream mode the size is absent and
    [totalBytes] is present. *)
Theorem download_success_consistent {W : Type} {transport : Transport W}
    (CONFIG : Config) (url : UrlArg) (options : IDownloadOptions.t)
    (w w' : W) (r : IDownloadResult.t) :
  download CONFIG url options w = (r, w') ->
  IDownloadResult.success r = true ->
  exists fileId, extractFileId url = Ok fileId /\ Consistent fileId r.
Proof.
  unfold download.
  destruct (downloadBody CONFIG url options w) as [[r0|e] w0] eqn:B.
  - intros [= <- _] _. apply downloadBody_origin in B as (fileId & fileInfo & response & X & P).
    exists fileId. split; [exact X|].
    now apply processDownloadResponse_consistent in P.
  - intros [= <- _]. discriminate.
Qed.

Lemma download_success_consistent_witness :
  let url := UrlString "https://drive.google.com/file/d/ABC123/view" in
  let w := Scripted.start [Ok (mkApiFile "a.pdf" (Some "application/pdf") None)] []
             [Ok Scripted.pdf] in
  exists fileId,
    extractFileId url = Ok fileId
    /\ Consistent fileId (fst (download Scripted.config url IDownloadOptions.empty w)).
Proof.
  cbv zeta.
  eapply (download_success_consistent Scripted.config
            (UrlString "https://drive.google.com/file/d/ABC123/view")
            IDownloadOptions.empty
            (Scripted.start [Ok (mkApiFile "a.pdf" (Some "application/pdf") None)] []
               [Ok Scripted.pdf])).
  - apply surjective_pairing.
  - reflexivity.
Defined.

(** ** The confirmation flow on its own *)

(** X20.  [downloadLargeFile] resolves only to a success of the selected mode, and
    rejects only with an [Error] whose message starts with the large-file
    prefix.  When the request of the confirmation page is itself rejected,
    the rejection is wrapped (as ['Unknown'] when it is not an [Error]) and
    the download endpoint is not requested. *)
Theorem downloadLargeFile_outcomes {W : Type} {transport : Transport W}
    (CONFIG : Config) (fileId : string) (fileInfo : IFileInfo.t)
    (asBuffer : bool) (exportFormat : string) (w : W) :
  (forall r w',
      downloadLargeFile CONFIG fileId fileInfo asBuffer exportFormat w = (Ok r, w') ->
      Succeeded asBuffer r)
  /\ (forall e w',
        downloadLargeFile CONFIG fileId fileInfo asBuffer exportFormat w
        = (Throw e, w') ->
        exists m, e = ErrorObj ("Large file download error: " ++ m))
  /\ (forall e w1,
        getText ("https://drive.google.com/uc?export=download&id=" ++ fileId) w
        = (Throw e, w1) ->
        downloadLargeFile CONFIG fileId fileInfo asBuffer exportFormat w
        = (Throw (ErrorObj ("Large file download error: " ++ messageOr "Unknown" e)),
           w1)).
Proof.
  split; [|split].
  - intros r w'. apply downloadLargeFile_ok.
  - intros e w'. apply downloadLargeFile_throw.
  - intros e w1 G. unfold downloadLargeFile, tryCatch, bind, throw.
    now rewrite G.
Qed.

(** ** The two convenience entry points *)

(** X21.  [downloadAsBuffer] and [downloadAsStream] fix the mode whatever
    [asBuffer] the caller's options carry: a success of the first holds a
    buffer and no stream, a success of the second a stream and no buffer. *)
Theorem download_wrappers_fix_mode {W : Type} {transport : Transport W}
    (CONFIG : Config) (url : UrlArg) (options : IDownloadOptions.t) (w : W) :
  (forall r w',
      downloadAsBuffer CONFIG url options w = (r, w') ->
      IDownloadResult.success r = true ->
      exists f b,
        IDownloadResult.file r = Some f
        /\ IDownloadedFile.buffer f = Some b /\ IDownloadedFile.stream f = None)
  /\ (forall r w',
        downloadAsStream CONFIG url options w = (r, w') ->
        IDownloadResult.success r = true ->
        exists f s,
          IDownloadResult.file r = Some f
          /\ IDownloadedFile.buffer f = None /\ IDownloadedFile.stream f = Some s).
Proof.
  unfold downloadAsBuffer, downloadAsStream, download.
  split; intros r w';
    match goal with
    | |- context [downloadBody CONFIG url ?o w] =>
        destruct (downloadBody CONFIG url o w) as [[r0|e] w0] eqn:B;
          [apply downloadBody_outcome in B | intros [= <- _]; discriminate]
    end;
    intros [= <- _] _; destruct B as (_ & _ & f & F & X); cbn in X.
  - destruct X as [[b Hb] Hs]. now exists f, b.
  - destruct X as [Hb [s Hs]]. now exists f, s.
Qed.

Lemma download_wrappers_fix_mode_witness :
  let url := UrlString "https://drive.google.com/file/d/ABC123/view" in
  let w := Scripted.start [Ok (mkApiFile "a.pdf" (Some "application/pdf") None)] []
             [Ok Scripted.pdf] in
  let options := IDownloadOptions.mk None None None (Some false) in
  exists f b,
    IDownloadResult.file (fst (downloadAsBuffer Scripted.config url options w)) = Some f
    /\ IDownloadedFile.buffer f = Some b /\ IDownloadedFile.stream f = None.
Proof.
  cbv zeta.
  apply (proj1 (download_wrappers_fix_mode Scripted.config
                  (UrlString "https://drive.google.com/file/d/ABC123/view")
                  (IDownloadOptions.mk None None None (Some false))
                  (Scripted.start
                     [Ok (mkApiFile "a.pdf" (Some "application/pdf") None)] []
                     [Ok Scripted.pdf]))
           _ _ (surjective_pairing _)).
  reflexivity.
Defined.

(** ** Metadata without a download *)

Lemma isGoogleDocMime_true (m : option Mime) :
  isGoogleDocMime m = true ->
  exists s, m = Some (MimeStr s) /\ In s googleDocMimeTypes.
Proof.
  unfold isGoogleDocMime.
  destruct m as [[s|k]|]; cbn [mimeTruthy]; try discriminate.
  destruct (JsString.truthy s); [|discriminate].
  intros H. apply existsb_exists in H as (x & I & E).
  apply String.eqb_eq in E. subst x. now exists s.
Qed.

Lemma getAvailableFormats_workspace (s : string) :
  In s googleDocMimeTypes ->
  exists rest, getAvailableFormats (Some s) = "pdf" :: rest.
Proof.
  intros I. repeat (destruct I as [<-|I]; [now eexists|]). destruct I.
Qed.

(** X22.  [getFileMetadata] rejects exactly when [extractFileId] throws, with the
    same error and before any request; for a URL that holds an identifier it
    resolves, reports that identifier, and [availableFormats] is present
    exactly when [isGoogleDoc] is set, which happens only for one of the
    five Workspace media types; the list then starts with [pdf]. *)
Theorem getFileMetadata_outcomes {W : Type} {transport : Transport W}
    (url : UrlArg) (w : W) :
  (forall e, extractFileId url = Throw e -> getFileMetadata url w = (Throw e, w))
  /\ (forall fileId,
        extractFileId url = Ok fileId ->
        exists m w',
          getFileMetadata url w = (Ok m, w')
          /\ IFileMetadata.fileId m = fileId
          /\ (IFileMetadata.isGoogleDoc m = false ->
              IFileMetadata.availableFormats m = None)
          /\ (IFileMetadata.isGoogleDoc m = true ->
              exists s rest,
                IFileMetadata.mimeType m = Some (MimeStr s)
                /\ In s googleDocMimeTypes
                /\ IFileMetadata.availableFormats m = Some ("pdf" :: rest))).
Proof.
  unfold getFileMetadata, bind, lift, ret. split.
  - now intros e ->.
  - intros fileId ->.
    destruct (getFileInfo_resolves fileId w) as (fileInfo & w' & ->).
    eexists; eexists. split; [reflexivity|]. cbn.
    split; [reflexivity|].
    destruct (isGoogleDocMime (IFileInfo.mimeType fileInfo)) eqn:G.
    + split; [discriminate|]. intros _.
      apply isGoogleDocMime_true in G as (s & E & I).
      destruct (getAvailableFormats_workspace s I) as [rest F].
      exists s, rest. rewrite E. cbn [mimeText]. now rewrite F.
    + split; [reflexivity | discriminate].
Qed.

Lemma getFileMetadata_outcomes_witness :
  let url := UrlString "https://docs.google.com/spreadsheets/d/1aB-c_9/edit" in
  let w := Scripted.start
             [Ok (mkApiFile "Budget"
                    (Some "application/vnd.google-apps.spreadsheet") None)] [] [] in
  exists m w',
    getFileMetadata url w = (Ok m, w')
    /\ IFileMetadata.fileId m = "1aB-c_9"
    /\ IFileMetadata.isGoogleDoc m = true
    /\ IFileMetadata.availableFormats m
       = Some ["pdf"; "xlsx"; "ods"; "csv"; "tsv"; "html"; "zip"].
Proof.
  cbv zeta.
  destruct (proj2 (getFileMetadata_outcomes
                     (UrlString "https://docs.google.com/spreadsheets/d/1aB-c_9/edit")
                     (Scripted.start
                        [Ok (mkApiFile "Budget"
                               (Some "application/vnd.google-apps.spreadsheet") None)]
                        [] []))
              "1aB-c_9" eq_refl) as (m & w' & E & I & _).
  exists m, w'. split; [exact E|]. split; [exact I|].
  injection E as <- _. split; reflexivity.
Defined.

(** ** Saving what was downloaded *)

(** X23.  [saveToFile] on what [download] resolved to.  A failure makes it throw
    the error text of the result, or ['Download failed'] when that text is
    empty, and the file system is not touched.  A success makes it ensure
    the directory and then write the buffer (buffer mode) or pipe the stream
    (stream mode): the branch for a file with neither is never taken. *)
Theorem saveToFile_after_download {W : Type} {transport : Transport W}
    {F : Type} {fs : FileSystem F}
    (CONFIG : Config) (url : UrlArg) (options : IDownloadOptions.t)
    (w w' : W) (r : IDownloadResult.t) (filePath : string) (f : F) :
  download CONFIG url options w = (r, w') ->
  (IDownloadResult.success r = false ->
   exists m,
     IDownloadResult.error r = Some m
     /\ saveToFile r filePath f
        = (Throw (ErrorObj (if JsString.truthy m then m else "Download failed")), f))
  /\ (IDownloadResult.success r = true ->
      exists file,
        IDownloadResult.file r = Some file
        /\ ((exists buffer,
               asBufferOf options = true
               /\ IDownloadedFile.buffer file = Some buffer
               /\ saveToFile r filePath f
                  = bind (ensureDirectory (dirname filePath))
                      (fun _ => writeFileSync filePath buffer) f)
            \/ (exists stream,
                  asBufferOf options = false
                  /\ IDownloadedFile.stream file = Some stream
                  /\ saveToFile r filePath f
                     = bind (ensureDirectory (dirname filePath))
                         (fun _ => pipeToFile filePath stream) f))).
Proof.
  unfold download.
  destruct (downloadBody CONFIG url options w) as [[r0|e] w0] eqn:B;
    intros [= <- _].
  - apply downloadBody_outcome in B as (S & _ & file & E & X).
    split; [intros N; rewrite S in N; discriminate N|]. intros _.
    exists file. split; [exact E|].
    unfold saveToFile. rewrite S, E. unfold ExactlyOne in X.
    destruct (asBufferOf options).
    + destruct X as [[b Hb] _]. left. exists b. now rewrite Hb.
    + destruct X as [Hb [s Hs]]. right. exists s. now rewrite Hb, Hs.
  - split; [|discriminate]. intros _.
    eexists. split; [reflexivity|]. reflexivity.
Qed.

Lemma saveToFile_after_download_witness :
  let url := UrlString "https://drive.google.com/file/d/ABC123/view" in
  let w := Scripted.start [Ok (mkApiFile "a.pdf" (Some "application/pdf") None)] []
             [Ok Scripted.pdf] in
  let r := fst (download Scripted.config url IDownloadOptions.empty w) in
  IDownloadResult.success r = true
  /\ saveToFile r "out/a.pdf" MemoryFs.blank
     = (Ok tt, MemoryFs.mkDisk ["out"; "."]
                 [("out/a.pdf", Buffer.ofString "%PDF-1.4")]).
Proof.
  cbv zeta. split; [reflexivity|].
  destruct (saveToFile_after_download Scripted.config
              (UrlString "https://drive.google.com/file/d/ABC123/view")
              IDownloadOptions.empty
              (Scripted.start [Ok (mkApiFile "a.pdf" (Some "application/pdf") None)] []
                 [Ok Scripted.pdf])
              _ _ "out/a.pdf" MemoryFs.blank (surjective_pairing _))
    as [_ S].
  destruct (S eq_refl) as (file & E & [(buffer & _ & B & ->)|(stream & A & _)]).
  - injection E as <-. injection B as <-. reflexivity.
  - discriminate A.
Defined.

(** ** How the loop is left *)

Lemma includes_not_reportsHtml (r : AxiosResponse) :
  JsString.includes "text/html" (headerOr (contentType r) "") = false ->
  ~ ReportsHtml r.
Proof.
  intros I H. apply reportsHtml_includes in H. rewrite H in I. discriminate I.
Qed.

Lemma callGetDownloadUrls_nonempty (fileId : string) (mimeType : option Mime)
    (exportFormat : string) (urls : list string) :
  callGetDownloadUrls fileId mimeType exportFormat = Ok urls -> urls <> [].
Proof.
  unfold callGetDownloadUrls.
  destruct mimeType as [[m|m]|]; try discriminate; intros [= <-];
    match goal with
    | |- getDownloadUrls ?f ?m ?x <> [] =>
        destruct (getDownloadUrls_shape f m x) as (exports & E & _);
        rewrite E; now destruct exports
    end.
Qed.

Lemma fetchLoop_left {W : Type} {transport : Transport W} (CONFIG : Config)
    (fileId : string) (fileInfo : IFileInfo.t) (asBuffer : bool)
    (exportFormat : string) (urls : list string) :
  urls <> [] ->
  forall (response got : option AxiosResponse) (w w' : W),
    fetchLoop CONFIG fileId fileInfo asBuffer exportFormat urls response w
    = (Ok (Left got), w') ->
    exists r url w1,
      got = Some r /\ In url urls /\ getStream url w1 = (Ok r, w')
      /\ ~ ReportsHtml r.
Proof.
  induction urls as [|url rest IH]; intros N response got w w'; [now elim N|].
  cbn [fetchLoop].
  destruct (getStream url w) as [[r|e] w1] eqn:G.
  - destruct (JsString.includes "text/html" _) eqn:I.
    + destruct rest as [|url' rest'].
      * unfold tryCatch, bind, ret, throw.
        destruct (downloadLargeFile _ _ _ _ _ w1) as [[res|e] w2]; discriminate.
      * intros H. apply IH in H as (r0 & u & w0 & E & In0 & G0 & H0);
          [|discriminate].
        exists r0, u, w0. repeat split; try assumption. now right.
    + intros [= <- <-]. exists r, url, w.
      repeat split; [now left | exact G | now apply includes_not_reportsHtml].
  - destruct rest as [|url' rest']; [discriminate|].
    intros H. apply IH in H as (r0 & u & w0 & E & In0 & G0 & H0); [|discriminate].
    exists r0, u, w0. repeat split; try assumption. now right.
Qed.

(** X24.  The loop over the candidates of [getDownloadUrls] is never left with
    [response] still [null], so the throw of ['All download attempts failed']
    is dead code; and the answer it is left with is the one a candidate just
    gave and does not report HTML.  (The confirmation flow has no such
    guard.) *)
Theorem download_loop_exit {W : Type} {transport : Transport W} (CONFIG : Config)
    (fileId : string) (fileInfo : IFileInfo.t) (asBuffer : bool)
    (exportFormat : string) (urls : list string)
    (got : option AxiosResponse) (w w' : W) :
  callGetDownloadUrls fileId (IFileInfo.mimeType fileInfo) exportFormat = Ok urls ->
  fetchLoop CONFIG fileId fileInfo asBuffer exportFormat urls None w
  = (Ok (Left got), w') ->
  exists response url w1,
    got = Some response /\ In url urls
    /\ getStream url w1 = (Ok response, w') /\ ~ ReportsHtml response.
Proof.
  intros C. apply fetchLoop_left. now apply callGetDownloadUrls_nonempty in C.
Qed.

Lemma download_loop_exit_witness :
  let urls := getDownloadUrls "ABC123" (Some "application/pdf") "original" in
  let w' := Scripted.mkWorld [] [] []
              [Scripted.Requested (userContentUrl "ABC123" "&authuser=0");
               Scripted.Requested (userContentUrl "ABC123" "&confirm=t")] in
  exists url w1,
    In url urls /\ getStream url w1 = (Ok Scripted.pdf, w')
    /\ ~ ReportsHtml Scripted.pdf.
Proof.
  cbv zeta.
  assert (C : callGetDownloadUrls "ABC123" (Some (MimeStr "application/pdf")) "original"
              = Ok (getDownloadUrls "ABC123" (Some "application/pdf") "original"))
    by reflexivity.
  assert (F : fetchLoop Scripted.config "ABC123"
                (IFileInfo.mk "a.pdf" (Some (MimeStr "application/pdf")) None)
                true "original"
                (getDownloadUrls "ABC123" (Some "application/pdf") "original") None
                (Scripted.mkWorld [] [] [Ok Scripted.html; Ok Scripted.pdf] [])
              = (Ok (Left (Some Scripted.pdf)),
                 Scripted.mkWorld [] [] []
                   [Scripted.Requested (userContentUrl "ABC123" "&authuser=0");
                    Scripted.Requested (userContentUrl "ABC123" "&confirm=t")]))
    by reflexivity.
  destruct (download_loop_exit Scripted.config "ABC123"
              (IFileInfo.mk "a.pdf" (Some (MimeStr "application/pdf")) None)
              true "original" _ _ _ _ C F)
    as (response & url & w1 & E & I & G & H).
  injection E as <-. now exists url, w1.
Defined.

(** ** The name scraped from the view page *)

(** X25.  When the view page answers, [getFileInfoFromPage] resolves with a name
    and the media type of its extension.  An [og:title] other than
    ['Google Drive'] decides the name, trimmed, whatever the [<title>]
    element says, and is not checked for emptiness.  Without such an
    [og:title] the name is neither empty nor ['Google Drive'], and it is
    [file_<id>] when the page has no [<title>] element either. *)
Theorem getFileInfoFromPage_name {W : Type} {transport : Transport W}
    (fileId html : string) (w w1 : W) :
  getText ("https://drive.google.com/file/d/" ++ fileId ++ "/view") w = (Ok html, w1) ->
  exists name,
    getFileInfoFromPage fileId w
    = (Ok (IFileInfo.mk name (detectMimeTypeFromExtension name) None), w1)
    /\ (forall g,
          Regex.match1 ogTitle html = Some g -> g <> "Google Drive" ->
          name = JsString.trim g)
    /\ (Regex.match1 ogTitle html = None
        \/ Regex.match1 ogTitle html = Some "Google Drive" ->
        name <> "" /\ name <> "Google Drive"
        /\ (Regex.match1 titleTag html = None -> name = "file_" ++ fileId)).
Proof.
  intros G. unfold getFileInfoFromPage, tryCatch, bind, ret. rewrite G.
  eexists. split; [reflexivity|]. split.
  - intros g -> N. apply String.eqb_neq in N. now rewrite N.
  - intros O.
    assert (E : match Regex.match1 ogTitle html with
                | Some g => negb (String.eqb g "Google Drive")
                | None => false
                end = false) by (destruct O as [-> | ->]; reflexivity).
    destruct (Regex.match1 ogTitle html) as [g|].
    + rewrite E. clear E O.
      destruct (Regex.match1 titleTag html) as [t|].
      * destruct (JsString.truthy _ && negb _) eqn:T.
        -- apply andb_true_iff in T as [T1 T2].
           apply truthy_iff in T1. apply negb_true_iff, String.eqb_neq in T2.
           repeat split; [exact T1 | exact T2 | discriminate].
        -- repeat split; discriminate.
      * repeat split; discriminate.
    + clear E O.
      destruct (Regex.match1 titleTag html) as [t|].
      * destruct (JsString.truthy _ && negb _) eqn:T.
        -- apply andb_true_iff in T as [T1 T2].
           apply truthy_iff in T1. apply negb_true_iff, String.eqb_neq in T2.
           repeat split; [exact T1 | exact T2 | discriminate].
        -- repeat split; discriminate.
      * repeat split; discriminate.
Qed.

(** An instance: a page whose [og:title] is blank gives the empty name, in
    spite of its [<title>]. *)
Lemma getFileInfoFromPage_name_witness :
  let html := "<title>report.pdf - Google Drive</title><meta property=" ++ dq
              ++ "og:title" ++ dq ++ " content=" ++ dq ++ "  " ++ dq ++ ">" in
  getFileInfoFromPage "ABC123" (Scripted.start [] [Ok html] [])
  = (Ok (IFileInfo.mk "" None None),
     Scripted.mkWorld [] [] []
       [Scripted.Requested "https://drive.google.com/file/d/ABC123/view"]).
Proof.
  cbv zeta.
  pose (html := "<title>report.pdf - Google Drive</title><meta property=" ++ dq
                ++ "og:title" ++ dq ++ " content=" ++ dq ++ "  " ++ dq ++ ">").
  assert (G : getText ("https://drive.google.com/file/d/" ++ "ABC123" ++ "/view")
                (Scripted.start [] [Ok html] [])
              = (Ok html,
                 Scripted.mkWorld [] [] []
                   [Scripted.Requested "https://drive.google.com/file/d/ABC123/view"]))
    by reflexivity.
  assert (M : Regex.match1 ogTitle html = Some "  ") by reflexivity.
  assert (N : "  " <> "Google Drive") by discriminate.
  destruct (getFileInfoFromPage_name "ABC123" html _ _ G) as (name & E & O & _).
  fold html. rewrite E. now rewrite (O "  " M N).
Defined.

(** ** Worked examples *)

(** A direct file link wins over an [id=] parameter further on. *)
Example extractFileId_file_link_first :
  extractFileId (UrlString "  https://drive.google.com/file/d/1a-B_c/view?id=other ")
  = Ok "1a-B_c".
Proof. reflexivity. Qed.

Example extractFileId_blank :
  extractFileId (UrlString "   ") = Throw fileIdNotFound.
Proof. reflexivity. Qed.

Example detectMimeTypeFromExtension_upper_case :
  detectMimeTypeFromExtension "Report.final.DOCX"
  = Some (MimeStr "application/vnd.openxmlformats-officedocument.wordprocessingml.document").
Proof. reflexivity. Qed.

Example detectMimeTypeFromBuffer_short :
  detectMimeTypeFromBuffer (Buffer.ofString "GIF") = octetStream.
Proof. reflexivity. Qed.

Example detectMimeTypeFromBuffer_spreadsheet :
  detectMimeTypeFromBuffer (Buffer.ofString "PK..[Content_Types].xml xl/workbook.xml")
  = "application/vnd.openxmlformats-officedocument.spreadsheetml.sheet".
Proof. reflexivity. Qed.

(** A plain PDF: the first candidate answers, the bytes decide the type. *)
Example download_plain_pdf :
  let w := Scripted.start [Ok (mkApiFile "scan" None None)] [] [Ok Scripted.pdf] in
  let r := fst (download Scripted.config
                  (UrlString "https://drive.google.com/uc?export=download&id=ABC123")
                  IDownloadOptions.empty w) in
  IDownloadResult.success r = true
  /\ IDownloadResult.fileId r = Some "ABC123"
  /\ IDownloadResult.mimeType r = Some (MimeStr "application/pdf")
  /\ IDownloadResult.size r = Some 8.
Proof. cbv zeta. repeat split; reflexivity. Qed.

(** A Workspace document exported as pdf: the pdf export URL is the first
    and only request after the metadata lookup, and the name gets [.pdf]. *)
Example download_document_as_pdf :
  let doc := mkApiFile "Report.gdoc" (Some "application/vnd.google-apps.document") None in
  let answer := mkResponse (Some "application/pdf") None
                  [OnData (Buffer.ofString "%PDF-1.7"); OnEnd] in
  let w := Scripted.start [Ok doc] [] [Ok answer] in
  let options := IDownloadOptions.mk None None (Some "pdf") None in
  let run := download Scripted.config
               (UrlString "https://docs.google.com/document/d/DOC42/edit") options w in
  IDownloadResult.fileName (fst run) = Some "Report.pdf"
  /\ IDownloadResult.mimeType (fst run) = Some (MimeStr "application/pdf")
  /\ Scripted.journal (snd run)
     = [ Scripted.Requested "https://www.googleapis.com/drive/v3/files/DOC42";
         Scripted.Requested "https://docs.google.com/document/d/DOC42/export?format=pdf" ].
Proof. cbv zeta. repeat split; reflexivity. Qed.

(** Stream mode hands the body over unread; [totalBytes] is the declared
    length, or 0 without one. *)
Example download_stream_total_bytes :
  let silent := mkResponse (Some "video/mp4") None [OnData (Buffer.ofString "....")] in
  let sized := mkResponse (Some "video/mp4") (Some "1048576") [OnData (Buffer.ofString "....")] in
  let file := Ok (mkApiFile "clip.mp4" (Some "video/mp4") None) in
  let options := IDownloadOptions.mk None None None (Some false) in
  let url := UrlString "https://drive.google.com/open?id=ABC123" in
  IDownloadResult.totalBytes
    (fst (download Scripted.config url options (Scripted.start [file] [] [Ok silent])))
  = Some 0%Z
  /\ IDownloadResult.totalBytes
       (fst (download Scripted.config url options (Scripted.start [file] [] [Ok sized])))
     = Some 1048576%Z.
Proof. cbv zeta. split; reflexivity. Qed.

(** The ceiling of buffer mode: one byte too many and nothing is returned
    as a success. *)
Example download_over_the_ceiling :
  let tiny := mkConfig 3 1000 4 "0.000003814697265625" in
  let answer := mkResponse None None [OnData (Buffer.ofString "12345"); OnEnd] in
  let w := Scripted.start [Ok (mkApiFile "a.bin" None None)] [] [Ok answer] in
  fst (download tiny (UrlString "https://drive.google.com/open?id=ABC123")
         IDownloadOptions.empty w)
  = failure "File too large to process in memory (>0.000003814697265625MB)".
Proof. reflexivity. Qed.

(** An ['error'] event without a message, in buffer mode: the failure has an
    empty error text. *)
Example download_body_error_event :
  let answer := mkResponse None None
                  [OnData (Buffer.ofString "12"); OnError (ErrorObj "")] in
  let w := Scripted.start [Ok (mkApiFile "a.bin" None None)] [] [Ok answer] in
  fst (download Scripted.config (UrlString "https://drive.google.com/open?id=ABC123")
         IDownloadOptions.empty w)
  = failure "".
Proof. reflexivity. Qed.

(** A body that is complete only after the 60 s of the timer is not
    returned. *)
Example download_late_end :
  let answer := mkResponse None None
                  [OnData (Buffer.ofString "%PDF"); Idle 60000; OnEnd] in
  let w := Scripted.start [Ok (mkApiFile "a.pdf" None None)] [] [Ok answer] in
  fst (download Scripted.config (UrlString "https://drive.google.com/open?id=ABC123")
         IDownloadOptions.empty w)
  = failure "Timeout while converting stream to buffer".
Proof. reflexivity. Qed.
